(** * mux: a shallow embedding of the process supervisor

    The program is a Node.js terminal supervisor: [MuxProcess]
    (src/process.ts) owns the child processes and the log file of one
    configured process, [MuxUI] (ui.ts) drives a navigation graph of menu,
    prompt, action and end nodes, and [main] wires both to the terminal and
    to the signal handlers.

    JavaScript's single-threaded asynchrony is modelled explicitly:
    - the mutable objects, the file system, the promise table and the trace
      of side effects live in one [World] record that is threaded through
      every operation;
    - an [async] function is a computation in continuation-passing style; it
      runs synchronously up to its first [await], where it leaves a [Task]
      that waits for promises;
    - the event loop is a [Runtime]: the world plus the pool of suspended
      tasks; the environment (child processes, the terminal, signals) acts on
      it through [deliver].

    The facts come in three kinds: equations for the methods of
    [MuxProcess] and for the steps of the state machine; properties of every
    execution, proved by showing that each step of each task stays within a
    relation on worlds; and runs of the whole supervisor on sample
    configurations. *)

From Stdlib Require Import ZArith Ascii String DecimalString.
From stdpp Require Import base list gmap strings.

(** ** Values, promises and configuration (config.ts) *)

Inductive Value : Type :=
  | undefined
  | num (n : Z).

Abbreviation Promise := nat (only parsing).
Abbreviation Handle := nat (only parsing).

Inductive PState : Type :=
  | Pending
  | Resolved (v : Value)
  | Rejected (e : string).

Record MuxCommand : Type := {
  exec : string;
  dir : option string;
  env : option (gmap string string)
}.

Record MuxProcessConfig : Type := {
  cfg_name : string;
  cfg_run : MuxCommand;
  cfg_install : option MuxCommand;
  cfg_stop : option MuxCommand
}.

Record MuxConfig : Type := {
  rootDir : string;
  cfg_logPath : string;
  processes : list MuxProcessConfig
}.

(** ** The world *)

(** The mutable fields of one [MuxProcess] object.  [children] holds the
    handles (references to [IPty] objects) in push order. *)
Record Proc : Type := {
  name : string;
  processConfig : MuxProcessConfig;
  children : list Handle;
  logPath : option string;
  startPromise : option Promise
}.

(** One spawned pseudo-terminal child ([IPty]).  [c_data] is the listener
    registered with [onData] (the path of the write stream it appends to),
    [c_exit] the one registered with [onExit] (the stream and the promise it
    resolves), and [c_code] the exit code once the process has exited. *)
Record Child : Type := {
  pid : Z;
  c_data : option string;
  c_exit : option (string * Promise);
  c_code : option Z
}.

Inductive LineHandler : Type :=
  | ToLogger
  | ToProcessLog (i : nat).

(** A [Tail] object of the tail package. *)
Record TailRec : Type := {
  t_path : string;
  t_lines : Z;
  t_handler : option LineHandler;
  t_watching : bool
}.

Inductive Level : Type := LLog | LInfo | LDebug | LWarn | LError.

(** Observable side effects, in program order. *)
Inductive Event : Type :=
  | ELogger (l : Level) (msg : string)
  | EConsole (msg : string)
  | EMkdir (path : string)
  | EAppendFile (path data : string)
  | ETruncate (path : string)
  | EWriteStream (path : string)
  | ESpawn (bin : string) (args : list string) (envp : gmap string string) (h : Handle)
  | ETreeKill (p : Z) (sig : string)
  | ETail (path : string) (n : Z) (t : nat)
  | EUnwatch (t : nat)
  | EChoicePrompt (prompt : string) (items : list string)
  | EWaitKey
  | ETerminalReset
  | EProcessKill (p : Z) (sig : string)
  | EProcessExit.

Record World : Type := {
  procs : list Proc;
  files : gmap string string;
  promises : list PState;
  spawned : list Child;
  next_pid : Z;
  tails : list TailRec;
  cells : list (option nat);
  key_waiters : list Promise;
  choice_waiters : list Promise;
  ui_stopped : bool;
  main_stopped : bool;
  now : Z;
  self_pid : Z;
  exited : bool;
  trace : list Event
}.

Definition with_procs (f : list Proc -> list Proc) (w : World) : World :=
  {| procs := f (procs w); files := files w; promises := promises w;
     spawned := spawned w; next_pid := next_pid w; tails := tails w;
     cells := cells w; key_waiters := key_waiters w;
     choice_waiters := choice_waiters w; ui_stopped := ui_stopped w;
     main_stopped := main_stopped w; now := now w; self_pid := self_pid w;
     exited := exited w; trace := trace w |}.

Definition with_files (f : gmap string string -> gmap string string) (w : World) : World :=
  {| procs := procs w; files := f (files w); promises := promises w;
     spawned := spawned w; next_pid := next_pid w; tails := tails w;
     cells := cells w; key_waiters := key_waiters w;
     choice_waiters := choice_waiters w; ui_stopped := ui_stopped w;
     main_stopped := main_stopped w; now := now w; self_pid := self_pid w;
     exited := exited w; trace := trace w |}.

Definition with_promises (f : list PState -> list PState) (w : World) : World :=
  {| procs := procs w; files := files w; promises := f (promises w);
     spawned := spawned w; next_pid := next_pid w; tails := tails w;
     cells := cells w; key_waiters := key_waiters w;
     choice_waiters := choice_waiters w; ui_stopped := ui_stopped w;
     main_stopped := main_stopped w; now := now w; self_pid := self_pid w;
     exited := exited w; trace := trace w |}.

Definition with_spawned (f : list Child -> list Child) (g : Z -> Z) (w : World) : World :=
  {| procs := procs w; files := files w; promises := promises w;
     spawned := f (spawned w); next_pid := g (next_pid w); tails := tails w;
     cells := cells w; key_waiters := key_waiters w;
     choice_waiters := choice_waiters w; ui_stopped := ui_stopped w;
     main_stopped := main_stopped w; now := now w; self_pid := self_pid w;
     exited := exited w; trace := trace w |}.

Definition with_tails (f : list TailRec -> list TailRec) (w : World) : World :=
  {| procs := procs w; files := files w; promises := promises w;
     spawned := spawned w; next_pid := next_pid w; tails := f (tails w);
     cells := cells w; key_waiters := key_waiters w;
     choice_waiters := choice_waiters w; ui_stopped := ui_stopped w;
     main_stopped := main_stopped w; now := now w; self_pid := self_pid w;
     exited := exited w; trace := trace w |}.

Definition with_cells (f : list (option nat) -> list (option nat)) (w : World) : World :=
  {| procs := procs w; files := files w; promises := promises w;
     spawned := spawned w; next_pid := next_pid w; tails := tails w;
     cells := f (cells w); key_waiters := key_waiters w;
     choice_waiters := choice_waiters w; ui_stopped := ui_stopped w;
     main_stopped := main_stopped w; now := now w; self_pid := self_pid w;
     exited := exited w; trace := trace w |}.

Definition with_key_waiters (f : list Promise -> list Promise) (w : World) : World :=
  {| procs := procs w; files := files w; promises := promises w;
     spawned := spawned w; next_pid := next_pid w; tails := tails w;
     cells := cells w; key_waiters := f (key_waiters w);
     choice_waiters := choice_waiters w; ui_stopped := ui_stopped w;
     main_stopped := main_stopped w; now := now w; self_pid := self_pid w;
     exited := exited w; trace := trace w |}.

Definition with_choice_waiters (f : list Promise -> list Promise) (w : World) : World :=
  {| procs := procs w; files := files w; promises := promises w;
     spawned := spawned w; next_pid := next_pid w; tails := tails w;
     cells := cells w; key_waiters := key_waiters w;
     choice_waiters := f (choice_waiters w); ui_stopped := ui_stopped w;
     main_stopped := main_stopped w; now := now w; self_pid := self_pid w;
     exited := exited w; trace := trace w |}.

Definition with_ui_stopped (b : bool) (w : World) : World :=
  {| procs := procs w; files := files w; promises := promises w;
     spawned := spawned w; next_pid := next_pid w; tails := tails w;
     cells := cells w; key_waiters := key_waiters w;
     choice_waiters := choice_waiters w; ui_stopped := b;
     main_stopped := main_stopped w; now := now w; self_pid := self_pid w;
     exited := exited w; trace := trace w |}.

Definition with_main_stopped (b : bool) (w : World) : World :=
  {| procs := procs w; files := files w; promises := promises w;
     spawned := spawned w; next_pid := next_pid w; tails := tails w;
     cells := cells w; key_waiters := key_waiters w;
     choice_waiters := choice_waiters w; ui_stopped := ui_stopped w;
     main_stopped := b; now := now w; self_pid := self_pid w;
     exited := exited w; trace := trace w |}.

Definition with_now (t : Z) (w : World) : World :=
  {| procs := procs w; files := files w; promises := promises w;
     spawned := spawned w; next_pid := next_pid w; tails := tails w;
     cells := cells w; key_waiters := key_waiters w;
     choice_waiters := choice_waiters w; ui_stopped := ui_stopped w;
     main_stopped := main_stopped w; now := t; self_pid := self_pid w;
     exited := exited w; trace := trace w |}.

Definition with_exited (b : bool) (w : World) : World :=
  {| procs := procs w; files := files w; promises := promises w;
     spawned := spawned w; next_pid := next_pid w; tails := tails w;
     cells := cells w; key_waiters := key_waiters w;
     choice_waiters := choice_waiters w; ui_stopped := ui_stopped w;
     main_stopped := main_stopped w; now := now w; self_pid := self_pid w;
     exited := b; trace := trace w |}.

Definition emit (e : Event) (w : World) : World :=
  {| procs := procs w; files := files w; promises := promises w;
     spawned := spawned w; next_pid := next_pid w; tails := tails w;
     cells := cells w; key_waiters := key_waiters w;
     choice_waiters := choice_waiters w; ui_stopped := ui_stopped w;
     main_stopped := main_stopped w; now := now w; self_pid := self_pid w;
     exited := exited w; trace := trace w ++ [e] |}.

(** ** Synchronous code *)

(** Code without [await] is a state transformer on the world. *)
Definition Sync (A : Type) : Type := World -> A * World.

Definition sret {A} (a : A) : Sync A := fun w => (a, w).
Definition sbind {A B} (m : Sync A) (f : A -> Sync B) : Sync B :=
  fun w => let '(a, w1) := m w in f a w1.
Definition gets {A} (f : World -> A) : Sync A := fun w => (f w, w).
Definition modify (f : World -> World) : Sync unit := fun w => (tt, f w).

Notation "x <~ m ;; f" := (sbind m (fun x => f))
  (at level 90, m at level 80, right associativity, only parsing).
Notation "m ;;~ f" := (sbind m (fun _ => f))
  (at level 90, right associativity, only parsing).

(** ** Tasks and the [async] monad *)

Local Unset Elimination Schemes.

(** What an [async] function has become when control returns to its caller:
    it returned, it threw, or it is suspended at an [await] on the promises
    [ps] (one for a plain [await], several for [await Promise.all]).  The
    continuation receives the values the promises resolved with and the
    world at the time of resumption, and yields the new world, the next
    state of this task and the tasks forked meanwhile (each with the promise
    of its result). *)
Inductive Task : Type :=
  | Fin (v : Value)
  | Fail (e : string)
  | Await (ps : list Promise)
          (k : list Value -> World -> World * Task * list (Promise * Task)).

Local Set Elimination Schemes.

Abbreviation Forks := (list (nat * Task)) (only parsing).
Abbreviation Out := (World * Task * list (nat * Task))%type (only parsing).

(** The body of an [async] function, in continuation-passing style. *)
Definition Async (A : Type) : Type := (A -> World -> Out) -> World -> Out.

Definition ret {A} (a : A) : Async A := fun k => k a.
Definition bind {A B} (m : Async A) (f : A -> Async B) : Async B :=
  fun k => m (fun a => f a k).
Definition throw {A} (e : string) : Async A := fun _ w => (w, Fail e, []).

(** Synchronous code inside an [async] body. *)
Definition lift {A} (m : Sync A) : Async A :=
  fun k w => let '(a, w1) := m w in k a w1.

Coercion lift : Sync >-> Async.

Notation "x <- m ;; f" := (bind m (fun x => f))
  (at level 90, m at level 80, right associativity, only parsing).
Notation "m ;;; f" := (bind m (fun _ => f))
  (at level 90, right associativity, only parsing).

(** The last continuation of an [async] body: the function returns. *)
Definition fin : Value -> World -> Out := fun v w => (w, Fin v, []).

(** Running a body from its first statement to its first suspension. *)
Definition run (body : Async Value) (w : World) : Out := body fin w.

(** *** Promises *)

Definition promise_state (p : Promise) (w : World) : option PState :=
  promises w !! p.

(** [new Promise(...)]: a fresh, pending promise. *)
Definition new_promise : Sync Promise :=
  fun w => (length (promises w), with_promises (fun ps => ps ++ [Pending]) w).

(** Settling is one-shot: a settled promise keeps its state. *)
Definition settle (p : Promise) (s : PState) (w : World) : World :=
  match promise_state p w with
  | Some Pending => with_promises (fun ps => <[p := s]> ps) w
  | _ => w
  end.

(** [Promise.resolve(v)]. *)
Definition Promise_resolve (v : Value) : Sync Promise :=
  fun w => (length (promises w), with_promises (fun ps => ps ++ [Resolved v]) w).

(** [await p]: always a suspension point. *)
Definition await (p : Promise) : Async Value :=
  fun k w => (w, Await [p] (fun vs => k (default undefined (head vs))), []).

(** [await x] where [x] is a promise or [undefined]: awaiting a value that
    is not a promise suspends as well and resumes with that value. *)
Definition await_value (x : option Promise) : Async Value :=
  match x with
  | Some p => await p
  | None => fun k w => (w, Await [] (fun _ => k undefined), [])
  end.

(** [await Promise.all(ps)]. *)
Definition await_all (ps : list Promise) : Async (list Value) :=
  fun k w => (w, Await ps k, []).

Definition finish (r : Promise) (t : Task) (w : World) : World :=
  match t with
  | Fin v => settle r (Resolved v) w
  | Fail e => settle r (Rejected e) w
  | Await _ _ => w
  end.

Definition suspended (r : Promise) (t : Task) : Forks :=
  match t with
  | Await _ _ => [(r, t)]
  | _ => []
  end.

(** Calling an [async] function: its body runs at once up to its first
    [await]; the caller gets the promise of the result and goes on. *)
Definition call (body : Async Value) : Async Promise :=
  fun k w =>
    let r := length (promises w) in
    let '(w1, t, fs) := run body (with_promises (fun ps => ps ++ [Pending]) w) in
    let '(w2, t2, fs2) := k r (finish r t w1) in
    (w2, t2, fs ++ suspended r t ++ fs2).

(** ** The event loop *)

Record Runtime : Type := {
  world : World;
  pool : Forks
}.

Inductive Readiness : Type :=
  | NotReady
  | Ready (vs : list Value)
  | Broken (e : string).

Fixpoint readiness (w : World) (ps : list Promise) : Readiness :=
  match ps with
  | [] => Ready []
  | p :: ps' =>
      match promise_state p w, readiness w ps' with
      | Some (Rejected e), _ => Broken e
      | _, Broken e => Broken e
      | Some (Resolved v), Ready vs => Ready (v :: vs)
      | _, _ => NotReady
      end
  end.

Definition task_readiness (w : World) (t : Task) : Readiness :=
  match t with
  | Await ps _ => readiness w ps
  | _ => NotReady
  end.

(** Resume one task whose promises have settled.  A rejected promise makes
    the [await] throw; no function of the program catches, so the task's own
    promise is rejected. *)
Definition resume (r : Promise) (t : Task) (w : World) : World * Forks :=
  match t with
  | Await ps k =>
      match readiness w ps with
      | Ready vs =>
          let '(w1, t1, fs) := k vs w in
          (finish r t1 w1, suspended r t1 ++ fs)
      | Broken e => (settle r (Rejected e) w, [])
      | NotReady => (w, [(r, t)])
      end
  | _ => (w, [])
  end.

Fixpoint pick_ready (w : World) (seen todo : Forks) : option (Forks * (Promise * Task) * Forks) :=
  match todo with
  | [] => None
  | (r, t) :: rest =>
      match task_readiness w t with
      | NotReady => pick_ready w (seen ++ [(r, t)]) rest
      | _ => Some (seen, (r, t), rest)
      end
  end.

(** Run ready tasks until none is left (at most [fuel] resumptions), or
    until [process.exit()] has ended the program. *)
Fixpoint drain (fuel : nat) (rt : Runtime) : Runtime :=
  match fuel with
  | O => rt
  | S fuel' =>
      if exited (world rt) then rt else
      match pick_ready (world rt) [] (pool rt) with
      | None => rt
      | Some (before, (r, t), after) =>
          let '(w1, fs) := resume r t (world rt) in
          drain fuel' {| world := w1; pool := before ++ after ++ fs |}
      end
  end.

(** A call made from the top of the event loop (a handler, or [main]). *)
Definition invoke (body : Async Value) (rt : Runtime) : Runtime :=
  let '(w1, _, fs) := call body (fun _ w => (w, Fin undefined, [])) (world rt) in
  {| world := w1; pool := pool rt ++ fs |}.

(** ** Strings *)

Definition dquote : string := String "034"%char EmptyString.

(** [`${n}`] for an integer. *)
Definition show_Z (n : Z) : string := NilZero.string_of_int (Z.to_int n).

Definition show_Value (v : Value) : string :=
  match v with
  | undefined => "undefined"
  | num n => show_Z n
  end.

Definition lower (c : ascii) : ascii :=
  let n := nat_of_ascii c in
  if (65 <=? n)%nat && (n <=? 90)%nat then ascii_of_nat (n + 32) else c.

(** Lower case for ASCII letters only: what the sample platform below uses
    for [toLowerCase]. *)
Fixpoint toLowerCase_ascii (s : string) : string :=
  match s with
  | EmptyString => EmptyString
  | String c r => String (lower c) (toLowerCase_ascii r)
  end.

(** [s.replace(/ /g, '-')]. *)
Fixpoint replace_spaces (s : string) : string :=
  match s with
  | EmptyString => EmptyString
  | String c r =>
      String (if Ascii.eqb c " "%char then "-"%char else c) (replace_spaces r)
  end.

(** [l.join(sep)]. *)
Fixpoint join (sep : string) (l : list string) : string :=
  match l with
  | [] => EmptyString
  | [x] => x
  | x :: r => x +:+ sep +:+ join sep r
  end.

(** What the program takes from its platform: [path.join],
    [JSON.stringify] and [Object.keys] on an environment object (the order
    in which the keys were written is not part of a finite map),
    [process.env], [chalk.yellow] and [String.prototype.toLowerCase], the
    lower-casing of the runtime on all of Unicode. *)
Record Platform : Type := {
  path_join : string -> string -> string;
  JSON_stringify : gmap string string -> string;
  Object_keys : gmap string string -> list string;
  process_env : gmap string string;
  chalk_yellow : string -> string;
  toLowerCase : string -> string
}.

(** ** Primitive effects *)

Definition logger (l : Level) (msg : string) : Sync unit :=
  modify (emit (ELogger l msg)).

Definition file_content (path : string) (w : World) : string :=
  default EmptyString (files w !! path).

(** [stream.write(data)] on an append stream, and the effect of
    [fs.appendFileSync] on the file. *)
Definition append_to (path data : string) (fs : gmap string string)
  : gmap string string :=
  <[path := default EmptyString (fs !! path) +:+ data]> fs.

(** The file system is modelled as total: every call succeeds. *)
Definition mkdirSync (path : string) : Sync unit :=
  modify (emit (EMkdir path)).

Definition appendFileSync (path data : string) : Sync unit :=
  modify (fun w => emit (EAppendFile path data) (with_files (append_to path data) w)).

Definition truncateSync (path : string) : Sync unit :=
  modify (fun w =>
    emit (ETruncate path) (with_files (fun fs => <[path := EmptyString]> fs) w)).

(** [fs.createWriteStream(path, { flags: 'a' })]: the file is created when
    absent and never shortened. *)
Definition createWriteStream (path : string) : Sync string :=
  modify (fun w =>
    emit (EWriteStream path) (with_files (append_to path EmptyString) w));;~
  sret path.

Definition stream_write (path data : string) (w : World) : World :=
  with_files (append_to path data) w.

Definition no_child : Child :=
  {| pid := 0; c_data := None; c_exit := None; c_code := None |}.

Definition child_at (h : Handle) (w : World) : Child :=
  default no_child (spawned w !! h).

(** [spawn(bin, args, { env })] of node-pty: the operating system starts the
    process and assigns its pid. *)
Definition spawn (bin : string) (args : list string) (envp : gmap string string)
  : Sync Handle :=
  fun w =>
    let h := length (spawned w) in
    (h, emit (ESpawn bin args envp h)
          (with_spawned
             (fun cs => cs ++ [{| pid := next_pid w; c_data := None;
                                  c_exit := None; c_code := None |}])
             (fun n => (n + 1)%Z) w)).

Definition set_c_data (path : string) (c : Child) : Child :=
  {| pid := pid c; c_data := Some path; c_exit := c_exit c; c_code := c_code c |}.

Definition set_c_exit (path : string) (p : Promise) (c : Child) : Child :=
  {| pid := pid c; c_data := c_data c; c_exit := Some (path, p); c_code := c_code c |}.

Definition set_c_code (n : Z) (c : Child) : Child :=
  {| pid := pid c; c_data := c_data c; c_exit := c_exit c; c_code := Some n |}.

Definition update_child (h : Handle) (f : Child -> Child) : Sync unit :=
  modify (with_spawned (alter f h) id).

(** [treeKill(pid, signal)] of tree-kill: the signal goes to the process and
    to all its descendants. *)
Definition treeKill (p : Z) (sig : string) : Sync unit :=
  modify (emit (ETreeKill p sig)).

(** [for (const x of l) { f(x) }] with a body that does not await. *)
Fixpoint for_each {A} (l : list A) (f : A -> Sync unit) : Sync unit :=
  match l with
  | [] => sret tt
  | x :: r => f x;;~ for_each r f
  end.

(** [l.map(f)] and [l.forEach(f)] where [f] calls [async] functions. *)
Fixpoint map_m {A B} (f : A -> Async B) (l : list A) : Async (list B) :=
  match l with
  | [] => ret []
  | x :: r => y <- f x;; ys <- map_m f r;; ret (y :: ys)
  end.

Fixpoint forEach {A} (l : list A) (f : A -> Async unit) : Async unit :=
  match l with
  | [] => ret tt
  | x :: r => f x;;; forEach r f
  end.

(** *** Tail objects *)

Definition new_Tail (path : string) (nLines : Z) : Sync nat :=
  fun w =>
    let t := length (tails w) in
    (t, emit (ETail path nLines t)
          (with_tails
             (fun ts => ts ++ [{| t_path := path; t_lines := nLines;
                                  t_handler := None; t_watching := true |}])
             w)).

(** [stream.on('line', handler)]. *)
Definition on_line (t : nat) (h : LineHandler) : Sync unit :=
  modify (with_tails (alter (fun r =>
    {| t_path := t_path r; t_lines := t_lines r; t_handler := Some h;
       t_watching := t_watching r |}) t)).

(** [stream.unwatch()]. *)
Definition unwatch (t : nat) : Sync unit :=
  modify (fun w => emit (EUnwatch t) (with_tails (alter (fun r =>
    {| t_path := t_path r; t_lines := t_lines r; t_handler := t_handler r;
       t_watching := false |}) t) w)).

(** ** MuxProcess (src/process.ts) *)

Definition blank_config : MuxProcessConfig :=
  {| cfg_name := EmptyString;
     cfg_run := {| exec := EmptyString; dir := None; env := None |};
     cfg_install := None; cfg_stop := None |}.

Definition blank_proc : Proc :=
  {| name := EmptyString; processConfig := blank_config; children := [];
     logPath := None; startPromise := None |}.

(** The constructor. *)
Definition new_MuxProcess (c : MuxProcessConfig) : Proc :=
  {| name := cfg_name c; processConfig := c; children := [];
     logPath := None; startPromise := None |}.

Definition set_children (f : list Handle -> list Handle) (P : Proc) : Proc :=
  {| name := name P; processConfig := processConfig P;
     children := f (children P); logPath := logPath P;
     startPromise := startPromise P |}.

Definition set_logPath (l : string) (P : Proc) : Proc :=
  {| name := name P; processConfig := processConfig P;
     children := children P; logPath := Some l;
     startPromise := startPromise P |}.

Definition set_startPromise (p : Promise) (P : Proc) : Proc :=
  {| name := name P; processConfig := processConfig P;
     children := children P; logPath := logPath P;
     startPromise := Some p |}.

(** The object [this] of a method call is the [i]-th process. *)
Definition this (i : nat) (w : World) : Proc :=
  default blank_proc (procs w !! i).

Definition update_this (i : nat) (f : Proc -> Proc) : Sync unit :=
  modify (with_procs (alter f i)).

Module MuxProcess.
Section Process.

Context (pf : Platform) (muxConfig : MuxConfig).

Definition getLogPath (i : nat) : Sync string :=
  P <~ gets (this i);;
  match logPath P with
  | Some l => sret l
  | None =>
      let logDir := path_join pf (rootDir muxConfig) (cfg_logPath muxConfig) in
      mkdirSync logDir;;~
      let l := path_join pf logDir
                 (replace_spaces (toLowerCase pf (name P)) +:+ ".log") in
      update_this i (set_logPath l);;~
      appendFileSync l EmptyString;;~
      truncateSync l;;~
      sret l
  end.

Definition getLogStream (i : nat) (lines : Z) : Sync nat :=
  path <~ getLogPath i;;
  new_Tail path lines.

(** [runCommand] contains no [await]: its whole body runs inside the call.
    It returns [promise], which the promise of the [async] function
    adopts; the model identifies the two. *)
Definition runCommand (i : nat) (command : option MuxCommand) : Sync Promise :=
  match command with
  | None =>
      logger LWarn "No command passed. Exiting with code 0";;~
      Promise_resolve (num 0)
  | Some c =>
      let dir := default "./" (dir c) in
      let env := default ∅ (env c) in
      let cwd := path_join pf (rootDir muxConfig) dir in
      promise <~ new_promise;;
      let bin := "sh" in
      let args := ["-c"; "cd " +:+ cwd +:+ " && " +:+ exec c] in
      n <~ gets (fun w => name (this i w));;
      logger LInfo (n +:+ ": Executing " +:+ dquote +:+ bin +:+ " "
                      +:+ join " " args +:+ dquote);;~
      logger LDebug (n +:+ ": Environtment variables: "
                       +:+ JSON_stringify pf env);;~
      child <~ spawn bin args (env ∪ process_env pf);;
      path <~ getLogPath i;;
      stream <~ createWriteStream path;;
      update_child child (set_c_data stream);;~
      update_child child (set_c_exit stream promise);;~
      update_this i (set_children (fun cs => cs ++ [child]));;~
      sret promise
  end.

(** The loop of [stop] over [this.children]. *)
Definition kill_children (cs : list Handle) : Sync unit :=
  for_each cs (fun child =>
    p <~ gets (fun w => pid (child_at child w));;
    if decide (p = 0%Z) then sret tt else treeKill p "SIGTERM").

Definition stop (i : nat) : Async Value :=
  n <- gets (fun w => name (this i w));;
  logger LInfo (n +:+ ": cleaning up");;;
  cfg <- gets (fun w => processConfig (this i w));;
  match cfg_stop cfg with
  | Some c => p <- runCommand i (Some c);; await p;;; ret tt
  | None => ret tt
  end;;;
  n <- gets (fun w => name (this i w));;
  logger LInfo (n +:+ ": shutting down");;;
  cs <- gets (fun w => children (this i w));;
  kill_children cs;;;
  sp <- gets (fun w => startPromise (this i w));;
  match sp with
  | Some p => await p;;; ret undefined
  | None => ret undefined
  end.

Definition install (i : nat) : Async Value :=
  n <- gets (fun w => name (this i w));;
  l <- getLogPath i;;
  logger LDebug (n +:+ ": truncating log file at " +:+ l);;;
  l <- getLogPath i;;
  truncateSync l;;;
  cfg <- gets (fun w => processConfig (this i w));;
  match cfg_install cfg with
  | None => ret (num 0)
  | Some c =>
      n <- gets (fun w => name (this i w));;
      logger LInfo (n +:+ ": installing");;;
      p <- runCommand i (Some c);;
      await p
  end.

Definition start (i : nat) : Async Value :=
  n <- gets (fun w => name (this i w));;
  logger LInfo (n +:+ ": starting");;;
  cfg <- gets (fun w => processConfig (this i w));;
  p <- runCommand i (Some (cfg_run cfg));;
  update_this i (set_startPromise p);;;
  sp <- gets (fun w => startPromise (this i w));;
  await_value sp;;;
  ret undefined.

(** *** The callbacks registered on a child *)

(** [child.onData]: the chunk goes to the write stream.  A child that has
    exited delivers nothing more. *)
Definition onData (h : Handle) (data : string) (w : World) : World :=
  let c := child_at h w in
  match c_code c, c_data c with
  | None, Some stream => stream_write stream data w
  | _, _ => w
  end.

(** [child.onExit]: the marker is written, the stream is closed and the
    promise of the command is resolved with the exit code.  The operating
    system reports the exit of a process once. *)
Definition onExit (h : Handle) (exitCode : Z) (w : World) : World :=
  let c := child_at h w in
  match c_code c with
  | Some _ => w
  | None =>
      let w1 := with_spawned (alter (set_c_code exitCode) h) id w in
      match c_exit c with
      | Some (stream, resolver) =>
          settle resolver (Resolved (num exitCode))
            (stream_write stream ("exited with code " +:+ show_Z exitCode) w1)
      | None => w1
      end
  end.

End Process.
End MuxProcess.

(** ** The navigation graph (ui.ts) *)

(** Nodes are objects that refer to each other; they live in a heap and are
    addressed by their position in it. *)
Abbreviation NodeId := nat (only parsing).

(** What a node field may hold: another node, or the arrow function
    [() => {}] that [processTail.onAnyKeypress] starts with. *)
Inductive Target : Type :=
  | ToNode (n : NodeId)
  | ToFunction (fname : string).

(** The closures written in [buildStateGraph], by the node that owns them;
    [i] is the process the closure captured. *)
Inductive ActionSupplier : Type :=
  | QuitAction
  | RebuildAllAction
  | TailAction (i : nat)
  | RestartAction (i : nat)
  | RebuildAction (i : nat).

(** [DefaultNode] with the optional fields of [MenuNode], [PromptNode] and
    [ActionNode]: the kind of a node is decided by the fields it has. *)
Record StateNode : Type := {
  n_name : string;
  getAction : option ActionSupplier;
  menu : option (list NodeId);
  onAnyKeypress : option Target;
  onActionComplete : option NodeId
}.

Abbreviation Heap := (list StateNode) (only parsing).

Definition alloc (n : StateNode) (g : Heap) : Heap * NodeId :=
  (g ++ [n], length g).

Definition add_option (x : NodeId) (n : StateNode) : StateNode :=
  {| n_name := n_name n; getAction := getAction n;
     menu := (fun m => x :: m) <$> menu n;
     onAnyKeypress := onAnyKeypress n;
     onActionComplete := onActionComplete n |}.

(** [node.menu.unshift(x)]. *)
Definition unshift (node x : NodeId) (g : Heap) : Heap :=
  alter (add_option x) node g.

(** [node.onAnyKeypress = x]. *)
Definition set_onAnyKeypress (node x : NodeId) (g : Heap) : Heap :=
  alter (fun n =>
    {| n_name := n_name n; getAction := getAction n; menu := menu n;
       onAnyKeypress := Some (ToNode x);
       onActionComplete := onActionComplete n |}) node g.

(** The body of the loop of [buildStateGraph] for the process at index [i]. *)
Definition build_process (startMenu : NodeId) (i : nat) (process : Proc) (g : Heap)
  : Heap :=
  let '(g, processTail) :=
    alloc {| n_name := name process +:+ ":tail";
             getAction := Some (TailAction i); menu := None;
             onAnyKeypress := Some (ToFunction "onAnyKeypress");
             onActionComplete := None |} g in
  let '(g, processRestart) :=
    alloc {| n_name := name process +:+ ":restart";
             getAction := Some (RestartAction i); menu := None;
             onAnyKeypress := None;
             onActionComplete := Some processTail |} g in
  let '(g, processRebuild) :=
    alloc {| n_name := name process +:+ ":rebuild";
             getAction := Some (RebuildAction i); menu := None;
             onAnyKeypress := None;
             onActionComplete := Some processTail |} g in
  let '(g, processMenu) :=
    alloc {| n_name := name process +:+ ":menu"; getAction := None;
             menu := Some [startMenu; processTail; processRestart; processRebuild];
             onAnyKeypress := None; onActionComplete := None |} g in
  let g := set_onAnyKeypress processTail processMenu g in
  unshift startMenu processTail g.

(** [for (let i = 0; i < processes.length; i++)], from index [i] on. *)
Fixpoint build_loop (startMenu : NodeId) (i : nat) (processes : list Proc) (g : Heap)
  : Heap :=
  match processes with
  | [] => g
  | process :: rest =>
      build_loop startMenu (S i) rest (build_process startMenu i process g)
  end.

(** Builds the state machine and returns the heap with the start node. *)
Definition buildStateGraph (processes : list Proc) : Heap * NodeId :=
  let '(g, quit) :=
    alloc {| n_name := "quit"; getAction := Some QuitAction; menu := None;
             onAnyKeypress := None; onActionComplete := None |} [] in
  let '(g, startMenu) :=
    alloc {| n_name := "main menu"; getAction := None; menu := Some [quit];
             onAnyKeypress := None; onActionComplete := None |} g in
  let '(g, rebuildAll) :=
    alloc {| n_name := "rebuild all processes";
             getAction := Some RebuildAllAction; menu := None;
             onAnyKeypress := None; onActionComplete := Some startMenu |} g in
  let g := unshift startMenu rebuildAll g in
  (build_loop startMenu 0 processes g, startMenu).

(** The object behind a reference: a node of the heap, or a function
    object, which has a [name] and none of the node fields. *)
Definition deref (g : Heap) (t : Target) : option StateNode :=
  match t with
  | ToNode n => g !! n
  | ToFunction f =>
      Some {| n_name := f; getAction := None; menu := None;
              onAnyKeypress := None; onActionComplete := None |}
  end.

(** [Object.values(menu)[index]]: [undefined] outside the array. *)
Definition menu_at (m : list NodeId) (index : Value) : option Target :=
  match index with
  | num z => if decide (0 <= z)%Z then ToNode <$> m !! Z.to_nat z else None
  | undefined => None
  end.

(** ** The hooks that main.ts passes to the [MuxUI] constructor *)

(** [onChoicePrompt]: the menu is drawn and the promise resolves with the
    selected index once the user has chosen. *)
Definition onChoicePrompt (prompt : string) (items : list string) : Sync Promise :=
  p <~ new_promise;;
  modify (emit (EChoicePrompt prompt items));;~
  modify (with_choice_waiters (fun ps => ps ++ [p]));;~
  sret p.

(** [waitForNextKey]: [terminal.once('key', resolve)]. *)
Definition waitForNextKey : Sync Promise :=
  p <~ new_promise;;
  modify (emit EWaitKey);;~
  modify (with_key_waiters (fun ps => ps ++ [p]));;~
  sret p.

(** ** MuxUI (ui.ts) *)

(** The variable [stream] of a [getAction] closure lives in a cell of its
    own for each call of [getAction]. *)
Definition new_cell : Sync nat :=
  fun w => (length (cells w), with_cells (fun cs => cs ++ [None]) w).

Definition set_cell (c t : nat) : Sync unit :=
  modify (with_cells (fun cs => <[c := Some t]> cs)).

(** [stream?.unwatch()]. *)
Definition unwatch_cell (c : nat) : Sync Value :=
  o <~ gets (fun w => cells w !! c);;
  match o with
  | Some (Some t) => unwatch t
  | _ => sret tt
  end;;~
  sret undefined.

(** What reading [currentState.name] throws when [currentState] is
    [undefined]. *)
Definition TypeError : string :=
  "TypeError: Cannot read properties of undefined (reading 'name')".

(** The object that [getAction] returns. *)
Record Action : Type := {
  act_start : Async Value;
  act_stop : Async Value
}.

(** [return new Promise(_ => {})]: never settled. *)
Definition never : Async Value :=
  p <- new_promise;;
  await p.

Module MuxUI.
Section UI.

Context (pf : Platform) (muxConfig : MuxConfig).

(** [this.processes], as indices into the process objects. *)
Definition processes_of (w : World) : list nat := seq 0 (length (procs w)).

Definition die : Async Value :=
  modify (with_ui_stopped true);;;
  startTime <- gets now;;
  logger LInfo "cleaning up...";;;
  ps <- gets processes_of;;
  rs <- map_m (fun i => call (MuxProcess.stop pf muxConfig i)) ps;;
  await_all rs;;;
  me <- gets self_pid;;
  logger LDebug ("Sending SIGINT to my PID: " +:+ show_Z me);;;
  modify (emit (EProcessKill me "SIGINT"));;;
  t <- gets now;;
  logger LDebug ("Shut down took " +:+ show_Z (t - startTime) +:+ "ms");;;
  ret undefined.

Definition initialize : Async Value :=
  startTime <- gets now;;
  ps <- gets processes_of;;
  rs <- map_m (fun i => call (
          n <- gets (fun w => name (this i w));;
          logger LInfo (n +:+ ": installing");;;
          stream <- MuxProcess.getLogStream pf muxConfig i 100;;
          on_line stream (ToProcessLog i);;;
          p <- call (MuxProcess.install pf muxConfig i);;
          await p;;;
          unwatch stream;;;
          ret undefined)) ps;;
  await_all rs;;;
  t <- gets now;;
  logger LDebug ("Start up took " +:+ show_Z (t - startTime) +:+ "ms");;;
  ps <- gets processes_of;;
  forEach ps (fun i =>
    n <- gets (fun w => name (this i w));;
    logger LInfo (n +:+ ": Starting");;;
    call (MuxProcess.start pf muxConfig i);;;
    ret tt);;;
  ret undefined.

Definition handleProcessLog (i : nat) (line : string) : Sync unit :=
  n <~ gets (fun w => name (this i w));;
  logger LLog (chalk_yellow pf n +:+ ": " +:+ line).

(** [node.getAction()]: the pair of closures [start] and [stop]. *)
Definition get_action (a : ActionSupplier) : Sync Action :=
  match a with
  | QuitAction =>
      sret {| act_start := p <- call die;; await p;
              act_stop := ret undefined |}
  | RebuildAllAction =>
      sret {| act_start :=
               logger LInfo "Stopping all processes...";;;
               ps <- gets processes_of;;
               rs <- map_m (fun i => call (MuxProcess.stop pf muxConfig i)) ps;;
               await_all rs;;;
               p <- call initialize;;
               await p;;;
               ret undefined;
             act_stop := ret undefined |}
  | TailAction i =>
      stream <~ new_cell;;
      sret {| act_start :=
               n <- gets (fun w => name (this i w));;
               logger LInfo ("Tailing " +:+ n +:+ "...");;;
               t <- MuxProcess.getLogStream pf muxConfig i 100;;
               set_cell stream t;;;
               on_line t ToLogger;;;
               never;
             act_stop := lift (unwatch_cell stream) |}
  | RestartAction i =>
      stream <~ new_cell;;
      sret {| act_start :=
               n <- gets (fun w => name (this i w));;
               logger LInfo ("Restarting " +:+ n +:+ "...");;;
               t <- MuxProcess.getLogStream pf muxConfig i 0;;
               set_cell stream t;;;
               on_line t ToLogger;;;
               p <- call (MuxProcess.stop pf muxConfig i);;
               await p;;;
               call (MuxProcess.start pf muxConfig i);;;
               ret undefined;
             act_stop := lift (unwatch_cell stream) |}
  | RebuildAction i =>
      stream <~ new_cell;;
      sret {| act_start :=
               n <- gets (fun w => name (this i w));;
               logger LInfo ("Rebuilding " +:+ n +:+ "...");;;
               t <- MuxProcess.getLogStream pf muxConfig i 0;;
               set_cell stream t;;;
               on_line t ToLogger;;;
               p <- call (MuxProcess.stop pf muxConfig i);;
               await p;;;
               p <- call (MuxProcess.install pf muxConfig i);;
               await p;;;
               call (MuxProcess.start pf muxConfig i);;;
               ret undefined;
             act_stop := lift (unwatch_cell stream) |}
  end.

(** The first lines of [handleNextState]: the action of the node, if it
    has one, is started and its [stop] is kept. *)
Definition enter (node : StateNode) : Async (Promise * Async Promise) :=
  match getAction node with
  | Some a =>
      action <- get_action a;;
      startPromise <- call (act_start action);;
      ret (startPromise, call (act_stop action))
  | None =>
      startPromise <- Promise_resolve undefined;;
      ret (startPromise, lift (Promise_resolve undefined))
  end.

(** [handleNextState] calls itself on the next node as its last statement
    and without awaiting; [fuel] bounds the number of nodes one session
    visits. *)
Fixpoint handleNextState (fuel : nat) (g : Heap) (currentState : option Target)
  : Async Value :=
  match fuel with
  | O => throw "out of fuel"
  | S fuel' =>
      stopped <- gets ui_stopped;;
      if (stopped : bool) then ret undefined else
      match currentState ≫= deref g with
      | None => throw TypeError
      | Some node =>
          logger LDebug ("Entering " +:+ dquote +:+ n_name node +:+ dquote);;;
          entered <- enter node;;
          let startPromise := fst entered in
          let stopFn := snd entered in
          match onActionComplete node, onAnyKeypress node, menu node with
          | Some next, _, _ =>
              logger LDebug ("Handling " +:+ dquote +:+ n_name node +:+ dquote
                               +:+ " as ActionNode. Waiting for completion...");;;
              await startPromise;;;
              s <- stopFn;;
              await s;;;
              logger LDebug "Action complete";;;
              call (handleNextState fuel' g (Some (ToNode next)));;;
              ret undefined
          | None, Some next, _ =>
              logger LDebug ("Handling " +:+ dquote +:+ n_name node +:+ dquote
                               +:+ " as PromptNode. Waiting for key press...");;;
              key <- waitForNextKey;;
              await key;;;
              s <- stopFn;;
              await s;;;
              call (handleNextState fuel' g (Some next));;;
              ret undefined
          | None, None, Some m =>
              logger LDebug ("Handling " +:+ dquote +:+ n_name node +:+ dquote
                               +:+ " as MenuNode. Waiting for selection...");;;
              let items := omap (fun x => n_name <$> g !! x) m in
              let prompt := n_name node in
              choice <- onChoicePrompt prompt items;;
              index <- await choice;;
              logger LDebug ("Selected index: " +:+ show_Value index);;;
              let nextState := menu_at m index in
              s <- stopFn;;
              await s;;;
              call (handleNextState fuel' g nextState);;;
              ret undefined
          | None, None, None =>
              logger LDebug ("Handling " +:+ dquote +:+ n_name node +:+ dquote
                               +:+ " as EndNode");;;
              ret undefined
          end
      end
  end.

Definition start (fuel : nat) (g : Heap) (initialState : NodeId) : Async Value :=
  p <- call initialize;;
  await p;;;
  call (handleNextState fuel g (Some (ToNode initialState)));;;
  never.

End UI.
End MuxUI.

(** ** main.ts *)

(** What reaches the program from outside. *)
Inductive Input : Type :=
  | ChildData (h : Handle) (data : string)
  | ChildExit (h : Handle) (exitCode : Z)
  | TailLine (t : nat) (line : string)
  | Key (key : string)
  | Choice (selectedIndex : Z)
  | Signal (sig : string)
  | Tick (ms : Z).

(** A handler body without [await], run from the top of the event loop. *)
Definition perform (m : Sync unit) (w : World) : World := (m w).2.

Definition resolve_all (ps : list Promise) (v : Value) (w : World) : World :=
  foldl (fun w' p => settle p (Resolved v) w') w ps.

Module Main.
Section Main.

Context (pf : Platform) (muxConfig : MuxConfig).

(** [let stopped = false] of [main] is [main_stopped]. *)
Definition cleanExit : Async Value :=
  stopped <- gets main_stopped;;
  if (stopped : bool) then ret undefined else
  modify (with_main_stopped true);;;
  modify (emit ETerminalReset);;;
  p <- call (MuxUI.die pf muxConfig);;
  await p;;;
  logger LDebug "Exiting my process...";;;
  modify (fun w => with_exited true (emit EProcessExit w));;;
  ret undefined.

(** The world in which [main] starts: one [MuxProcess] per configured
    process, nothing spawned, nothing written. *)
Definition initial_world (first_pid me : Z) : World :=
  {| procs := new_MuxProcess <$> processes muxConfig; files := ∅;
     promises := []; spawned := []; next_pid := first_pid; tails := [];
     cells := []; key_waiters := []; choice_waiters := [];
     ui_stopped := false; main_stopped := false; now := 0; self_pid := me;
     exited := false; trace := [] |}.

(** [main]: the processes and the UI are built and [ui.start()] is called
    without being awaited; then the event loop takes over.  [fuel] bounds
    the nodes the session visits and the resumptions of this first turn. *)
Definition main (fuel : nat) (first_pid me : Z) : Runtime :=
  let w := initial_world first_pid me in
  let '(g, initialState) := buildStateGraph (procs w) in
  drain fuel
    (invoke (MuxUI.start pf muxConfig fuel g initialState)
       {| world := w; pool := [] |}).

(** The listeners: those of the children and of the tails, the [key]
    listeners of the terminal (the one of [main] first, then the pending
    [once] listeners), the callback of the menu, and the two signal
    handlers. *)
Definition handle (i : Input) (rt : Runtime) : Runtime :=
  match i with
  | ChildData h data =>
      {| world := MuxProcess.onData h data (world rt); pool := pool rt |}
  | ChildExit h exitCode =>
      {| world := MuxProcess.onExit h exitCode (world rt); pool := pool rt |}
  | TailLine t line =>
      match tails (world rt) !! t with
      | Some {| t_handler := Some hd; t_watching := true |} =>
          let m := match hd with
                   | ToLogger => logger LLog line
                   | ToProcessLog i => MuxUI.handleProcessLog pf i line
                   end in
          {| world := perform m (world rt); pool := pool rt |}
      | _ => rt
      end
  | Key key =>
      let rt1 :=
        if decide (key = "CTRL_C")
        then invoke cleanExit
               {| world := perform (logger LInfo "Received CTRL+C - exiting...")
                             (world rt);
                  pool := pool rt |}
        else rt in
      let w := world rt1 in
      {| world := with_key_waiters (fun _ => [])
                    (resolve_all (key_waiters w) undefined w);
         pool := pool rt1 |}
  | Choice selectedIndex =>
      let w := world rt in
      match choice_waiters w with
      | p :: rest =>
          {| world := with_choice_waiters (fun _ => rest)
                        (settle p (Resolved (num selectedIndex)) w);
             pool := pool rt |}
      | [] => rt
      end
  | Signal sig =>
      if decide (sig = "SIGINT" ∨ sig = "SIGTERM")
      then invoke cleanExit
             {| world := emit (EConsole sig) (world rt); pool := pool rt |}
      else rt
  | Tick ms =>
      {| world := with_now (now (world rt) + ms)%Z (world rt); pool := pool rt |}
  end.

(** One turn of the event loop: the listener runs, then every task that
    has become ready. *)
Definition deliver (fuel : nat) (i : Input) (rt : Runtime) : Runtime :=
  if exited (world rt) then rt else drain fuel (handle i rt).

Definition deliver_all (fuel : nat) (inputs : list Input) (rt : Runtime) : Runtime :=
  foldl (fun rt' i => deliver fuel i rt') rt inputs.

End Main.
End Main.

(** ** The older MuxProcess

    The repository also holds an older version of process.ts, the one that
    imports ./mux.types and spawns with child_process.  It differs from the
    current class in [stop], [install] and [runCommand] and in the
    listeners of a child; [getLogPath] and [start] read the same. *)

Module Legacy.
Section Process.

Context (pf : Platform) (muxConfig : MuxConfig).

(** The child is started with [{ shell: true }] and no [env] option, so it
    inherits the environment; the variables of the command are written
    into the command line. *)
Definition runCommand (i : nat) (command : option MuxCommand) : Sync Promise :=
  match command with
  | None => Promise_resolve undefined
  | Some c =>
      let dir := default "./" (dir c) in
      let env := default ∅ (env c) in
      let cwd := path_join pf (rootDir muxConfig) dir in
      logFile <~ MuxProcess.getLogPath pf muxConfig i;;
      promise <~ new_promise;;
      let envVars :=
        join " " ((fun key => key +:+ "='" +:+ default "undefined" (env !! key)
                                +:+ "'") <$> Object_keys pf env) in
      let bin := "sh" in
      let args := ["-c"; "'cd " +:+ cwd +:+ " && " +:+ envVars +:+ " "
                           +:+ exec c +:+ "'"] in
      n <~ gets (fun w => name (this i w));;
      logger LInfo (n +:+ ": Executing " +:+ dquote +:+ bin +:+ " "
                      +:+ join " " args +:+ dquote);;~
      child <~ spawn bin args (process_env pf);;
      update_child child (set_c_data logFile);;~
      update_child child (set_c_exit logFile promise);;~
      update_this i (set_children (fun cs => cs ++ [child]));;~
      sret promise
  end.

Definition stop (i : nat) : Async Value :=
  sp <- gets (fun w => startPromise (this i w));;
  match sp with
  | None => throw "Error: Not started yet"
  | Some _ =>
      n <- gets (fun w => name (this i w));;
      logger LInfo (n +:+ ": cleaning up");;;
      cfg <- gets (fun w => processConfig (this i w));;
      p <- runCommand i (cfg_stop cfg);;
      await p;;;
      n <- gets (fun w => name (this i w));;
      logger LInfo (n +:+ ": shutting down");;;
      cs <- gets (fun w => children (this i w));;
      MuxProcess.kill_children cs;;;
      sp <- gets (fun w => startPromise (this i w));;
      await_value sp;;;
      l <- MuxProcess.getLogPath pf muxConfig i;;
      truncateSync l;;;
      ret undefined
  end.

Definition install (i : nat) : Async Value :=
  cfg <- gets (fun w => processConfig (this i w));;
  p <- runCommand i (cfg_install cfg);;
  await p;;;
  ret undefined.

Definition start (i : nat) : Async Value :=
  n <- gets (fun w => name (this i w));;
  logger LInfo (n +:+ ": starting");;;
  cfg <- gets (fun w => processConfig (this i w));;
  p <- runCommand i (Some (cfg_run cfg));;
  update_this i (set_startPromise p);;;
  sp <- gets (fun w => startPromise (this i w));;
  await_value sp;;;
  ret undefined.

(** [child.stdout.on('data')] and [child.stderr.on('data')]. *)
Definition onData (h : Handle) (data : string) (w : World) : World :=
  let c := child_at h w in
  match c_code c, c_data c with
  | None, Some logFile => perform (appendFileSync logFile data) w
  | _, _ => w
  end.

(** [child.on('close')]: the promise of the command resolves without a
    value. *)
Definition onClose (h : Handle) (code : Z) (w : World) : World :=
  let c := child_at h w in
  match c_code c with
  | Some _ => w
  | None =>
      let w1 := with_spawned (alter (set_c_code code) h) id w in
      match c_exit c with
      | Some (logFile, resolver) =>
          settle resolver (Resolved undefined)
            (perform (appendFileSync logFile
                        ("exited with code " +:+ show_Z code)) w1)
      | None => w1
      end
  end.

End Process.
End Legacy.

(** ** Descriptions used in the statements *)

(** The world [w] after the events [es], and nothing else, have happened. *)
Definition emits (es : list Event) (w : World) : World :=
  {| procs := procs w; files := files w; promises := promises w;
     spawned := spawned w; next_pid := next_pid w; tails := tails w;
     cells := cells w; key_waiters := key_waiters w;
     choice_waiters := choice_waiters w; ui_stopped := ui_stopped w;
     main_stopped := main_stopped w; now := now w; self_pid := self_pid w;
     exited := exited w; trace := trace w ++ es |}.

Section Descriptions.

Context (pf : Platform) (muxConfig : MuxConfig).

(** The path that [getLogPath] returns for a process object. *)
Definition log_file (P : Proc) : string :=
  match logPath P with
  | Some l => l
  | None =>
      path_join pf (path_join pf (rootDir muxConfig) (cfg_logPath muxConfig))
        (replace_spaces (toLowerCase pf (name P)) +:+ ".log")
  end.

(** What the first call of [getLogPath] does to the file system. *)
Definition touch_events (P : Proc) : list Event :=
  match logPath P with
  | Some _ => []
  | None =>
      [EMkdir (path_join pf (rootDir muxConfig) (cfg_logPath muxConfig));
       EAppendFile (log_file P) EmptyString;
       ETruncate (log_file P)]
  end.

(** The events of [runCommand] on a command [c], for the process object
    [P] and the new handle [h]. *)
Definition command_events (P : Proc) (c : MuxCommand) (h : Handle) : list Event :=
  let args := ["-c"; "cd " +:+ path_join pf (rootDir muxConfig) (default "./" (dir c))
                       +:+ " && " +:+ exec c] in
  [ELogger LInfo (name P +:+ ": Executing " +:+ dquote +:+ "sh" +:+ " "
                    +:+ join " " args +:+ dquote);
   ELogger LDebug (name P +:+ ": Environtment variables: "
                     +:+ JSON_stringify pf (default ∅ (env c)));
   ESpawn "sh" args (default ∅ (env c) ∪ process_env pf) h]
  ++ touch_events P ++ [EWriteStream (log_file P)].

(** The tree-kill signals of [stop] for the handles [cs]: one per handle
    that has a pid. *)
Definition kill_events (cs : list Handle) (w : World) : list Event :=
  (fun p => ETreeKill p "SIGTERM") <$>
    filter (fun p => p ≠ 0%Z) ((fun h => pid (child_at h w)) <$> cs).

(** The second half of [stop], entered in the world [w]: the line
    "shutting down", one tree-kill per tracked handle, then the wait for
    the run promise if there is one. *)
Definition signal_and_wait (i : nat) (w : World) : Out :=
  (emits ([ELogger LInfo (name (this i w) +:+ ": shutting down")]
            ++ kill_events (children (this i w)) w) w,
   match startPromise (this i w) with
   | Some p => Await [p] (fun _ w' => (w', Fin undefined, []))
   | None => Fin undefined
   end,
   []).

End Descriptions.

(** The prompt node that [buildStateGraph] makes for the process [p] at
    index [i]; [processMenu] is the menu it leads to. *)
Definition tail_node (i : nat) (p : Proc) (processMenu : NodeId) : StateNode :=
  {| n_name := name p +:+ ":tail"; getAction := Some (TailAction i);
     menu := None; onAnyKeypress := Some (ToNode processMenu);
     onActionComplete := None |}.

(** The other nodes of the process [p] at index [i]: the two action nodes,
    which lead back to the tail node, and the menu of the process. *)
Definition restart_node (i : nat) (p : Proc) (processTail : NodeId) : StateNode :=
  {| n_name := name p +:+ ":restart"; getAction := Some (RestartAction i);
     menu := None; onAnyKeypress := None;
     onActionComplete := Some processTail |}.

Definition rebuild_node (i : nat) (p : Proc) (processTail : NodeId) : StateNode :=
  {| n_name := name p +:+ ":rebuild"; getAction := Some (RebuildAction i);
     menu := None; onAnyKeypress := None;
     onActionComplete := Some processTail |}.

Definition menu_node (p : Proc) (startMenu processTail : NodeId) : StateNode :=
  {| n_name := name p +:+ ":menu"; getAction := None;
     menu := Some [startMenu; processTail; processTail + 1; processTail + 2];
     onAnyKeypress := None; onActionComplete := None |}.

(** A computation that does not suspend: it hands a value and a world to
    its continuation, whose outcome it returns with the tasks it has forked
    in front. *)
Definition passes {A} (m : Async A) : Prop :=
  forall w, exists a w' fs,
    forall k, m k w = ((k a w').1.1, (k a w').1.2, fs ++ (k a w').2).

(** The number of times [stop] was entered for the process named [n]: each
  call logs its first line once. *)
Definition is_stop_entry (n : string) (e : Event) : bool :=
  match e with
  | ELogger LInfo msg => bool_decide (msg = n +:+ ": cleaning up")
  | _ => false
  end.

Definition stop_calls (n : string) (tr : list Event) : nat :=
  length (filter (fun e => is_stop_entry n e) tr).

Definition tree_kills (tr : list Event) : list Z :=
  omap (fun e => match e with ETreeKill p _ => Some p | _ => None end) tr.

(** The command lines that were spawned, in order. *)
Definition command_lines (tr : list Event) : list string :=
  omap (fun e => match e with ESpawn _ args _ _ => last args | _ => None end) tr.

(** ** Properties of every execution *)

Section Invariant.

Context (R : World -> World -> Prop).

(** Whenever the task [t] is resumed, in whatever world, the step it takes
    is in [R], and the same holds for what it becomes and for every task it
    forks. *)
Fixpoint always (t : Task) : Prop :=
  match t with
  | Await _ k =>
      forall vs w,
        match k vs w with
        | (w', t', fs) =>
            R w w' /\ always t' /\
            (fix all (l : list (nat * Task)) : Prop :=
               match l with
               | [] => True
               | (_, t'') :: l' => always t'' /\ all l'
               end) fs
        end
  | _ => True
  end.

Definition all_always (fs : list (nat * Task)) : Prop :=
  Forall (fun f => always f.2) fs.

(** An outcome reached from the world [w]. *)
Definition ok (w : World) (o : World * Task * list (nat * Task)) : Prop :=
  R w o.1.1 /\ always o.1.2 /\ all_always o.2.

(** An [async] body that stays in [R] up to its first suspension and ever
    after, and hands values in [Q] to what follows it. *)
Definition safe {A} (Q : A -> Prop) (m : Async A) : Prop :=
  forall k, (forall a w, Q a -> ok w (k a w)) -> forall w, ok w (m k w).

Definition ssafe {A} (Q : A -> Prop) (m : Sync A) : Prop :=
  forall w, R w (m w).2 /\ Q (m w).1.

End Invariant.

Definition any {A} : A -> Prop := fun _ => True.

(** The number of times [terminal.reset()] was called.  [cleanExit] calls
    it once it is past its flag, right before it calls [die]. *)
Definition is_reset (e : Event) : bool :=
  match e with ETerminalReset => true | _ => false end.

Definition resets (tr : list Event) : nat :=
  length (filter (fun e => is_reset e) tr).

(** The flag of [cleanExit] does its work: no reset while it is clear, at
    most one in all. *)
Definition guarded (w : World) : Prop :=
  resets (trace w) <= 1 /\ (main_stopped w = false -> resets (trace w) = 0).

(** The handles that each process tracks. *)
Definition handles (w : World) : list (list Handle) := children <$> procs w.

(** What every step of the supervisor keeps: the handles of a process are
    only added to, the flags of [cleanExit] and of the UI are never
    cleared, and the flag of [cleanExit] guards the reset. *)
Definition steady (w w' : World) : Prop :=
  Forall2 prefix (handles w) (handles w')
  /\ (main_stopped w = true -> main_stopped w' = true)
  /\ (ui_stopped w = true -> ui_stopped w' = true)
  /\ (guarded w -> guarded w').

(** What [steady] looks at. *)
Definition obs (w : World) : list (list Handle) * bool * bool * nat :=
  (handles w, main_stopped w, ui_stopped w, resets (trace w)).

Definition safe_action (a : Action) : Prop :=
  safe steady any (act_start a) /\ safe steady any (act_stop a).

Definition pool_ok (rt : Runtime) : Prop := all_always steady (pool rt).

(** ** The nodes of the state graph

    The three nodes that [buildStateGraph] makes once, and what it means for
    a node to refer to nodes of its graph only. *)

Definition quit_node : StateNode :=
  {| n_name := "quit"; getAction := Some QuitAction; menu := None;
     onAnyKeypress := None; onActionComplete := None |}.

Definition rebuild_all_node (startMenu : nat) : StateNode :=
  {| n_name := "rebuild all processes"; getAction := Some RebuildAllAction;
     menu := None; onAnyKeypress := None; onActionComplete := Some startMenu |}.

Definition main_menu_node (n : nat) : StateNode :=
  {| n_name := "main menu"; getAction := None;
     menu := Some (((fun j => 3 + 4 * j) <$> reverse (seq 0 n)) ++ [2; 0]);
     onAnyKeypress := None; onActionComplete := None |}.

(** A node all of whose references lead to nodes of the graph. *)
Definition closed_node (g : list StateNode) (node : StateNode) : Prop :=
  (forall m, menu node = Some m -> Forall (fun x => x < length g) m)
  /\ (forall t, onAnyKeypress node = Some t -> exists x, t = ToNode x /\ x < length g)
  /\ (forall x, onActionComplete node = Some x -> x < length g).

(** ** State invariants of every execution

    A property [Inv] of worlds is kept by a task when every resumption of
    the task, in a world that has the property, leads to a world that has
    it, and the same holds for what the task becomes and for every task it
    forks. *)

Section Keeping.

Context (Inv : World -> Prop).

Fixpoint keeps (t : Task) : Prop :=
  match t with
  | Await _ k =>
      forall vs w, Inv w ->
        match k vs w with
        | (w', t', fs) =>
            Inv w' /\ keeps t' /\
            (fix all (l : list (nat * Task)) : Prop :=
               match l with
               | [] => True
               | (_, t'') :: l' => keeps t'' /\ all l'
               end) fs
        end
  | _ => True
  end.

Definition all_keep (fs : list (nat * Task)) : Prop :=
  Forall (fun f => keeps f.2) fs.

Definition kept (o : World * Task * list (nat * Task)) : Prop :=
  Inv o.1.1 /\ keeps o.1.2 /\ all_keep o.2.

Definition sound {A} (Q : A -> Prop) (m : Async A) : Prop :=
  forall k, (forall a w, Inv w -> Q a -> kept (k a w)) ->
  forall w, Inv w -> kept (m k w).

Definition ssound {A} (Q : A -> Prop) (m : Sync A) : Prop :=
  forall w, Inv w -> Inv (m w).2 /\ Q (m w).1.

End Keeping.

(** ** The orderly worlds

    What the supervisor keeps true of its world: the process objects are
    those of the configuration, a cached log path is the path derived from
    the name, every child is tracked by one process and writes to the log of
    that process, only log files are written, only children are signalled,
    and [runCommand] is never called without a command. *)

Section OrderlyDef.

Context (pf : Platform) (muxConfig : MuxConfig).

Definition log_path_of (n : string) : string :=
  path_join pf (path_join pf (rootDir muxConfig) (cfg_logPath muxConfig))
    (replace_spaces (toLowerCase pf n) +:+ ".log").

Definition log_paths : list string :=
  (fun c => log_path_of (cfg_name c)) <$> processes muxConfig.

Definition is_warning (e : Event) : bool :=
  match e with
  | ELogger LWarn _ => true
  | _ => false
  end.

Definition writes_to (P : Proc) (c : Child) : Prop :=
  c_data c = Some (log_path_of (name P))
  /\ exists p, c_exit c = Some (log_path_of (name P), p).

Record orderly (w : World) : Prop := {
  o_config : processConfig <$> procs w = processes muxConfig;
  o_names : Forall (fun P => name P = cfg_name (processConfig P)) (procs w);
  o_cache : Forall (fun P => forall l, logPath P = Some l -> l = log_path_of (name P))
              (procs w);
  o_tracked : concat (children <$> procs w) ≡ₚ seq 0 (length (spawned w));
  o_streams : Forall (fun P => Forall (fun h => exists c, spawned w !! h = Some c
                                                        /\ writes_to P c)
                                 (children P)) (procs w);
  o_files : forall path, is_Some (files w !! path) -> path ∈ log_paths;
  o_kills : Forall (fun p => p ∈ pid <$> spawned w) (tree_kills (trace w));
  o_quiet : filter (fun e => is_warning e) (trace w) = []
}.

(** An action that refers to a configured process, and a graph that holds
    such actions only. *)
Definition valid_action (a : ActionSupplier) : Prop :=
  match a with
  | TailAction i | RestartAction i | RebuildAction i =>
      i < length (processes muxConfig)
  | _ => True
  end.

Definition valid_graph (g : list StateNode) : Prop :=
  Forall (fun node => forall a, getAction node = Some a -> valid_action a) g.

Definition sound_action (a : Action) : Prop :=
  sound orderly any (act_start a) /\ sound orderly any (act_stop a).

Definition orderly_rt (rt : Runtime) : Prop :=
  orderly (world rt) /\ all_keep orderly (pool rt).

End OrderlyDef.

(** ** Commands and batches *)

(** The calls of [spawn]: the binary, the arguments and the environment. *)
Definition spawn_calls (tr : list Event)
  : list (string * list string * gmap string string) :=
  omap (fun e => match e with ESpawn b a e _ => Some (b, a, e) | _ => None end) tr.

(** The run promises of the processes, the signals the supervisor has sent
    to itself, and what a step leaves alone when it starts no process, does
    not touch the flag of the UI and does not signal the supervisor. *)
Definition run_promises (w : World) : list (option Promise) :=
  startPromise <$> procs w.

Definition is_self_signal (e : Event) : bool :=
  match e with EProcessKill _ _ => true | _ => false end.

Definition self_signals (tr : list Event) : list Event :=
  filter (fun e => is_self_signal e) tr.

Definition look (w : World) : list (option Promise) * bool * list Event :=
  (run_promises w, ui_stopped w, self_signals (trace w)).

Definition calm (w w' : World) : Prop := look w' = look w.

(** The world in which the [start] of a restart or rebuild action calls
    [stop]: the line is logged, a tail on the log of the process is opened
    with no earlier lines and kept in the variable [stream] of the closure,
    and the logger is its line handler. *)
Definition before_stop (pf : Platform) (muxConfig : MuxConfig) (i : nat)
    (msg : string) (c : nat) (w : World) : World :=
  let w1 := emit (ELogger LInfo msg) w in
  let t := MuxProcess.getLogStream pf muxConfig i 0 w1 in
  (on_line t.1 ToLogger (set_cell c t.1 t.2).2).2.

(** ** Sample configurations *)

Module Sample.

(** A platform for running the model: paths are joined with a slash,
    there are no environment variables, and colours are left out. *)
Definition platform : Platform :=
  {| path_join := fun a b => a +:+ "/" +:+ b;
     JSON_stringify := fun _ => "{}";
     Object_keys := fun m => (map_to_list m).*1;
     process_env := ∅;
     chalk_yellow := fun s => s;
     toLowerCase := toLowerCase_ascii |}.

Definition command (e : string) : MuxCommand :=
  {| exec := e; dir := None; env := None |}.

(** The process of mux.config.ts. *)
Definition sleeper : MuxProcessConfig :=
  {| cfg_name := "long sleeper"; cfg_run := command "sleep 1000";
     cfg_install := None; cfg_stop := None |}.

(** A process with an install and a stop command. *)
Definition service : MuxProcessConfig :=
  {| cfg_name := "service"; cfg_run := command "npm start";
     cfg_install := Some (command "npm ci");
     cfg_stop := Some (command "npm run down") |}.

(** A process whose run command fails at once. *)
Definition failing : MuxProcessConfig :=
  {| cfg_name := "C"; cfg_run := command "exit 3";
     cfg_install := None; cfg_stop := None |}.

(** A process that has a stop command and nothing to install. *)
Definition stoppable : MuxProcessConfig :=
  {| cfg_name := "db"; cfg_run := command "docker compose up";
     cfg_install := None; cfg_stop := Some (command "docker compose down") |}.

Definition config (ps : list MuxProcessConfig) : MuxConfig :=
  {| rootDir := "."; cfg_logPath := "logs"; processes := ps |}.

(** The world before [main] has done anything; the first child gets pid
    100, the supervisor has pid 1. *)
Definition boot (ps : list MuxProcessConfig) : Runtime :=
  {| world := Main.initial_world (config ps) 100 1; pool := [] |}.

End Sample.

(** * Facts *)

(** ** Lists, strings and worlds *)

Lemma alter_as_insert {A} (f : A -> A) (l : list A) i x :
  l !! i = Some x -> alter f i l = <[i := f x]> l.
Proof.
  intros H. apply list_eq. intros j. destruct (decide (i = j)) as [<-|Hne].
  - rewrite list_lookup_alter_eq, H, list_lookup_insert_eq; [done|].
    by eapply lookup_lt_Some.
  - by rewrite list_lookup_alter_ne, list_lookup_insert_ne.
Qed.

Lemma alter_last {A} (f : A -> A) (l : list A) x :
  alter f (length l) (l ++ [x]) = l ++ [f x].
Proof. rewrite alter_app_r_alt by lia. by rewrite Nat.sub_diag. Qed.

Lemma lookup_insert_this (ps : list Proc) i P P' :
  ps !! i = Some P -> <[i := P']> ps !! i = Some P'.
Proof. intros H. apply list_lookup_insert_eq. by eapply lookup_lt_Some. Qed.

Lemma append_empty s : s +:+ EmptyString = s.
Proof.
  induction s as [|a s IH]; [reflexivity|].
  change (String a (s +:+ EmptyString) = String a s). by rewrite IH.
Qed.

Lemma emit_emits e es w : emit e (emits es w) = emits (es ++ [e]) w.
Proof. unfold emit, emits. cbn. by rewrite app_assoc. Qed.

Lemma emits_nil w : emits [] w = w.
Proof. destruct w. unfold emits. cbn. by rewrite app_nil_r. Qed.

Lemma emits_emits es es' w : emits es' (emits es w) = emits (es ++ es') w.
Proof. unfold emits. cbn. by rewrite app_assoc. Qed.

Lemma emit_as_emits e w : emit e w = emits [e] w.
Proof. reflexivity. Qed.

(** Worlds are taken apart so that every projection computes. *)
Ltac destruct_world w :=
  let ps := fresh "ps" in let fs := fresh "fs" in let prs := fresh "prs" in
  let sp := fresh "sp" in let np := fresh "np" in let tl := fresh "tl" in
  let cl := fresh "cl" in let kw := fresh "kw" in let cw := fresh "cw" in
  let us := fresh "us" in let ms := fresh "ms" in let nw := fresh "nw" in
  let sf := fresh "sf" in let ex := fresh "ex" in let tr := fresh "tr" in
  destruct w as [ps fs prs sp np tl cl kw cw us ms nw sf ex tr].

Ltac wsimpl :=
  cbv beta iota zeta delta
      [this child_at file_content promise_state append_to stream_write
       sbind sret gets modify logger mkdirSync appendFileSync truncateSync
       createWriteStream spawn update_child update_this treeKill new_promise
       Promise_resolve new_Tail on_line unwatch
       fst snd procs files promises spawned next_pid tails cells key_waiters
       choice_waiters ui_stopped main_stopped now self_pid exited trace
       emit with_procs with_files with_promises with_spawned with_tails
       with_cells with_key_waiters with_choice_waiters with_ui_stopped
       with_main_stopped with_now with_exited
       name processConfig children logPath startPromise
       set_children set_logPath set_startPromise
       pid c_data c_exit c_code set_c_data set_c_exit set_c_code
       log_file touch_events command_events emits
       default from_option id fmap option_fmap option_map] in *.

(** Projections of updated worlds, and nothing else. *)
Ltac wnorm :=
  cbn [fst snd procs files promises spawned next_pid tails cells key_waiters
       choice_waiters ui_stopped main_stopped now self_pid exited trace
       emit emits with_procs with_files with_promises with_spawned with_tails
       with_cells with_key_waiters with_choice_waiters with_ui_stopped
       with_main_stopped with_now with_exited].

Ltac asimpl :=
  cbv beta iota zeta delta
      [run bind ret lift fin throw await await_value await_all] in *;
  wsimpl.

(** ** The event loop *)

Lemma pick_ready_none w todo : forall seen,
  Forall (fun f => task_readiness w f.2 = NotReady) todo ->
  pick_ready w seen todo = None.
Proof.
  induction todo as [|[r t] todo IH]; intros seen H; [done|].
  apply Forall_cons in H as [H1 H2]. cbn [pick_ready]. cbn [snd] in H1.
  rewrite H1. by apply IH.
Qed.

(** With every task waiting for a promise that has not settled, the event
    loop has nothing to run. *)
Lemma drain_idle fuel w fs :
  Forall (fun f => task_readiness w f.2 = NotReady) fs ->
  drain fuel {| world := w; pool := fs |} = {| world := w; pool := fs |}.
Proof.
  intros H. destruct fuel; [done|]. cbn [drain world pool].
  destruct (exited w); [done|]. by rewrite pick_ready_none.
Qed.

Lemma readiness_pending w p :
  promises w !! p = Some Pending -> readiness w [p] = NotReady.
Proof. intros H. cbn [readiness]. unfold promise_state. by rewrite H. Qed.

(** ** MuxProcess *)

Section ProcessFacts.

Context (pf : Platform) (muxConfig : MuxConfig).

Local Abbreviation getLogPath := (MuxProcess.getLogPath pf muxConfig).
Local Abbreviation runCommand := (MuxProcess.runCommand pf muxConfig).
Local Abbreviation stop := (MuxProcess.stop pf muxConfig).
Local Abbreviation install := (MuxProcess.install pf muxConfig).
Local Abbreviation start := (MuxProcess.start pf muxConfig).
Local Abbreviation log_file := (log_file pf muxConfig).
Local Abbreviation touch_events := (touch_events pf muxConfig).
Local Abbreviation command_events := (command_events pf muxConfig).

Lemma this_in i w P : procs w !! i = Some P -> this i w = P.
Proof. unfold this. by intros ->. Qed.

(** [getLogPath] computes the path once and caches it in the object. *)
Lemma getLogPath_eq i w P :
  procs w !! i = Some P ->
  let l := log_file P in
  getLogPath i w =
    (l, {| procs := <[i := set_logPath l P]> (procs w);
           files := match logPath P with
                    | Some _ => files w
                    | None => <[l := EmptyString]> (files w)
                    end;
           promises := promises w; spawned := spawned w;
           next_pid := next_pid w; tails := tails w; cells := cells w;
           key_waiters := key_waiters w; choice_waiters := choice_waiters w;
           ui_stopped := ui_stopped w; main_stopped := main_stopped w;
           now := now w; self_pid := self_pid w; exited := exited w;
           trace := trace w ++ touch_events P |}).
Proof.
  intros H l. subst l. unfold MuxProcess.getLogPath.
  destruct_world w. wsimpl. rewrite H. wsimpl.
  destruct P as [n pc cs [l|] sp']; wsimpl.
  - by rewrite (list_insert_id _ _ _ H), app_nil_r.
  - by rewrite (alter_as_insert _ _ _ _ H), insert_insert_eq, <- !app_assoc.
Qed.

(** [runCommand] on a command: one promise, one child with its two
    listeners, one handle pushed, and the log file opened for appending. *)
Lemma runCommand_eq i c w P :
  procs w !! i = Some P ->
  let p := length (promises w) in
  let h := length (spawned w) in
  let l := log_file P in
  runCommand i (Some c) w =
    (p, {| procs := <[i := set_children (fun cs => cs ++ [h]) (set_logPath l P)]>
                      (procs w);
           files := <[l := match logPath P with
                           | Some _ => file_content l w
                           | None => EmptyString
                           end]> (files w);
           promises := promises w ++ [Pending];
           spawned := spawned w ++ [{| pid := next_pid w; c_data := Some l;
                                       c_exit := Some (l, p); c_code := None |}];
           next_pid := (next_pid w + 1)%Z;
           tails := tails w; cells := cells w; key_waiters := key_waiters w;
           choice_waiters := choice_waiters w; ui_stopped := ui_stopped w;
           main_stopped := main_stopped w; now := now w;
           self_pid := self_pid w; exited := exited w;
           trace := trace w ++ command_events P c h |}).
Proof.
  intros H p h l. subst p h l. unfold MuxProcess.runCommand.
  destruct_world w. wsimpl. rewrite H. wsimpl.
  rewrite (getLogPath_eq i _ P) by exact H.
  destruct P as [n pc cs lp sp']. wsimpl. rewrite !alter_last. wsimpl.
  rewrite (alter_as_insert _ _ _ _ (lookup_insert_this _ _ _ _ H)),
    list_insert_insert_eq, <- !app_assoc.
  destruct lp as [l|].
  - by rewrite append_empty.
  - by rewrite lookup_insert_eq, insert_insert_eq.
Qed.

(** The loop of [stop] emits one tree-kill per handle with a pid and
    touches nothing else. *)
Lemma kill_children_eq cs w :
  MuxProcess.kill_children cs w = (tt, emits (kill_events cs w) w).
Proof.
  unfold MuxProcess.kill_children, kill_events.
  assert (G : forall es,
    for_each cs (fun child =>
        sbind (gets (fun w0 => pid (child_at child w0)))
          (fun p => if decide (p = 0%Z) then sret tt else treeKill p "SIGTERM"))
      (emits es w)
    = (tt, emits (es ++ ((fun p => ETreeKill p "SIGTERM") <$>
             filter (fun p => p ≠ 0%Z) ((fun h => pid (child_at h w)) <$> cs))) w)).
  { induction cs as [|h cs IH]; intros es.
    - cbn. by rewrite app_nil_r.
    - cbn [for_each]. unfold sbind at 1. unfold sbind at 1, gets at 1.
      change (child_at h (emits es w)) with (child_at h w).
      rewrite fmap_cons, filter_cons.
      destruct (decide (pid (child_at h w) = 0%Z)) as [E|E].
      + rewrite decide_False by (intros ?; contradiction).
        unfold sret at 1. apply IH.
      + rewrite decide_True by done. unfold treeKill, modify.
        rewrite emit_emits, IH, fmap_cons, <- app_assoc. reflexivity. }
  specialize (G []). rewrite emits_nil in G. exact G.
Qed.

Lemma stop_tail_eq i (w : World) :
  (n <- gets (fun w => name (this i w));;
   logger LInfo (n +:+ ": shutting down");;;
   cs <- gets (fun w => children (this i w));;
   MuxProcess.kill_children cs;;;
   sp <- gets (fun w => startPromise (this i w));;
   match sp with
   | Some p => await p;;; ret undefined
   | None => ret undefined
   end) fin w = signal_and_wait i w.
Proof.
  unfold signal_and_wait.
  cbv beta iota zeta delta [bind lift ret gets modify logger].
  rewrite emit_as_emits.
  change (this i (emits ?es w)) with (this i w).
  rewrite kill_children_eq, emits_emits.
  change (this i (emits ?es w)) with (this i w).
  change (kill_events (children (this i w)) (emits ?es w))
    with (kill_events (children (this i w)) w).
  destruct (startPromise (this i w)); reflexivity.
Qed.

(** The two halves of [stop]: the stop command, if configured, is spawned
    and awaited; what follows runs in the world of the resumption. *)
Lemma stop_phases i w :
  let P := this i w in
  let w0 := emit (ELogger LInfo (name P +:+ ": cleaning up")) w in
  match cfg_stop (processConfig P) with
  | Some c =>
      let r := runCommand i (Some c) w0 in
      exists k,
        run (stop i) w = (r.2, Await [r.1] k, []) /\
        forall vs w2, k vs w2 = signal_and_wait i w2
  | None => run (stop i) w = signal_and_wait i w0
  end.
Proof.
  intros P w0. subst P w0. unfold MuxProcess.stop, run.
  cbv beta iota zeta delta [bind lift ret gets modify logger await].
  change (this i (emit ?e w)) with (this i w).
  destruct (cfg_stop (processConfig (this i w))) as [c|].
  - cbv beta iota zeta.
    destruct (runCommand i (Some c) _) as [p w1] eqn:E.
    cbn [fst snd]. eexists. split; [reflexivity|].
    intros vs w2. apply (stop_tail_eq i w2).
  - apply (stop_tail_eq i _).
Qed.


(** *** stop *)

(** C2: [stop] first logs and, when a stop command is configured, spawns it
    and suspends on its promise; when resumed (or at once, without a stop
    command) it logs, sends tree-kill with SIGTERM to every tracked handle
    that has a pid, in the order of [children], and then suspends on the run
    promise; it returns only when resumed from that, and the event loop does
    not resume it before the run promise has settled. *)
Theorem stop_order i w :
  let P := this i w in
  let w0 := emit (ELogger LInfo (name P +:+ ": cleaning up")) w in
  let signal (w2 : World) : Out :=
    (emits ([ELogger LInfo (name (this i w2) +:+ ": shutting down")]
              ++ kill_events (children (this i w2)) w2) w2,
     match startPromise (this i w2) with
     | Some p => Await [p] (fun _ w' => (w', Fin undefined, []))
     | None => Fin undefined
     end,
     []) in
  match cfg_stop (processConfig P) with
  | Some c =>
      let r := runCommand i (Some c) w0 in
      exists k,
        run (stop i) w = (r.2, Await [r.1] k, []) /\
        forall vs w2, k vs w2 = signal w2
  | None => run (stop i) w = signal w0
  end
  /\ forall w2 p fuel r0,
       startPromise (this i w2) = Some p ->
       promises w2 !! p = Some Pending ->
       drain fuel {| world := (signal w2).1.1; pool := [(r0, (signal w2).1.2)] |}
       = {| world := (signal w2).1.1; pool := [(r0, (signal w2).1.2)] |}.
Proof.
  intros P w0 signal. split; [exact (stop_phases i w)|].
  intros w2 p fuel r0 Hs Hp. apply drain_idle. repeat constructor.
  subst signal. cbn [fst snd]. rewrite Hs. cbn [task_readiness].
  by apply readiness_pending.
Qed.

(** With every tracked handle holding a pid, the signals are one tree-kill
    per handle. *)
Lemma kill_events_all cs w :
  Forall (fun h => pid (child_at h w) ≠ 0%Z) cs ->
  kill_events cs w = (fun h => ETreeKill (pid (child_at h w)) "SIGTERM") <$> cs.
Proof.
  unfold kill_events. induction 1 as [|h cs Hh _ IH]; [reflexivity|].
  rewrite !fmap_cons, filter_cons, decide_True by done.
  rewrite fmap_cons. by f_equal.
Qed.

(** [runCommand] pushes the handle of the child it has spawned. *)
Lemma runCommand_pushes i c w P :
  procs w !! i = Some P ->
  children (this i (runCommand i (Some c) w).2) = children P ++ [length (spawned w)].
Proof.
  intros H. rewrite (runCommand_eq _ _ _ _ H). cbn [snd]. unfold this.
  cbn [procs]. by rewrite (lookup_insert_this _ _ _ _ H).
Qed.

(** C4, as amended: on a process that was never started, [stop] does not
    throw.  Without a stop command it returns at once; with one it spawns
    the command, suspends on its promise and returns when it is resumed.  In
    both cases it sends tree-kill to every handle with a pid that the
    process tracks at that moment: the handles of earlier install commands
    and, with a stop command, the handle of that command, which [runCommand]
    has pushed.  So it signals nothing only without a stop command and with
    no handle tracked. *)
Theorem stop_never_started i w :
  startPromise (this i w) = None ->
  let P := this i w in
  let w0 := emit (ELogger LInfo (name P +:+ ": cleaning up")) w in
  let signal (w2 : World) : Out :=
    (emits ([ELogger LInfo (name (this i w2) +:+ ": shutting down")]
              ++ kill_events (children (this i w2)) w2) w2,
     Fin undefined, []) in
  match cfg_stop (processConfig P) with
  | None =>
      run (stop i) w = signal w0
      /\ (children P = [] -> kill_events (children (this i w0)) w0 = [])
  | Some c =>
      let r := runCommand i (Some c) w0 in
      exists k,
        run (stop i) w = (r.2, Await [r.1] k, [])
        /\ (procs w !! i = Some P ->
            children (this i r.2) = children P ++ [length (spawned w)])
        /\ forall vs w2,
             startPromise (this i w2) = None -> k vs w2 = signal w2
  end.
Proof.
  intros Hs P w0 signal. subst P w0 signal.
  pose proof (stop_phases i w) as G. cbv zeta in G.
  destruct (cfg_stop (processConfig (this i w))) as [c|].
  - destruct G as (k & E & K). exists k. split; [exact E|]. split.
    + intros H.
      exact (runCommand_pushes i c
               (emit (ELogger LInfo (name (this i w) +:+ ": cleaning up")) w)
               (this i w) H).
    + intros vs w2 Hs2. rewrite K. unfold signal_and_wait. by rewrite Hs2.
  - split.
    + rewrite G. unfold signal_and_wait.
      change (this i (emit ?e w)) with (this i w). by rewrite Hs.
    + change (this i (emit ?e w)) with (this i w). by intros ->.
Qed.

(** The exit of a child does not touch the process objects. *)
Lemma onExit_procs h N w : procs (MuxProcess.onExit h N w) = procs w.
Proof.
  unfold MuxProcess.onExit. destruct (c_code (child_at h w)); [done|].
  destruct (c_exit (child_at h w)) as [[s r]|]; [|done].
  unfold settle. by destruct (promise_state _ _) as [[]|].
Qed.

(** C6, as amended: [stop] does not truncate.  Once the log path is cached
    (after the first [install] or [start]), the first half of [stop] leaves
    the content of every file as it is, and its continuations change nothing
    but the trace.  The log is emptied by [install]. *)
Theorem stop_keeps_log i w P l :
  procs w !! i = Some P ->
  logPath P = Some l ->
  (forall path, file_content path (run (stop i) w).1.1 = file_content path w)
  /\ forall vs w2,
       match (run (stop i) w).1.2 with
       | Await _ k =>
           files (k vs w2).1.1 = files w2 /\
           forall vs' w3,
             match (k vs w2).1.2 with
             | Await _ k' => (k' vs' w3).1.1 = w3
             | _ => True
             end
       | _ => True
       end.
Proof.
  intros H Hl. pose proof (stop_phases i w) as G. cbv zeta in G.
  rewrite (this_in _ _ _ H) in G.
  destruct (cfg_stop (processConfig P)) as [c|].
  - destruct G as (k & -> & Hk). cbn [fst snd]. split.
    + intros path. rewrite (runCommand_eq _ _ _ P) by exact H. cbn [snd].
      unfold file_content at 1. cbn [files]. unfold log_file. rewrite Hl.
      destruct (decide (l = path)) as [<-|Hne].
      * rewrite lookup_insert_eq. reflexivity.
      * rewrite lookup_insert_ne by done. reflexivity.
    + intros vs w2. rewrite Hk. unfold signal_and_wait. cbn [fst snd].
      split; [reflexivity|]. intros vs' w3.
      by destruct (startPromise (this i w2)).
  - rewrite G. unfold signal_and_wait. cbn [fst snd]. split; [reflexivity|].
    intros vs w2. destruct (startPromise _); [|done].
    split; [reflexivity|]. intros vs' w3. reflexivity.
Qed.

(** *** runCommand and the exit of a child *)

(** C7: [runCommand] registers the child with a pending promise; whenever
    that child exits with code [N], whatever [N] is, the marker is appended
    to the log file, as its last content, and the promise is resolved (not
    rejected) with [N]. *)
Theorem runCommand_exit_code i c w P N :
  procs w !! i = Some P ->
  let p := (runCommand i (Some c) w).1 in
  let w1 := (runCommand i (Some c) w).2 in
  let h := length (spawned w) in
  let l := log_file P in
  let child := {| pid := next_pid w; c_data := Some l; c_exit := Some (l, p);
                  c_code := None |} in
  spawned w1 !! h = Some child
  /\ promises w1 !! p = Some Pending
  /\ children (this i w1) = children P ++ [h]
  /\ forall w2,
       spawned w2 !! h = Some child ->
       promises w2 !! p = Some Pending ->
       let w3 := MuxProcess.onExit h N w2 in
       promises w3 !! p = Some (Resolved (num N))
       /\ file_content l w3
            = file_content l w2 +:+ "exited with code " +:+ show_Z N.
Proof.
  intros H p w1 h l child. subst p w1 h l child.
  rewrite (runCommand_eq _ _ _ _ H). cbn [fst snd spawned promises].
  split; [|split; [|split]].
  - rewrite lookup_app_r by lia. by rewrite Nat.sub_diag.
  - rewrite lookup_app_r by lia. by rewrite Nat.sub_diag.
  - unfold this. cbn [procs]. by rewrite (lookup_insert_this _ _ _ _ H).
  - intros w2 Hc Hp. unfold MuxProcess.onExit, child_at.
    rewrite Hc. cbn [default from_option id c_code c_exit].
    unfold settle, promise_state, stream_write. cbn [promises with_files with_spawned].
    rewrite Hp. unfold file_content. cbn [promises files with_promises with_files with_spawned].
    split.
    + apply list_lookup_insert_eq. by eapply lookup_lt_Some.
    + unfold append_to. by rewrite lookup_insert_eq.
Qed.

(** *** install *)

(** C8: [install] empties the log file first.  Without an install command
    it then returns 0 and has spawned nothing; with one, the command is
    spawned on the empty file, after the truncation, and [install] suspends
    on its promise and returns the exit code it resolves with. *)
Theorem install_truncates_first i w P :
  procs w !! i = Some P ->
  let l := log_file P in
  let P' := set_logPath l P in
  let before :=
    trace w ++ touch_events P
      ++ [ELogger LDebug (name P +:+ ": truncating log file at " +:+ l);
          ETruncate l] in
  match cfg_install (processConfig P) with
  | None =>
      exists w1,
        run (install i) w = (w1, Fin (num 0), []) /\
        trace w1 = before /\
        files w1 !! l = Some EmptyString /\
        spawned w1 = spawned w /\
        procs w1 = <[i := P']> (procs w)
  | Some c =>
      exists w1 k,
        run (install i) w = (w1, Await [length (promises w)] k, []) /\
        trace w1 = before ++ [ELogger LInfo (name P +:+ ": installing")]
                     ++ command_events P' c (length (spawned w)) /\
        files w1 !! l = Some EmptyString /\
        spawned w1 = spawned w ++
          [{| pid := next_pid w; c_data := Some l;
              c_exit := Some (l, length (promises w)); c_code := None |}] /\
        forall v w2, k [v] w2 = (w2, Fin v, [])
  end.
Proof.
  intros H l P' before.
  assert (H' : <[i := P']> (procs w) !! i = Some P')
    by (by eapply lookup_insert_this).
  unfold MuxProcess.install, run.
  cbv beta iota zeta delta [bind lift ret gets modify logger truncateSync await].
  rewrite (this_in _ _ _ H), (getLogPath_eq _ _ _ H). cbv beta iota zeta.
  rewrite (getLogPath_eq _ _ P') by exact H'. cbv beta iota zeta. wnorm.
  change (log_file P') with l. change (set_logPath l P') with P'.
  change (logPath P') with (Some l). cbv beta iota.
  rewrite list_insert_insert_eq.
  rewrite (this_in i _ P') by exact H'.
  change (processConfig P') with (processConfig P).
  change (touch_events P') with (@nil Event).
  destruct (cfg_install (processConfig P)) as [c|].
  - rewrite (this_in i _ P') by exact H'.
    rewrite (runCommand_eq _ _ _ P') by exact H'.
    cbv beta iota zeta. wnorm.
    change (log_file P') with l. change (set_logPath l P') with P'.
    change (logPath P') with (Some l). cbv beta iota.
    unfold file_content. wnorm. rewrite lookup_insert_eq.
    cbn [default from_option id].
    eexists _, _. split; [reflexivity|]. wnorm.
    subst before. split; [|split; [|split]].
    + rewrite app_nil_r, <- !app_assoc. reflexivity.
    + apply lookup_insert_eq.
    + reflexivity.
    + intros v w2. reflexivity.
  - eexists. split; [reflexivity|]. wnorm.
    subst before. split; [|split; [|split]].
    + rewrite app_nil_r, <- !app_assoc. reflexivity.
    + apply lookup_insert_eq.
    + reflexivity.
    + reflexivity.
Qed.

(** *** start *)

(** C1, as amended: [start] stores the promise of the run command in
    [startPromise] and then awaits it: it is suspended on that promise, still
    pending, while the child is running, and returns only when resumed.
    Until the promise settles the event loop does not resume it. *)
Theorem start_awaits_run i w P :
  procs w !! i = Some P ->
  let r := runCommand i (Some (cfg_run (processConfig P)))
             (emit (ELogger LInfo (name P +:+ ": starting")) w) in
  let w1 := with_procs (alter (set_startPromise r.1) i) r.2 in
  exists k,
    run (start i) w = (w1, Await [r.1] k, [])
    /\ startPromise (this i w1) = Some r.1
    /\ promises w1 !! r.1 = Some Pending
    /\ c_code (child_at (length (spawned w)) w1) = None
    /\ (forall vs w2, k vs w2 = (w2, Fin undefined, []))
    /\ forall fuel r0,
         drain fuel {| world := w1; pool := [(r0, Await [r.1] k)] |}
         = {| world := w1; pool := [(r0, Await [r.1] k)] |}.
Proof.
  intros H r w1. subst r w1. unfold MuxProcess.start, run.
  cbv beta iota zeta delta [bind lift ret gets modify logger update_this].
  change (this i (emit ?e w)) with (this i w). rewrite (this_in _ _ _ H).
  rewrite (runCommand_eq _ _ _ P) by exact H. cbv beta iota zeta.
  cbn [fst snd]. unfold this at 1. cbn [procs with_procs].
  rewrite list_lookup_alter_eq, (lookup_insert_this _ _ _ _ H).
  cbn [fmap option_fmap option_map default from_option id startPromise
       set_startPromise await_value].
  unfold await. eexists. split; [reflexivity|].
  match goal with |- _ /\ ?X /\ _ => assert (Hp : X) end.
  { cbn [promises with_procs emit]. rewrite lookup_app_r by lia.
    by rewrite Nat.sub_diag. }
  split; [|split; [|split; [|split]]].
  - unfold this. cbn [procs with_procs].
    by rewrite list_lookup_alter_eq, (lookup_insert_this _ _ _ _ H).
  - exact Hp.
  - unfold child_at. cbn [spawned with_procs emit].
    rewrite lookup_app_r by lia. by rewrite Nat.sub_diag.
  - intros vs w2. reflexivity.
  - intros fuel r0. apply drain_idle. repeat constructor.
    cbn [snd task_readiness]. by apply readiness_pending.
Qed.

(** *** getLogPath *)

(** The path of the log file is made of the root directory, the log
    directory and the name of the process in lower case with hyphens for
    spaces.  The first call computes it, stores it in the object and leaves
    the file empty; a later call returns the stored path and does nothing
    else. *)
Theorem getLogPath_cached i w P :
  procs w !! i = Some P ->
  logPath P = None ->
  let l := path_join pf (path_join pf (rootDir muxConfig) (cfg_logPath muxConfig))
             (replace_spaces (toLowerCase pf (name P)) +:+ ".log") in
  let r := getLogPath i w in
  r.1 = l
  /\ logPath (this i r.2) = Some l
  /\ files r.2 !! l = Some EmptyString
  /\ getLogPath i r.2 = (l, r.2).
Proof.
  intros H Hl l r. subst r.
  assert (El : log_file P = l) by (unfold log_file; by rewrite Hl).
  rewrite (getLogPath_eq _ _ _ H), El, Hl. cbn [fst snd].
  assert (H' : <[i := set_logPath l P]> (procs w) !! i = Some (set_logPath l P))
    by (by eapply lookup_insert_this).
  split; [done|]. split; [|split].
  - unfold this. cbn [procs]. by rewrite H'.
  - cbn [files]. apply lookup_insert_eq.
  - rewrite (getLogPath_eq _ _ (set_logPath l P)) by exact H'.
    cbn [procs files promises spawned next_pid tails cells key_waiters
         choice_waiters ui_stopped main_stopped now self_pid exited trace].
    change (log_file (set_logPath l P)) with l.
    change (logPath (set_logPath l P)) with (Some l). cbv beta iota.
    change (set_logPath l (set_logPath l P)) with (set_logPath l P).
    rewrite list_insert_insert_eq.
    change (touch_events (set_logPath l P)) with (@nil Event).
    by rewrite app_nil_r.
Qed.

End ProcessFacts.

(** ** Commands and log files *)

Section CommandFacts.
Context (pf : Platform) (muxConfig : MuxConfig).
Local Abbreviation runCommand := (MuxProcess.runCommand pf muxConfig).
Local Abbreviation start := (MuxProcess.start pf muxConfig).

(** Once the log path is cached, a command leaves the content of every file
    as it is: the log is opened for appending.  So does [start]. *)
Theorem start_keeps_log i c w P l path :
  procs w !! i = Some P ->
  logPath P = Some l ->
  file_content path (runCommand i (Some c) w).2 = file_content path w
  /\ file_content path (run (start i) w).1.1 = file_content path w.
Proof.
  intros H Hl.
  assert (G : forall c' w', procs w' !! i = Some P ->
            file_content path (runCommand i (Some c') w').2 = file_content path w').
  { intros c' w' H'. rewrite (runCommand_eq pf muxConfig _ _ _ P) by exact H'.
    cbn [snd]. unfold file_content at 1. cbn [files]. rewrite Hl.
    unfold log_file. rewrite Hl.
    destruct (decide (l = path)) as [<-|Hne].
    - by rewrite lookup_insert_eq.
    - by rewrite lookup_insert_ne. }
  split; [by apply G|].
  unfold MuxProcess.start, run.
  cbv beta iota zeta delta [bind lift ret gets modify logger update_this].
  destruct (runCommand i _ _) as [p w1] eqn:E.
  assert (F : file_content path w1 = file_content path w).
  { change w1 with (p, w1).2. rewrite <- E. by rewrite G. }
  cbv beta iota zeta.
  match goal with |- context [await_value ?x] => destruct x end;
    cbn [await_value await fst]; exact F.
Qed.

(** A command runs through [sh -c], in the directory of the command under
    the root directory ([./] when it names none), and in the environment of
    the supervisor with the variables of the command on top. *)
Theorem runCommand_spawns i c w P :
  procs w !! i = Some P ->
  exists envp,
    spawn_calls (trace (runCommand i (Some c) w).2)
    = spawn_calls (trace w)
      ++ [("sh",
           ["-c"; ("cd " +:+ path_join pf (rootDir muxConfig) (default "./" (dir c))
                     +:+ " && " +:+ exec c)],
           envp)]
    /\ forall k, envp !! k = match default ∅ (env c) !! k with
                             | Some v => Some v
                             | None => process_env pf !! k
                             end.
Proof.
  intros H. exists (default ∅ (env c) ∪ process_env pf). split.
  - rewrite (runCommand_eq pf muxConfig _ _ _ P) by exact H. cbn [snd trace].
    unfold spawn_calls. rewrite omap_app. f_equal.
    unfold command_events, touch_events. by destruct (logPath P).
  - intros k. rewrite lookup_union.
    destruct (default ∅ (env c) !! k), (process_env pf !! k); reflexivity.
Qed.

End CommandFacts.


(** ** The navigation graph *)

Lemma build_process_eq startMenu i p (g : list StateNode) :
  startMenu < length g ->
  build_process startMenu i p g =
    alter (add_option (length g)) startMenu g ++
    [tail_node i p (length g + 3); restart_node i p (length g);
     rebuild_node i p (length g); menu_node p startMenu (length g)].
Proof.
  intros Hlt. unfold build_process, alloc, unshift, set_onAnyKeypress.
  rewrite <- !app_assoc. cbn [app]. rewrite !length_app. cbn [length].
  rewrite (alter_app_r_alt _ g) by lia. rewrite Nat.sub_diag.
  rewrite alter_app_l by lia.
  replace (length g + 1 + 1 + 1) with (length g + 3) by lia.
  replace (length g + 1 + 1) with (length g + 2) by lia.
  reflexivity.
Qed.

(** The loop, started at index [i] on a heap in which node 1 is a menu:
    each process adds four nodes and puts its tail node in front of the
    menu. *)
Lemma build_loop_spec ps : forall i (g : list StateNode) nm m0,
  length g = 3 + 4 * i ->
  g !! 1 = Some {| n_name := nm; getAction := None; menu := Some m0;
                   onAnyKeypress := None; onActionComplete := None |} ->
  let g' := build_loop 1 i ps g in
  length g' = 3 + 4 * (i + length ps)
  /\ g' !! 1 = Some {| n_name := nm; getAction := None;
                       menu := Some (((fun j => 3 + 4 * j)
                                        <$> reverse (seq i (length ps))) ++ m0);
                       onAnyKeypress := None; onActionComplete := None |}
  /\ (forall x, x < length g -> x <> 1 -> g' !! x = g !! x)
  /\ (forall j p, ps !! j = Some p ->
        let t := 3 + 4 * (i + j) in
        g' !! t = Some (tail_node (i + j) p (t + 3))
        /\ g' !! (t + 1) = Some (restart_node (i + j) p t)
        /\ g' !! (t + 2) = Some (rebuild_node (i + j) p t)
        /\ g' !! (t + 3) = Some (menu_node p 1 t)).
Proof.
  induction ps as [|p ps IH]; intros i g nm m0 Hlen H1 g'; subst g'.
  - cbn [build_loop length]. rewrite Nat.add_0_r. split; [done|].
    split; [done|]. split; [done|]. intros j q Hq. done.
  - cbn [build_loop]. rewrite build_process_eq by lia.
    set (g1 := alter _ 1 g ++ _).
    assert (Hlen1 : length g1 = 3 + 4 * S i).
    { subst g1. rewrite length_app, length_alter. cbn [length]. lia. }
    assert (H11 : g1 !! 1 = Some {| n_name := nm; getAction := None;
                                   menu := Some (length g :: m0);
                                   onAnyKeypress := None;
                                   onActionComplete := None |}).
    { subst g1. rewrite lookup_app_l by (rewrite length_alter; lia).
      by rewrite list_lookup_alter_eq, H1. }
    destruct (IH (S i) g1 _ _ Hlen1 H11) as (L & M & O & T).
    split; [|split; [|split]].
    + rewrite L. cbn [length]. lia.
    + rewrite M. do 3 f_equal. cbn [length seq]. rewrite reverse_cons, fmap_app.
      rewrite <- app_assoc. cbn. do 2 f_equal. lia.
    + intros x Hx Hne. rewrite O by lia. subst g1.
      rewrite lookup_app_l by (rewrite length_alter; lia).
      by rewrite list_lookup_alter_ne.
    + intros [|j] q Hq.
      * cbn in Hq. injection Hq as ->. rewrite !O by lia. subst g1.
        rewrite !lookup_app_r by (rewrite length_alter; lia).
        rewrite length_alter, Nat.add_0_r, <- Hlen.
        replace (length g - length g) with 0 by lia.
        replace (length g + 1 - length g) with 1 by lia.
        replace (length g + 2 - length g) with 2 by lia.
        replace (length g + 3 - length g) with 3 by lia.
        done.
      * cbn in Hq. replace (i + S j) with (S i + j) by lia. by apply T.
Qed.


Lemma fmap_seq_lookup {A B} (f : nat -> B) (h : A -> B) (l : list A) :
  (forall j x, l !! j = Some x -> f j = h x) ->
  f <$> seq 0 (length l) = h <$> l.
Proof.
  intros E. apply list_eq. intros j. rewrite !list_lookup_fmap.
  destruct (l !! j) as [x|] eqn:Hj.
  - rewrite lookup_seq_lt by (by eapply lookup_lt_Some). cbn. f_equal. eauto.
  - rewrite lookup_seq_ge; [done|]. by apply lookup_ge_None.
Qed.

(** C10: the start node that [buildStateGraph] returns is the main menu,
    and its options are, by name and by action, the tail nodes of the
    processes from the last configured to the first, then "rebuild all
    processes", then "quit". *)
Theorem main_menu_order ps :
  let g := (buildStateGraph ps).1 in
  let startMenu := (buildStateGraph ps).2 in
  exists m,
    g !! startMenu
      = Some {| n_name := "main menu"; getAction := None; menu := Some m;
                onAnyKeypress := None; onActionComplete := None |}
    /\ (fun x => n_name <$> g !! x) <$> m
         = Some <$> (((fun p => name p +:+ ":tail") <$> reverse ps)
                       ++ ["rebuild all processes"; "quit"])
    /\ (fun x => g !! x ≫= getAction) <$> m
         = Some <$> ((TailAction <$> reverse (seq 0 (length ps)))
                       ++ [RebuildAllAction; QuitAction]).
Proof.
  intros g startMenu. subst g startMenu. unfold buildStateGraph, alloc, unshift.
  cbn [app length fst snd alter list_alter fmap option_fmap option_map menu
       n_name getAction onAnyKeypress onActionComplete add_option].
  match goal with |- context [build_loop 1 0 ps ?g0] => set (g := g0) end.
  destruct (build_loop_spec ps 0 g "main menu" [2; 0] eq_refl eq_refl)
    as (L & M & O & T).
  eexists. split; [exact M|].
  rewrite !fmap_app, <- !list_fmap_compose, !fmap_reverse. split.
  - f_equal.
    + f_equal. apply fmap_seq_lookup.
      intros j p Hp. unfold compose.
      match goal with |- context [build_loop 1 0 ps g !! ?x] =>
        replace x with (3 + 4 * (0 + j)) by lia end.
      by rewrite (proj1 (T j p Hp)).
    + cbn. rewrite !O by (cbn; lia). reflexivity.
  - f_equal.
    + f_equal. apply list_fmap_ext. intros k j Hj.
      apply lookup_seq in Hj as [-> Hlt]. cbn [Nat.add]. unfold compose.
      destruct (lookup_lt_is_Some_2 ps k Hlt) as [p Hp].
      match goal with |- context [build_loop 1 0 ps g !! ?x] =>
        replace x with (3 + 4 * (0 + k)) by lia end.
      by rewrite (proj1 (T k p Hp)).
    + cbn. rewrite !O by (cbn; lia). reflexivity.
Qed.

(** Each process has four nodes of its own: the tail node, a prompt that
    leads on any key to the menu of the process; the restart and the rebuild
    node, actions that lead back to the tail node; and the menu, which
    offers the main menu, tail, restart and rebuild, in this order. *)
Theorem process_nodes ps j p :
  ps !! j = Some p ->
  let g := (buildStateGraph ps).1 in
  let t := 3 + 4 * j in
  g !! t = Some (tail_node j p (t + 3))
  /\ g !! (t + 1) = Some (restart_node j p t)
  /\ g !! (t + 2) = Some (rebuild_node j p t)
  /\ g !! (t + 3) = Some (menu_node p 1 t).
Proof.
  intros H g t. subst g t. unfold buildStateGraph, alloc, unshift.
  cbn [app length fst snd alter list_alter fmap option_fmap option_map menu
       n_name getAction onAnyKeypress onActionComplete add_option].
  match goal with |- context [build_loop 1 0 ps ?g0] => set (g := g0) end.
  destruct (build_loop_spec ps 0 g "main menu" [2; 0] eq_refl eq_refl)
    as (_ & _ & _ & T).
  exact (T j p H).
Qed.

(** The graph in full: every node of it is one of the three common nodes or
    one of the four nodes of a process. *)
Lemma graph_nodes ps x node :
  (buildStateGraph ps).1 !! x = Some node ->
  (x = 0 /\ node = quit_node)
  \/ (x = 1 /\ node = main_menu_node (length ps))
  \/ (x = 2 /\ node = rebuild_all_node 1)
  \/ exists j p, ps !! j = Some p /\
       ((x = 3 + 4 * j /\ node = tail_node j p (x + 3))
        \/ (x = 3 + 4 * j + 1 /\ node = restart_node j p (3 + 4 * j))
        \/ (x = 3 + 4 * j + 2 /\ node = rebuild_node j p (3 + 4 * j))
        \/ (x = 3 + 4 * j + 3 /\ node = menu_node p 1 (3 + 4 * j))).
Proof.
  unfold buildStateGraph, alloc, unshift.
  cbn [app length fst snd alter list_alter fmap option_fmap option_map menu
       n_name getAction onAnyKeypress onActionComplete add_option].
  match goal with |- context [build_loop 1 0 ps ?g0] => set (g := g0) end.
  destruct (build_loop_spec ps 0 g "main menu" [2; 0] eq_refl eq_refl)
    as (L & M & O & T).
  intros H. pose proof (lookup_lt_Some _ _ _ H) as Hx. rewrite L in Hx.
  destruct (decide (x = 0)) as [->|H0].
  { left. split; [done|]. rewrite O in H by (cbn; lia). by injection H as <-. }
  destruct (decide (x = 1)) as [->|H1].
  { right. left. split; [done|]. rewrite M in H. by injection H as <-. }
  destruct (decide (x = 2)) as [->|H2].
  { right. right. left. split; [done|]. rewrite O in H by (cbn; lia).
    by injection H as <-. }
  right. right. right.
  set (j := (x - 3) / 4). set (r := (x - 3) mod 4).
  assert (Hjr : x = 3 + 4 * j + r).
  { subst j r. pose proof (Nat.div_mod_eq (x - 3) 4). lia. }
  assert (Hr : r < 4) by (subst r; apply Nat.mod_upper_bound; lia).
  clearbody j r. assert (Hj : j < length ps) by lia.
  destruct (lookup_lt_is_Some_2 ps j Hj) as [p Hp].
  exists j, p. split; [done|].
  destruct (T j p Hp) as (T0 & T1 & T2 & T3).
  change (0 + j) with j in T0, T1, T2, T3.
  destruct r as [|[|[|[|r]]]]; [| | | |lia].
  - left. split; [lia|]. replace (3 + 4 * j) with x in T0 by lia.
    rewrite T0 in H. by injection H as <-.
  - right. left. split; [lia|]. rewrite Hjr, T1 in H. by injection H as <-.
  - right. right. left. split; [lia|]. rewrite Hjr, T2 in H. by injection H as <-.
  - right. right. right. split; [lia|]. rewrite Hjr, T3 in H. by injection H as <-.
Qed.

Lemma graph_length ps : length (buildStateGraph ps).1 = 3 + 4 * length ps.
Proof.
  unfold buildStateGraph, alloc, unshift.
  cbn [app length fst snd alter list_alter fmap option_fmap option_map menu
       n_name getAction onAnyKeypress onActionComplete add_option].
  match goal with |- context [build_loop 1 0 ps ?g0] => set (g := g0) end.
  by destruct (build_loop_spec ps 0 g "main menu" [2; 0] eq_refl eq_refl)
    as (L & _).
Qed.

(** The graph is closed and starts at the main menu: it has three nodes and
    four more for each process, and every menu entry, every keypress
    transition and every transition after an action leads to a node of the
    graph. *)
Theorem graph_closed ps :
  let g := (buildStateGraph ps).1 in
  (buildStateGraph ps).2 = 1
  /\ length g = 3 + 4 * length ps
  /\ Forall (closed_node g) g.
Proof.
  intros g. split; [by unfold buildStateGraph|]. split; [apply graph_length|].
  apply Forall_lookup. intros x node H. unfold closed_node.
  pose proof (graph_length ps) as L. fold g in L. rewrite L.
  pose proof (lookup_lt_Some _ _ _ H) as Hx. rewrite L in Hx.
  destruct (graph_nodes ps x node H)
    as [[-> ->]|[[-> ->]|[[-> ->]|(j & p & Hp & Hc)]]].
  - split; [done|]. split; done.
  - split; [|split; done]. intros m [= <-]. apply Forall_app. split.
    + apply Forall_fmap, Forall_forall. intros i Hi. cbn.
      apply elem_of_reverse, elem_of_seq in Hi. lia.
    + repeat (constructor; [lia|]). constructor.
  - split; [done|]. split; [done|]. intros y [= <-]. lia.
  - pose proof (lookup_lt_Some _ _ _ Hp) as Hj.
    destruct Hc as [[-> ->]|[[-> ->]|[[-> ->]|[-> ->]]]].
    + split; [done|]. split; [|done]. intros t [= <-]. eexists. split; [done|]. lia.
    + split; [done|]. split; [done|]. intros y [= <-]. lia.
    + split; [done|]. split; [done|]. intros y [= <-]. lia.
    + split; [|split; done]. intros m [= <-].
      repeat (constructor; [lia|]). constructor.
Qed.

(** ** MuxUI and main *)

Lemma passes_ret {A} (a : A) : passes (ret a).
Proof.
  intros w. exists a, w, []. intros k. unfold ret.
  by destruct (k a w) as [[w1 t] fs].
Qed.

Lemma passes_lift {A} (m : Sync A) : passes (lift m).
Proof.
  intros w. exists (m w).1, (m w).2, []. intros k. unfold lift.
  destruct (m w) as [a w1]. cbn [fst snd]. by destruct (k a w1) as [[w2 t] fs].
Qed.

Lemma passes_call body : passes (call body).
Proof.
  intros w. unfold call.
  destruct (run body _) as [[w1 t] fs].
  exists (length (promises w)), (finish (length (promises w)) t w1),
    (fs ++ suspended (length (promises w)) t). intros k.
  destruct (k _ _) as [[w2 t2] fs2]. cbn [fst snd]. by rewrite <- app_assoc.
Qed.

Lemma passes_bind {A B} (m : Async A) (f : A -> Async B) :
  passes m -> (forall a, passes (f a)) -> passes (bind m f).
Proof.
  intros Hm Hf w. destruct (Hm w) as (a & w1 & fs1 & E1).
  destruct (Hf a w1) as (b & w2 & fs2 & E2).
  exists b, w2, (fs1 ++ fs2). intros k. unfold bind. rewrite E1, E2.
  cbn [fst snd]. by rewrite <- app_assoc.
Qed.

Section UIFacts.

Context (pf : Platform) (muxConfig : MuxConfig).

Local Abbreviation handleNextState := (MuxUI.handleNextState pf muxConfig).
Local Abbreviation die := (MuxUI.die pf muxConfig).
Local Abbreviation cleanExit := (Main.cleanExit pf muxConfig).

(** Entering a node does not suspend, and neither does the [stop] of its
    action when it is called. *)
Lemma enter_passes node w :
  exists sp stopFn w' fs,
    passes stopFn /\
    forall k, MuxUI.enter pf muxConfig node k w
              = ((k (sp, stopFn) w').1.1, (k (sp, stopFn) w').1.2,
                 fs ++ (k (sp, stopFn) w').2).
Proof.
  unfold MuxUI.enter. destruct (getAction node) as [a|].
  - destruct (passes_lift (MuxUI.get_action pf muxConfig a) w)
      as (act & w1 & fs1 & E1).
    destruct (passes_call (act_start act) w1) as (sp & w2 & fs2 & E2).
    exists sp, (call (act_stop act)), w2, (fs1 ++ fs2).
    split; [apply passes_call|].
    intros k. unfold bind. rewrite E1. cbn [fst snd]. rewrite E2.
    unfold ret. cbn [fst snd]. by rewrite <- app_assoc.
  - destruct (passes_lift (Promise_resolve undefined) w) as (sp & w1 & fs1 & E1).
    exists sp, (lift (Promise_resolve undefined)), w1, fs1.
    split; [apply passes_lift|].
    intros k. unfold bind. rewrite E1. reflexivity.
Qed.

(** C9: entered on a menu node, [handleNextState] shows the names of the
    options and suspends on the choice.  Resumed with an index, it awaits
    the [stop] of the node's action and then calls itself on the entry of
    the option list at that index: the [i]-th one for a valid [i], and
    [undefined] for an index outside the list, on which the call throws. *)
Theorem menu_selection fuel (g : list StateNode) m node opts w :
  g !! m = Some node ->
  menu node = Some opts ->
  onActionComplete node = None ->
  onAnyKeypress node = None ->
  ui_stopped w = false ->
  (exists w1 choice k1 fs1,
     run (handleNextState (S fuel) g (Some (ToNode m))) w
       = (w1, Await [choice] k1, fs1)
     /\ last (choice_waiters w1) = Some choice
     /\ last (trace w1)
          = Some (EChoicePrompt (n_name node)
                    (omap (fun x => n_name <$> g !! x) opts))
     /\ forall index w2,
          exists w3 s k2 fs2,
            k1 [index] w2 = (w3, Await [s] k2, fs2)
            /\ forall vs w4,
                 k2 vs w4
                 = call (handleNextState fuel g (menu_at opts index))
                     (fun _ => fin undefined) w4)
  /\ (forall i x, opts !! i = Some x ->
        menu_at opts (num (Z.of_nat i)) = Some (ToNode x))
  /\ (forall z, (z < 0 \/ Z.of_nat (length opts) <= z)%Z ->
        menu_at opts (num z) = None)
  /\ (forall fuel' w', ui_stopped w' = false ->
        run (handleNextState (S fuel') g None) w' = (w', Fail TypeError, [])).
Proof.
  intros Hg Hm Ha Hk Hs. split; [|split; [|split]].
  - unfold run. cbn [MuxUI.handleNextState].
    unfold bind at 1, lift at 1, gets at 1. rewrite Hs.
    cbn [mbind option_bind deref]. rewrite Hg.
    unfold bind at 1, lift at 1, logger at 1, modify at 1.
    unfold bind at 1.
    destruct (enter_passes node
                (emit (ELogger LDebug
                         ("Entering " +:+ dquote +:+ n_name node +:+ dquote)) w))
      as (sp & stopFn & w' & fs & Hpass & E).
    rewrite E. rewrite Ha, Hk, Hm.
    cbv beta iota zeta delta
        [bind lift logger modify onChoicePrompt sbind new_promise sret await
         fst snd].
    eexists _, _, _, _. split; [reflexivity|]. split; [|split].
    + cbn. by rewrite last_snoc.
    + cbn. by rewrite last_snoc.
    + intros index w2.
      destruct (Hpass (emit (ELogger LDebug
                               ("Selected index: " +:+ show_Value index)) w2))
        as (s & w3 & fs2 & E2).
      rewrite E2. cbn [fst snd]. eexists _, _, _, _. split; [reflexivity|].
      intros vs w4. reflexivity.
  - intros i x Hx. unfold menu_at. rewrite decide_True by lia.
    by rewrite Nat2Z.id, Hx.
  - intros z Hz. unfold menu_at. destruct (decide (0 <= z)%Z); [|done].
    rewrite lookup_ge_None_2; [done|]. lia.
  - intros fuel' w' Hs'. unfold run. cbn [MuxUI.handleNextState].
    unfold bind at 1, lift at 1, gets at 1. rewrite Hs'. reflexivity.
Qed.


(** Entered on an action node, [handleNextState] calls the [start] of the
    node's action and suspends on the promise of that call; resumed, it
    calls the [stop] of the action and suspends on the promise of that call;
    resumed again, it logs and calls itself on the node in
    [onActionComplete]. *)
Theorem action_node_transition fuel (g : list StateNode) m node a next w :
  g !! m = Some node ->
  getAction node = Some a ->
  onActionComplete node = Some next ->
  ui_stopped w = false ->
  let ga := MuxUI.get_action pf muxConfig a
              (emit (ELogger LDebug ("Entering " +:+ dquote +:+ n_name node
                                       +:+ dquote)) w) in
  let waiting :=
    ELogger LDebug ("Handling " +:+ dquote +:+ n_name node +:+ dquote
                      +:+ " as ActionNode. Waiting for completion...") in
  exists k1 k2,
    run (handleNextState (S fuel) g (Some (ToNode m))) w
      = call (act_start ga.1)
          (fun sp w1 => (emit waiting w1, Await [sp] k1, [])) ga.2
    /\ (exists w1 fs1,
          run (handleNextState (S fuel) g (Some (ToNode m))) w
            = (w1, Await [length (promises ga.2)] k1, fs1))
    /\ (forall vs w2,
          k1 vs w2 = call (act_stop ga.1) (fun s w3 => (w3, Await [s] k2, [])) w2)
    /\ forall vs' w4,
         k2 vs' w4
         = call (handleNextState fuel g (Some (ToNode next)))
             (fun _ => fin undefined)
             (emit (ELogger LDebug "Action complete") w4).
Proof.
  intros Hg Hact Ha Hs ga waiting.
  assert (E : exists k1 k2,
    run (handleNextState (S fuel) g (Some (ToNode m))) w
      = call (act_start ga.1)
          (fun sp w1 => (emit waiting w1, Await [sp] k1, [])) ga.2
    /\ (forall vs w2,
          k1 vs w2 = call (act_stop ga.1) (fun s w3 => (w3, Await [s] k2, [])) w2)
    /\ forall vs' w4,
         k2 vs' w4
         = call (handleNextState fuel g (Some (ToNode next)))
             (fun _ => fin undefined)
             (emit (ELogger LDebug "Action complete") w4)).
  { subst ga waiting. unfold run. cbn [MuxUI.handleNextState].
    unfold bind at 1, lift at 1, gets at 1. rewrite Hs.
    cbn [mbind option_bind deref]. rewrite Hg.
    unfold MuxUI.enter. rewrite Hact, Ha.
    cbv beta iota zeta delta [bind lift ret logger modify await fst snd].
    destruct (MuxUI.get_action pf muxConfig a _) as [action wa].
    eexists _, _. split; [reflexivity|]. split.
    - intros vs w2. reflexivity.
    - intros vs' w4. reflexivity. }
  destruct E as (k1 & k2 & E1 & E2 & E3). exists k1, k2.
  split; [exact E1|]. split; [|split; [exact E2|exact E3]].
  rewrite E1. unfold call.
  destruct (run (act_start ga.1) _) as [[w1 t] fs]. cbn [fst snd].
  eexists _, _. reflexivity.
Qed.

(** Entered on a prompt node, [handleNextState] calls the [start] of the
    node's action without awaiting it and waits for the next key; resumed,
    it calls the [stop] of the action and suspends on the promise of that
    call; resumed again, it calls itself on the node in [onAnyKeypress]. *)
Theorem prompt_node_transition fuel (g : list StateNode) m node a next w :
  g !! m = Some node ->
  getAction node = Some a ->
  onActionComplete node = None ->
  onAnyKeypress node = Some next ->
  ui_stopped w = false ->
  let ga := MuxUI.get_action pf muxConfig a
              (emit (ELogger LDebug ("Entering " +:+ dquote +:+ n_name node
                                       +:+ dquote)) w) in
  let waiting :=
    ELogger LDebug ("Handling " +:+ dquote +:+ n_name node +:+ dquote
                      +:+ " as PromptNode. Waiting for key press...") in
  exists k1 k2,
    run (handleNextState (S fuel) g (Some (ToNode m))) w
      = call (act_start ga.1)
          (fun _ w1 =>
             let r := waitForNextKey (emit waiting w1) in
             (r.2, Await [r.1] k1, [])) ga.2
    /\ (exists w1 key fs1,
          run (handleNextState (S fuel) g (Some (ToNode m))) w
            = (w1, Await [key] k1, fs1)
          /\ last (key_waiters w1) = Some key
          /\ last (trace w1) = Some EWaitKey)
    /\ (forall vs w2,
          k1 vs w2 = call (act_stop ga.1) (fun s w3 => (w3, Await [s] k2, [])) w2)
    /\ forall vs' w4,
         k2 vs' w4
         = call (handleNextState fuel g (Some next)) (fun _ => fin undefined) w4.
Proof.
  intros Hg Hact Ha Hk Hs ga waiting.
  assert (E : exists k1 k2,
    run (handleNextState (S fuel) g (Some (ToNode m))) w
      = call (act_start ga.1)
          (fun _ w1 =>
             let r := waitForNextKey (emit waiting w1) in
             (r.2, Await [r.1] k1, [])) ga.2
    /\ (forall vs w2,
          k1 vs w2 = call (act_stop ga.1) (fun s w3 => (w3, Await [s] k2, [])) w2)
    /\ forall vs' w4,
         k2 vs' w4
         = call (handleNextState fuel g (Some next)) (fun _ => fin undefined) w4).
  { subst ga waiting. unfold run. cbn [MuxUI.handleNextState].
    unfold bind at 1, lift at 1, gets at 1. rewrite Hs.
    cbn [mbind option_bind deref]. rewrite Hg.
    unfold MuxUI.enter. rewrite Hact, Ha, Hk.
    cbv beta iota zeta delta [bind lift ret logger modify await fst snd].
    destruct (MuxUI.get_action pf muxConfig a _) as [action wa].
    eexists _, _. split; [|split].
    - cbv beta iota zeta delta [waitForNextKey sbind new_promise sret modify fst snd].
      reflexivity.
    - intros vs w2. reflexivity.
    - intros vs' w4. reflexivity. }
  destruct E as (k1 & k2 & E1 & E2 & E3). exists k1, k2.
  split; [exact E1|]. split; [|split; [exact E2|exact E3]].
  rewrite E1. unfold call.
  destruct (run (act_start ga.1) _) as [[w1 t] fs].
  cbv beta iota zeta delta [waitForNextKey sbind new_promise sret modify fst snd].
  eexists _, _, _. split; [reflexivity|]. split.
  - cbn. by rewrite last_snoc.
  - cbn. by rewrite last_snoc.
Qed.

End UIFacts.



(** ** Properties of every execution *)

Section InvariantFacts.

Context (R : World -> World -> Prop) `{!PreOrder R}.
Hypothesis R_promises : forall f w, R w (with_promises f w).

Local Abbreviation always := (always R).
Local Abbreviation all_always := (all_always R).
Local Abbreviation ok := (ok R).
Local Abbreviation safe := (safe R).
Local Abbreviation ssafe := (ssafe R).

Lemma always_Await ps k :
  always (Await ps k) <-> forall vs w, ok w (k vs w).
Proof.
  cbn [always]. unfold ok, all_always.
  assert (E : forall fs : list (nat * Task),
    (fix all (l : list (nat * Task)) : Prop :=
       match l with
       | [] => True
       | (_, t'') :: l' => always t'' /\ all l'
       end) fs <-> Forall (fun f => always f.2) fs).
  { induction fs as [|[r t] fs IH]; [by split|].
    rewrite Forall_cons, IH. reflexivity. }
  split; intros H vs w; specialize (H vs w);
    destruct (k vs w) as [[w' t'] fs]; cbn [fst snd] in *;
    by rewrite E in *.
Qed.

Lemma ok_step w w1 o : R w w1 -> ok w1 o -> ok w o.
Proof. intros H (H1 & H2 & H3). split; [by etrans|done]. Qed.

Lemma ok_forks w w1 t fs fs' :
  all_always fs' -> ok w (w1, t, fs) -> ok w (w1, t, fs' ++ fs).
Proof.
  intros H (H1 & H2 & H3). split; [done|]. split; [done|].
  by apply Forall_app.
Qed.

(** Synchronous code. *)

Lemma ssafe_ret {A} (Q : A -> Prop) a : Q a -> ssafe Q (sret a).
Proof. intros H w. by split. Qed.

Lemma ssafe_bind {A B} (P : A -> Prop) (Q : B -> Prop) (m : Sync A) (f : A -> Sync B) :
  ssafe P m -> (forall a, P a -> ssafe Q (f a)) -> ssafe Q (sbind m f).
Proof.
  intros Hm Hf w. unfold sbind. destruct (Hm w) as [H1 H2].
  destruct (m w) as [a w1]. cbn [fst snd] in *.
  destruct (Hf a H2 w1) as [H3 H4]. split; [by etrans|done].
Qed.

Lemma ssafe_gets {A} (f : World -> A) : ssafe any (gets f).
Proof. intros w. by split. Qed.

Lemma ssafe_modify f : (forall w, R w (f w)) -> ssafe any (modify f).
Proof. intros H w. by split. Qed.

Lemma ssafe_any {A} (Q : A -> Prop) (m : Sync A) : ssafe Q m -> ssafe any m.
Proof. intros H w. split; [apply H|done]. Qed.

Lemma ssafe_for_each {A} (l : list A) (f : A -> Sync unit) :
  (forall x, ssafe any (f x)) -> ssafe any (for_each l f).
Proof.
  intros H. induction l as [|x l IH]; cbn [for_each].
  - by apply ssafe_ret.
  - eapply ssafe_bind; [apply H|]. intros _ _. exact IH.
Qed.

Lemma ssafe_new_promise : ssafe any new_promise.
Proof. intros w. split; [apply R_promises|done]. Qed.

Lemma ssafe_Promise_resolve v : ssafe any (Promise_resolve v).
Proof. intros w. split; [apply R_promises|done]. Qed.

Lemma settle_R p s w : R w (settle p s w).
Proof.
  unfold settle. destruct (promise_state p w) as [[]|]; try reflexivity.
  apply R_promises.
Qed.

Lemma finish_R r t w : R w (finish r t w).
Proof. destruct t; cbn; try apply settle_R. reflexivity. Qed.

(** Asynchronous code. *)

Lemma safe_ret {A} (Q : A -> Prop) a : Q a -> safe Q (ret a).
Proof. intros H k Hk w. by apply Hk. Qed.

Lemma safe_bind {A B} (P : A -> Prop) (Q : B -> Prop) (m : Async A) (f : A -> Async B) :
  safe P m -> (forall a, P a -> safe Q (f a)) -> safe Q (bind m f).
Proof.
  intros Hm Hf k Hk w. unfold bind. apply Hm. intros a w1 Ha. by apply Hf.
Qed.

Lemma safe_lift {A} (Q : A -> Prop) (m : Sync A) : ssafe Q m -> safe Q (lift m).
Proof.
  intros Hm k Hk w. unfold lift. destruct (Hm w) as [H1 H2].
  destruct (m w) as [a w1]. cbn [fst snd] in *.
  eapply ok_step; [exact H1|]. by apply Hk.
Qed.

Lemma safe_any {A} (Q : A -> Prop) (m : Async A) : safe Q m -> safe any m.
Proof. intros H k Hk w. apply H. intros a w1 _. by apply Hk. Qed.

Lemma safe_throw {A} (Q : A -> Prop) e : safe Q (throw e).
Proof. intros k Hk w. split; [reflexivity|]. split; [done|constructor]. Qed.

Lemma safe_await p : safe any (await p).
Proof.
  intros k Hk w. split; [reflexivity|]. split; [|constructor].
  apply always_Await. intros vs w'. by apply Hk.
Qed.

Lemma safe_await_value x : safe any (await_value x).
Proof.
  destruct x as [p|]; [apply safe_await|].
  intros k Hk w. split; [reflexivity|]. split; [|constructor].
  apply always_Await. intros vs w'. by apply Hk.
Qed.

Lemma safe_await_all ps : safe any (await_all ps).
Proof.
  intros k Hk w. split; [reflexivity|]. split; [|constructor].
  apply always_Await. intros vs w'. by apply Hk.
Qed.

Lemma fin_ok v w : ok w (fin v w).
Proof. split; [reflexivity|]. split; [done|constructor]. Qed.

Lemma suspended_always r t : always t -> all_always (suspended r t).
Proof. intros H. destruct t; cbn; by repeat constructor. Qed.

Lemma safe_call body : safe any body -> safe any (call body).
Proof.
  intros Hb k Hk w. unfold call, run.
  pose proof (Hb fin (fun v w' _ => fin_ok v w')
                (with_promises (fun ps => ps ++ [Pending]) w)) as Hr.
  destruct (body fin _) as [[w1 t] fs]. destruct Hr as (H1 & H2 & H3).
  cbn [fst snd] in *.
  pose proof (Hk (length (promises w)) (finish (length (promises w)) t w1) I) as Hc.
  destruct (k _ _) as [[w2 t2] fs2]. destruct Hc as (H4 & H5 & H6).
  cbn [fst snd] in *. split; [|split; [done|]].
  - etrans; [apply R_promises|]. etrans; [exact H1|].
    etrans; [apply finish_R|]. exact H4.
  - cbn [snd]. apply Forall_app. split; [done|]. apply Forall_app.
    split; [by apply suspended_always|done].
Qed.

Lemma safe_map_m {A B} (f : A -> Async B) l :
  (forall x, safe any (f x)) -> safe any (map_m f l).
Proof.
  intros H. induction l as [|x l IH]; cbn [map_m].
  - by apply safe_ret.
  - eapply safe_bind; [apply H|]. intros y _.
    eapply safe_bind; [apply IH|]. intros ys _. by apply safe_ret.
Qed.

Lemma safe_forEach {A} l (f : A -> Async unit) :
  (forall x, safe any (f x)) -> safe any (forEach l f).
Proof.
  intros H. induction l as [|x l IH]; cbn [forEach].
  - by apply safe_ret.
  - eapply safe_bind; [apply H|]. intros _ _. exact IH.
Qed.

(** The event loop. *)

Lemma resume_ok r t w :
  always t -> R w (resume r t w).1 /\ all_always (resume r t w).2.
Proof.
  intros H. destruct t as [v|e|ps k]; cbn [resume].
  - split; [reflexivity|constructor].
  - split; [reflexivity|constructor].
  - destruct (readiness w ps) as [|vs|e].
    + split; [reflexivity|]. by repeat constructor.
    + pose proof (proj1 (always_Await ps k) H vs w) as H'.
      destruct (k vs w) as [[w1 t1] fs]. destruct H' as (H1 & H2 & H3).
      cbn [fst snd] in *. split.
      * etrans; [exact H1|apply finish_R].
      * apply Forall_app. split; [by apply suspended_always|done].
    + split; [apply settle_R|constructor].
Qed.

Lemma pick_ready_split w todo : forall seen before r t after,
  pick_ready w seen todo = Some (before, (r, t), after) ->
  seen ++ todo = before ++ (r, t) :: after.
Proof.
  induction todo as [|[r' t'] todo IH]; intros seen before r t after; cbn.
  - done.
  - destruct (task_readiness w t').
    + intros H. apply IH in H. by rewrite <- app_assoc in H.
    + by intros [= <- <- <- <-].
    + by intros [= <- <- <- <-].
Qed.

Lemma drain_ok fuel : forall rt,
  all_always (pool rt) ->
  R (world rt) (world (drain fuel rt)) /\ all_always (pool (drain fuel rt)).
Proof.
  induction fuel as [|fuel IH]; intros rt H; cbn [drain].
  - by split.
  - destruct (exited (world rt)); [by split|].
    destruct (pick_ready (world rt) [] (pool rt)) as [[[before [r t]] after]|] eqn:E;
      [|by split].
    apply pick_ready_split in E. cbn [app] in E. rewrite E in H.
    apply Forall_app in H as [Hb Ht]. apply Forall_cons in Ht as [Ht Ha].
    pose proof (resume_ok r t (world rt) Ht) as [H1 H2].
    destruct (resume r t (world rt)) as [w1 fs]. cbn [fst snd] in *.
    destruct (IH {| world := w1; pool := before ++ after ++ fs |}) as [H3 H4].
    { cbn. apply Forall_app. split; [done|]. by apply Forall_app. }
    split; [by etrans|done].
Qed.

Lemma invoke_ok body rt :
  safe any body -> all_always (pool rt) ->
  R (world rt) (world (invoke body rt)) /\ all_always (pool (invoke body rt)).
Proof.
  intros Hb H. unfold invoke.
  pose proof (safe_call body Hb (fun _ w => (w, Fin undefined, []))
                (fun v w' _ => fin_ok undefined w') (world rt)) as Hc.
  destruct (call body _ _) as [[w1 t] fs]. destruct Hc as (H1 & H2 & H3).
  cbn [fst snd world pool] in *. split; [done|]. by apply Forall_app.
Qed.

End InvariantFacts.

(** ** What every step of the supervisor keeps *)

#[global] Instance steady_preorder : PreOrder steady.
Proof.
  split.
  - intros w. by split.
  - intros w1 w2 w3 (A1 & B1 & U1 & C1) (A2 & B2 & U2 & C2).
    split; [|split; [|split]]; auto. by etrans.
Qed.

Lemma steady_obs w w' : obs w' = obs w -> steady w w'.
Proof.
  unfold obs. intros [= H1 H2 H3 H4]. split; [|split; [|split]].
  - by rewrite H1.
  - by rewrite H2.
  - by rewrite H3.
  - unfold guarded. by rewrite H2, H4.
Qed.

Lemma steady_promises f w : steady w (with_promises f w).
Proof. by apply steady_obs. Qed.

Lemma resets_snoc e tr : is_reset e = false -> resets (tr ++ [e]) = resets tr.
Proof.
  intros H. unfold resets. rewrite filter_app, length_app.
  rewrite filter_cons_False by (rewrite H; auto). cbn. lia.
Qed.

Lemma resets_snoc_reset tr : resets (tr ++ [ETerminalReset]) = S (resets tr).
Proof.
  unfold resets. rewrite filter_app, length_app.
  rewrite filter_cons_True by done. cbn. lia.
Qed.

Lemma handles_alter (f : Proc -> Proc) (i : nat) (ps : list Proc) :
  (forall P, children (f P) = children P) ->
  children <$> alter f i ps = children <$> ps.
Proof.
  intros H. rewrite (list_fmap_alter _ _ id) by (by apply Forall_forall).
  by apply list_alter_id.
Qed.

Local Abbreviation ssteady := (ssafe steady any).
Local Abbreviation asteady := (safe steady any).

(** A step that changes nothing of what [steady] looks at. *)
Lemma ssafe_obs {A} (m : Sync A) :
  (forall w, obs (m w).2 = obs w) -> ssteady m.
Proof. intros H w. split; [by apply steady_obs|done]. Qed.

(** The primitive effects. *)
Ltac obs_tac :=
  apply ssafe_obs; intros w; unfold obs, handles, sbind, modify, sret; cbn -[resets];
  rewrite ?resets_snoc by reflexivity; rewrite ?handles_alter by reflexivity;
  reflexivity.

Lemma ssafe_logger l msg : ssteady (logger l msg).
Proof. obs_tac. Qed.
Lemma ssafe_mkdirSync p : ssteady (mkdirSync p).
Proof. obs_tac. Qed.
Lemma ssafe_appendFileSync p d : ssteady (appendFileSync p d).
Proof. obs_tac. Qed.
Lemma ssafe_truncateSync p : ssteady (truncateSync p).
Proof. obs_tac. Qed.
Lemma ssafe_createWriteStream p : ssteady (createWriteStream p).
Proof. obs_tac. Qed.
Lemma ssafe_spawn b a e : ssteady (spawn b a e).
Proof. obs_tac. Qed.
Lemma ssafe_update_child h f : ssteady (update_child h f).
Proof. obs_tac. Qed.
Lemma ssafe_treeKill p s : ssteady (treeKill p s).
Proof. obs_tac. Qed.
Lemma ssafe_new_Tail p n : ssteady (new_Tail p n).
Proof. obs_tac. Qed.
Lemma ssafe_on_line t h : ssteady (on_line t h).
Proof. obs_tac. Qed.
Lemma ssafe_unwatch t : ssteady (unwatch t).
Proof. obs_tac. Qed.
Lemma ssafe_new_cell : ssteady new_cell.
Proof. obs_tac. Qed.
Lemma ssafe_set_cell c t : ssteady (set_cell c t).
Proof. obs_tac. Qed.
Lemma ssafe_set_logPath i l : ssteady (update_this i (set_logPath l)).
Proof. obs_tac. Qed.
Lemma ssafe_set_startPromise i p : ssteady (update_this i (set_startPromise p)).
Proof. obs_tac. Qed.
Lemma ssafe_onChoicePrompt p items : ssteady (onChoicePrompt p items).
Proof. obs_tac. Qed.
Lemma ssafe_waitForNextKey : ssteady waitForNextKey.
Proof. obs_tac. Qed.

(** The one step that changes [children]: a push. *)
Lemma ssafe_push i h : ssteady (update_this i (set_children (fun cs => cs ++ [h]))).
Proof.
  intros w. split; [|done]. unfold update_this, modify. cbn [snd].
  split; [|split; [done|split; done]]. unfold handles. cbn [procs with_procs].
  apply Forall2_same_length_lookup_2.
  - by rewrite !length_fmap, length_alter.
  - intros j x y Hx Hy. rewrite list_lookup_fmap in Hx, Hy.
    destruct (decide (i = j)) as [<-|Hne].
    + rewrite list_lookup_alter_eq in Hy. destruct (procs w !! i) as [P|]; [|done].
      cbn in Hx, Hy. simplify_eq. by apply prefix_app_r.
    + rewrite list_lookup_alter_ne in Hy by done. by simplify_eq.
Qed.

Create HintDb steady.

#[local] Hint Resolve ssafe_logger ssafe_mkdirSync ssafe_appendFileSync
  ssafe_truncateSync ssafe_createWriteStream ssafe_spawn ssafe_update_child
  ssafe_treeKill ssafe_new_Tail ssafe_on_line ssafe_unwatch ssafe_new_cell
  ssafe_set_cell ssafe_set_logPath ssafe_set_startPromise ssafe_onChoicePrompt
  ssafe_waitForNextKey ssafe_push : steady.

(** One rule per construct of the two monads. *)
Ltac steady_step :=
  lazymatch goal with
  | |- ssafe _ _ (sret _) => apply (ssafe_ret steady any); exact I
  | |- ssafe _ _ (gets _) => apply (ssafe_gets steady)
  | |- ssafe _ _ new_promise => apply (ssafe_new_promise steady steady_promises)
  | |- ssafe _ _ (Promise_resolve _) =>
      apply (ssafe_Promise_resolve steady steady_promises)
  | |- ssafe _ _ (sbind _ _) => eapply (ssafe_bind steady); [|intros ? _]
  | |- ssafe _ _ (for_each _ _) => apply (ssafe_for_each steady); intros ?
  | |- ssafe _ _ (match ?x with _ => _ end) => destruct x
  | |- safe _ _ (ret _) => apply (safe_ret steady any); exact I
  | |- safe _ _ (throw _) =>
      first [apply (safe_throw steady any) | apply (safe_throw steady)]
  | |- safe _ _ (bind _ _) => eapply (safe_bind steady); [|intros ? _]
  | |- safe _ _ (lift _) => apply (safe_lift steady)
  | |- safe _ _ (await _) => apply (safe_await steady)
  | |- safe _ _ (await_value _) => apply (safe_await_value steady)
  | |- safe _ _ (await_all _) => apply (safe_await_all steady)
  | |- safe _ _ (call _) => apply (safe_call steady steady_promises)
  | |- safe _ _ (map_m _ _) => apply (safe_map_m steady); intros ?
  | |- safe _ _ (forEach _ _) => apply (safe_forEach steady); intros ?
  | |- safe _ _ (match ?x with _ => _ end) => destruct x
  | |- _ => solve [eauto with steady]
  end.

Ltac steady_tac := cbv zeta; repeat (steady_step; cbv zeta).

Section Steady.

Context (pf : Platform) (muxConfig : MuxConfig).

(** The methods of [MuxProcess]. *)
Lemma ssafe_getLogPath i : ssteady (MuxProcess.getLogPath pf muxConfig i).
Proof. unfold MuxProcess.getLogPath. steady_tac. Qed.

Lemma ssafe_getLogStream i n : ssteady (MuxProcess.getLogStream pf muxConfig i n).
Proof. unfold MuxProcess.getLogStream. pose proof ssafe_getLogPath. steady_tac. Qed.

Lemma ssafe_runCommand i c : ssteady (MuxProcess.runCommand pf muxConfig i c).
Proof. unfold MuxProcess.runCommand. pose proof ssafe_getLogPath. steady_tac. Qed.

Lemma ssafe_kill_children cs : ssteady (MuxProcess.kill_children cs).
Proof. unfold MuxProcess.kill_children. steady_tac. Qed.

Lemma safe_stop i : asteady (MuxProcess.stop pf muxConfig i).
Proof.
  unfold MuxProcess.stop.
  pose proof ssafe_runCommand. pose proof ssafe_kill_children. steady_tac.
Qed.

Lemma safe_install i : asteady (MuxProcess.install pf muxConfig i).
Proof.
  unfold MuxProcess.install.
  pose proof ssafe_runCommand. pose proof ssafe_getLogPath. steady_tac.
Qed.

Lemma safe_start i : asteady (MuxProcess.start pf muxConfig i).
Proof. unfold MuxProcess.start. pose proof ssafe_runCommand. steady_tac. Qed.


#[local] Hint Resolve ssafe_getLogPath ssafe_getLogStream ssafe_runCommand
  ssafe_kill_children safe_stop safe_install safe_start : steady.

(** The methods of [MuxUI] and the closures of the graph. *)
Lemma ssafe_flag (f : World -> World) :
  (forall w, obs (f w) = obs w) -> ssteady (modify f).
Proof. intros H. by apply ssafe_obs. Qed.

Lemma safe_never : asteady never.
Proof. unfold never. steady_tac. Qed.

Lemma ssafe_ui_stopped : ssteady (modify (with_ui_stopped true)).
Proof.
  apply (ssafe_modify steady). intros w.
  split; [done|]. split; [done|]. split; done.
Qed.

Lemma safe_die : asteady (MuxUI.die pf muxConfig).
Proof.
  unfold MuxUI.die. pose proof ssafe_ui_stopped.
  steady_tac; apply ssafe_flag; intros w; unfold obs, handles;
    cbn -[resets]; rewrite ?resets_snoc by reflexivity; reflexivity.
Qed.

Lemma safe_initialize : asteady (MuxUI.initialize pf muxConfig).
Proof. unfold MuxUI.initialize. steady_tac. Qed.

Lemma ssafe_unwatch_cell c : ssteady (unwatch_cell c).
Proof. unfold unwatch_cell. steady_tac. Qed.

#[local] Hint Resolve safe_never safe_die safe_initialize ssafe_unwatch_cell : steady.

Lemma ssafe_get_action a : ssafe steady safe_action (MuxUI.get_action pf muxConfig a).
Proof.
  destruct a; cbn [MuxUI.get_action].
  - apply (ssafe_ret steady). split; cbn [act_start act_stop]; steady_tac.
  - apply (ssafe_ret steady). split; cbn [act_start act_stop]; steady_tac.
  - eapply (ssafe_bind steady); [apply ssafe_new_cell|]. intros c _.
    apply (ssafe_ret steady). split; cbn [act_start act_stop]; steady_tac.
  - eapply (ssafe_bind steady); [apply ssafe_new_cell|]. intros c _.
    apply (ssafe_ret steady). split; cbn [act_start act_stop]; steady_tac.
  - eapply (ssafe_bind steady); [apply ssafe_new_cell|]. intros c _.
    apply (ssafe_ret steady). split; cbn [act_start act_stop]; steady_tac.
Qed.

Lemma safe_enter node :
  safe steady (fun e => asteady e.2) (MuxUI.enter pf muxConfig node).
Proof.
  unfold MuxUI.enter. destruct (getAction node) as [a|].
  - eapply (safe_bind steady); [apply (safe_lift steady), ssafe_get_action|].
    intros act [Hs Hp].
    eapply (safe_bind steady); [by apply (safe_call steady steady_promises)|].
    intros sp _. apply (safe_ret steady). cbn [snd].
    by apply (safe_call steady steady_promises).
  - eapply (safe_bind steady); [steady_tac|]. intros sp _.
    apply (safe_ret steady). cbn [snd]. steady_tac.
Qed.

Lemma safe_handleNextState fuel : forall g currentState,
  asteady (MuxUI.handleNextState pf muxConfig fuel g currentState).
Proof.
  induction fuel as [|fuel IH]; intros g currentState; cbn [MuxUI.handleNextState].
  - steady_tac.
  - eapply (safe_bind steady); [steady_tac|]. intros stopped _.
    destruct stopped; [steady_tac|].
    destruct (currentState ≫= deref g) as [node|]; [|steady_tac].
    eapply (safe_bind steady); [steady_tac|]. intros _ _.
    eapply (safe_bind steady); [apply safe_enter|]. intros entered Hstop.
    cbv zeta.
    destruct (onActionComplete node), (onAnyKeypress node), (menu node);
      steady_tac; solve [exact Hstop | apply IH].
Qed.

Lemma safe_ui_start fuel g initialState :
  asteady (MuxUI.start pf muxConfig fuel g initialState).
Proof. unfold MuxUI.start. pose proof (safe_handleNextState fuel). steady_tac. Qed.

(** [cleanExit]: the test of the flag, and what follows it. *)
Lemma cleanExit_eq k w :
  Main.cleanExit pf muxConfig k w =
    if main_stopped w then k undefined w else
    (p <- call (MuxUI.die pf muxConfig);;
     await p;;;
     logger LDebug "Exiting my process...";;;
     modify (fun w' => with_exited true (emit EProcessExit w'));;;
     ret undefined) k (emit ETerminalReset (with_main_stopped true w)).
Proof.
  unfold Main.cleanExit. unfold bind at 1, lift at 1, gets at 1.
  destruct (main_stopped w); reflexivity.
Qed.

Lemma safe_exit_tail :
  asteady (p <- call (MuxUI.die pf muxConfig);;
           await p;;;
           logger LDebug "Exiting my process...";;;
           modify (fun w' => with_exited true (emit EProcessExit w'));;;
           ret undefined).
Proof.
  steady_tac. apply ssafe_flag. intros w'. unfold obs, handles.
  cbn -[resets]. by rewrite resets_snoc.
Qed.

Lemma safe_cleanExit : asteady (Main.cleanExit pf muxConfig).
Proof.
  intros k Hk w. rewrite cleanExit_eq. destruct (main_stopped w) eqn:E.
  - by apply Hk.
  - eapply (ok_step steady); [|by apply safe_exit_tail].
    split; [done|]. split; [done|]. split; [done|].
    intros [H1 H2]. specialize (H2 E).
    unfold guarded. cbn [trace emit with_main_stopped main_stopped].
    rewrite resets_snoc_reset. split; [lia|done].
Qed.


(** The listeners and the event loop. *)
Lemma obs_settle p s w : obs (settle p s w) = obs w.
Proof. unfold settle. by destruct (promise_state p w) as [[]|]. Qed.

Lemma obs_resolve_all ps v w : obs (resolve_all ps v w) = obs w.
Proof.
  unfold resolve_all. revert w. induction ps as [|p ps IH]; intros w; [done|].
  cbn [foldl]. by rewrite IH, obs_settle.
Qed.

Lemma obs_onData h data w : obs (MuxProcess.onData h data w) = obs w.
Proof.
  unfold MuxProcess.onData.
  by destruct (c_code (child_at h w)), (c_data (child_at h w)).
Qed.

Lemma obs_onExit h n w : obs (MuxProcess.onExit h n w) = obs w.
Proof.
  unfold MuxProcess.onExit. destruct (c_code (child_at h w)); [done|].
  destruct (c_exit (child_at h w)) as [[s r]|]; [|done].
  by rewrite obs_settle.
Qed.

Lemma ssafe_handleProcessLog i line : ssteady (MuxUI.handleProcessLog pf i line).
Proof. unfold MuxUI.handleProcessLog. steady_tac. Qed.

Lemma handle_ok i rt :
  pool_ok rt ->
  steady (world rt) (world (Main.handle pf muxConfig i rt))
  /\ pool_ok (Main.handle pf muxConfig i rt).
Proof.
  intros H. destruct i; cbn [Main.handle].
  - split; [|done]. apply steady_obs, obs_onData.
  - split; [|done]. apply steady_obs, obs_onExit.
  - repeat case_match; try by split.
    + split; [|done]. apply ssafe_logger.
    + split; [|done]. apply ssafe_handleProcessLog.
  - set (rt1 := if decide (key = "CTRL_C") then _ else rt).
    assert (H1 : steady (world rt) (world rt1) /\ pool_ok rt1).
    { subst rt1. destruct (decide (key = "CTRL_C")); [|by split].
      destruct (invoke_ok steady steady_promises (Main.cleanExit pf muxConfig)
                  {| world := perform (logger LInfo "Received CTRL+C - exiting...")
                                (world rt);
                     pool := pool rt |} safe_cleanExit H) as [A B].
      split; [|done]. etrans; [|exact A]. apply ssafe_logger. }
    destruct H1 as [A B]. split; [|done]. cbn [world]. etrans; [exact A|].
    apply steady_obs. etrans; [|apply obs_resolve_all]. reflexivity.
  - destruct (choice_waiters (world rt)) as [|p rest]; [by split|].
    split; [|done]. cbn [world]. apply steady_obs.
    etrans; [|apply obs_settle]. reflexivity.
  - destruct (decide _); [|by split].
    destruct (invoke_ok steady steady_promises (Main.cleanExit pf muxConfig)
                {| world := emit (EConsole sig) (world rt); pool := pool rt |}
                safe_cleanExit H) as [A B].
    split; [|done]. etrans; [|exact A]. cbn [world]. apply steady_obs.
    unfold obs, handles. cbn -[resets]. by rewrite resets_snoc.
  - split; [|done]. by apply steady_obs.
Qed.

Lemma deliver_ok fuel i rt :
  pool_ok rt ->
  steady (world rt) (world (Main.deliver pf muxConfig fuel i rt))
  /\ pool_ok (Main.deliver pf muxConfig fuel i rt).
Proof.
  intros H. unfold Main.deliver. destruct (exited (world rt)); [by split|].
  destruct (handle_ok i rt H) as [A B].
  destruct (drain_ok steady steady_promises fuel _ B) as [C D].
  split; [by etrans|done].
Qed.

Lemma deliver_all_ok fuel inputs : forall rt,
  pool_ok rt ->
  steady (world rt) (world (Main.deliver_all pf muxConfig fuel inputs rt))
  /\ pool_ok (Main.deliver_all pf muxConfig fuel inputs rt).
Proof.
  unfold Main.deliver_all.
  induction inputs as [|i inputs IH]; intros rt H; cbn [foldl]; [by split|].
  destruct (deliver_ok fuel i rt H) as [A B].
  destruct (IH _ B) as [C D]. split; [by etrans|done].
Qed.

Lemma main_ok fuel first_pid me :
  steady (Main.initial_world muxConfig first_pid me)
    (world (Main.main pf muxConfig fuel first_pid me))
  /\ pool_ok (Main.main pf muxConfig fuel first_pid me).
Proof.
  unfold Main.main. cbv zeta.
  destruct (buildStateGraph _) as [g initialState].
  destruct (invoke_ok steady steady_promises
              (MuxUI.start pf muxConfig fuel g initialState)
              {| world := Main.initial_world muxConfig first_pid me; pool := [] |}
              (safe_ui_start _ _ _)) as [A B]; [constructor|].
  destruct (drain_ok steady steady_promises fuel _ B) as [C D].
  split; [by etrans|done].
Qed.



(** In every execution the handles of each process only grow. *)
Lemma handles_grow fuel first_pid me fuel' inputs more :
  let rt0 := Main.main pf muxConfig fuel first_pid me in
  let rt1 := Main.deliver_all pf muxConfig fuel' inputs rt0 in
  let rt2 := Main.deliver_all pf muxConfig fuel' (inputs ++ more) rt0 in
  Forall2 prefix (handles (world rt1)) (handles (world rt2)).
Proof.
  intros rt0 rt1 rt2. subst rt2. unfold Main.deliver_all. rewrite foldl_app.
  fold (Main.deliver_all pf muxConfig fuel' inputs rt0).
  fold (Main.deliver_all pf muxConfig fuel' more
          (Main.deliver_all pf muxConfig fuel' inputs rt0)).
  destruct (main_ok fuel first_pid me) as [_ B].
  destruct (deliver_all_ok fuel' inputs _ B) as [_ D].
  by destruct (deliver_all_ok fuel' more _ D) as [[E _] _].
Qed.


(** Once [die] has set the flag of the UI, the flag stays set in every
    continuation of the execution, and [handleNextState] returns at once,
    whatever the node: the supervisor enters no further node. *)
Theorem stopped_ui_is_final fuel first_pid me fuel' inputs more n g s :
  let rt0 := Main.main pf muxConfig fuel first_pid me in
  let rt1 := Main.deliver_all pf muxConfig fuel' inputs rt0 in
  let rt2 := Main.deliver_all pf muxConfig fuel' (inputs ++ more) rt0 in
  ui_stopped (world rt1) = true ->
  ui_stopped (world rt2) = true
  /\ run (MuxUI.handleNextState pf muxConfig (S n) g s) (world rt2)
     = (world rt2, Fin undefined, []).
Proof.
  intros rt0 rt1 rt2 H.
  assert (H2 : ui_stopped (world rt2) = true).
  { subst rt2. unfold Main.deliver_all. rewrite foldl_app.
    fold (Main.deliver_all pf muxConfig fuel' inputs rt0).
    fold (Main.deliver_all pf muxConfig fuel' more
            (Main.deliver_all pf muxConfig fuel' inputs rt0)).
    destruct (main_ok fuel first_pid me) as [_ B].
    destruct (deliver_all_ok fuel' inputs _ B) as [_ D].
    destruct (deliver_all_ok fuel' more _ D) as [(_ & _ & U & _) _].
    by apply U. }
  split; [exact H2|]. unfold run. cbn [MuxUI.handleNextState].
  unfold bind at 1, lift at 1, gets at 1. by rewrite H2.
Qed.

(** C5, as amended: a handle is pushed when a command is spawned and is
    never removed.  [runCommand] appends the new handle to [children]; the
    exit of a child leaves the process objects as they are; and in every
    execution of the supervisor, whatever the children, the user and the
    signals do, what a process tracks at one time is a prefix of what it
    tracks at any later time. *)
Theorem handles_only_added i c w P h N fuel first_pid me fuel' inputs more :
  procs w !! i = Some P ->
  children (this i (MuxProcess.runCommand pf muxConfig i (Some c) w).2)
    = children P ++ [length (spawned w)]
  /\ procs (MuxProcess.onExit h N w) = procs w
  /\ (let rt0 := Main.main pf muxConfig fuel first_pid me in
      let rt1 := Main.deliver_all pf muxConfig fuel' inputs rt0 in
      let rt2 := Main.deliver_all pf muxConfig fuel' (inputs ++ more) rt0 in
      Forall2 prefix (handles (world rt1)) (handles (world rt2))).
Proof.
  intros H. split; [|split].
  - by apply runCommand_pushes.
  - apply onExit_procs.
  - apply handles_grow.
Qed.


End Steady.

(** ** Batches of calls: [die] and [initialize] *)

Section Batches.

Context (R : World -> World -> Prop) `{!PreOrder R}.
Hypothesis R_promises : forall f w, R w (with_promises f w).

(** A call hands its promise and the world at its first suspension to what
    follows. *)
Lemma call_steps body :
  safe R any body ->
  forall w, exists w' fs,
    R w w' /\ all_always R fs /\
    forall k, call body k w
              = ((k (length (promises w)) w').1.1, (k (length (promises w)) w').1.2,
                 fs ++ (k (length (promises w)) w').2).
Proof.
  intros Hb w. unfold call, run.
  pose proof (Hb fin (fun v w' _ => fin_ok R v w')
                (with_promises (fun ps => ps ++ [Pending]) w)) as Hr.
  destruct (body fin _) as [[w1 t] fs]. destruct Hr as (H1 & H2 & H3).
  cbn [fst snd] in *.
  exists (finish (length (promises w)) t w1), (fs ++ suspended (length (promises w)) t).
  split; [|split].
  - etrans; [apply R_promises|]. etrans; [exact H1|]. by apply finish_R.
  - apply Forall_app. split; [done|]. by apply suspended_always.
  - intros k. destruct (k _ _) as [[w2 t2] fs2]. cbn [fst snd].
    by rewrite <- app_assoc.
Qed.

(** [l.map(x => f(x))] with an [async] function [f]: all the calls are made
    before what follows, which gets one promise for each. *)
Lemma map_m_calls {A} (body : A -> Async Value) l :
  (forall x, safe R any (body x)) ->
  forall w, exists rs w' fs,
    length rs = length l /\ R w w' /\ all_always R fs /\
    forall k, map_m (fun x => call (body x)) l k w
              = ((k rs w').1.1, (k rs w').1.2, fs ++ (k rs w').2).
Proof.
  intros Hb. induction l as [|x l IH]; intros w.
  - exists [], w, []. split; [done|]. split; [done|]. split; [constructor|].
    intros k. cbn [map_m]. unfold ret. by destruct (k [] w) as [[? ?] ?].
  - destruct (call_steps (body x) (Hb x) w) as (w1 & fs1 & R1 & A1 & E1).
    destruct (IH w1) as (rs & w2 & fs2 & Hl & R2 & A2 & E2).
    exists (length (promises w) :: rs), w2, (fs1 ++ fs2).
    split; [cbn; by rewrite Hl|]. split; [by etrans|].
    split; [by apply Forall_app|].
    intros k. cbn [map_m]. unfold bind at 1. rewrite E1. unfold bind at 1 2 3.
    rewrite !E2. unfold ret. cbn [fst snd]. by rewrite <- app_assoc.
Qed.

End Batches.

#[global] Instance calm_preorder : PreOrder calm.
Proof.
  split.
  - by intros w.
  - intros w1 w2 w3 H1 H2. unfold calm in *. by rewrite H2.
Qed.

Lemma calm_promises f w : calm w (with_promises f w).
Proof. reflexivity. Qed.

Lemma self_signals_snoc e tr :
  is_self_signal e = false -> self_signals (tr ++ [e]) = self_signals tr.
Proof.
  intros H. unfold self_signals. rewrite filter_app.
  rewrite filter_cons_False by (rewrite H; auto). cbn. by rewrite app_nil_r.
Qed.

Lemma run_promises_alter (f : Proc -> Proc) (i : nat) (ps : list Proc) :
  (forall P, startPromise (f P) = startPromise P) ->
  startPromise <$> alter f i ps = startPromise <$> ps.
Proof.
  intros H. rewrite (list_fmap_alter _ _ id) by (by apply Forall_forall).
  by apply list_alter_id.
Qed.

Local Abbreviation scalm := (ssafe calm any).
Local Abbreviation acalm := (safe calm any).

Lemma ssafe_look {A} (m : Sync A) :
  (forall w, look (m w).2 = look w) -> scalm m.
Proof. intros H w. split; [apply H|done]. Qed.

Ltac look_tac :=
  apply ssafe_look; intros w; unfold look, run_promises, sbind, modify, sret;
  cbn -[self_signals];
  rewrite ?self_signals_snoc by reflexivity;
  rewrite ?run_promises_alter by reflexivity;
  reflexivity.

Lemma calm_logger l msg : scalm (logger l msg).
Proof. look_tac. Qed.
Lemma calm_mkdirSync p : scalm (mkdirSync p).
Proof. look_tac. Qed.
Lemma calm_appendFileSync p d : scalm (appendFileSync p d).
Proof. look_tac. Qed.
Lemma calm_truncateSync p : scalm (truncateSync p).
Proof. look_tac. Qed.
Lemma calm_createWriteStream p : scalm (createWriteStream p).
Proof. look_tac. Qed.
Lemma calm_spawn b a e : scalm (spawn b a e).
Proof. look_tac. Qed.
Lemma calm_update_child h f : scalm (update_child h f).
Proof. look_tac. Qed.
Lemma calm_treeKill p s : scalm (treeKill p s).
Proof. look_tac. Qed.
Lemma calm_new_Tail p n : scalm (new_Tail p n).
Proof. look_tac. Qed.
Lemma calm_on_line t h : scalm (on_line t h).
Proof. look_tac. Qed.
Lemma calm_unwatch t : scalm (unwatch t).
Proof. look_tac. Qed.
Lemma calm_set_cell c t : scalm (set_cell c t).
Proof. intros w. by split. Qed.
Lemma calm_set_logPath i l : scalm (update_this i (set_logPath l)).
Proof. look_tac. Qed.
Lemma calm_push i h : scalm (update_this i (set_children (fun cs => cs ++ [h]))).
Proof. look_tac. Qed.

Create HintDb calm.

#[local] Hint Resolve calm_logger calm_mkdirSync calm_appendFileSync
  calm_truncateSync calm_createWriteStream calm_spawn calm_update_child
  calm_treeKill calm_new_Tail calm_on_line calm_unwatch calm_set_logPath
  calm_push : calm.

Ltac calm_step :=
  lazymatch goal with
  | |- ssafe _ _ (sret _) => apply (ssafe_ret calm any); exact I
  | |- ssafe _ _ (gets _) => apply (ssafe_gets calm)
  | |- ssafe _ _ new_promise => apply (ssafe_new_promise calm calm_promises)
  | |- ssafe _ _ (Promise_resolve _) =>
      apply (ssafe_Promise_resolve calm calm_promises)
  | |- ssafe _ _ (sbind _ _) => eapply (ssafe_bind calm); [|intros ? _]
  | |- ssafe _ _ (for_each _ _) => apply (ssafe_for_each calm); intros ?
  | |- ssafe _ _ (match ?x with _ => _ end) => destruct x
  | |- safe _ _ (ret _) => apply (safe_ret calm any); exact I
  | |- safe _ _ (bind _ _) => eapply (safe_bind calm); [|intros ? _]
  | |- safe _ _ (lift _) => apply (safe_lift calm)
  | |- safe _ _ (await _) => apply (safe_await calm)
  | |- safe _ _ (await_value _) => apply (safe_await_value calm)
  | |- safe _ _ (call _) => apply (safe_call calm calm_promises)
  | |- safe _ _ (match ?x with _ => _ end) => destruct x
  | |- _ => solve [eauto with calm]
  end.

Ltac calm_tac := cbv zeta; repeat (calm_step; cbv zeta).

Section Calm.

Context (pf : Platform) (muxConfig : MuxConfig).

Lemma calm_getLogPath i : scalm (MuxProcess.getLogPath pf muxConfig i).
Proof. unfold MuxProcess.getLogPath. calm_tac. Qed.

Lemma calm_getLogStream i n : scalm (MuxProcess.getLogStream pf muxConfig i n).
Proof. unfold MuxProcess.getLogStream. pose proof calm_getLogPath. calm_tac. Qed.

Lemma calm_runCommand i c : scalm (MuxProcess.runCommand pf muxConfig i c).
Proof. unfold MuxProcess.runCommand. pose proof calm_getLogPath. calm_tac. Qed.

Lemma calm_kill_children cs : scalm (MuxProcess.kill_children cs).
Proof. unfold MuxProcess.kill_children. calm_tac. Qed.

Lemma calm_stop i : acalm (MuxProcess.stop pf muxConfig i).
Proof.
  unfold MuxProcess.stop.
  pose proof calm_runCommand. pose proof calm_kill_children. calm_tac.
Qed.

Lemma calm_install i : acalm (MuxProcess.install pf muxConfig i).
Proof.
  unfold MuxProcess.install.
  pose proof calm_runCommand. pose proof calm_getLogPath. calm_tac.
Qed.

(** [die] sets the flag of the UI, logs, and calls [stop] on every process,
    in the order of the configuration; it suspends on the promises of these
    calls, one for each process.  Up to there, and whenever one of the calls
    is resumed, the supervisor is not signalled.  When it is resumed, [die]
    sends SIGINT to the supervisor itself, logs how long it took and
    returns. *)
Theorem die_awaits_every_stop w :
  let w0 := emit (ELogger LInfo "cleaning up...") (with_ui_stopped true w) in
  exists k,
    run (MuxUI.die pf muxConfig) w
      = map_m (fun i => call (MuxProcess.stop pf muxConfig i))
          (seq 0 (length (procs w)))
          (fun rs w1 => (w1, Await rs k, [])) w0
    /\ (forall vs w2,
          k vs w2 =
            (emits [ELogger LDebug ("Sending SIGINT to my PID: "
                                      +:+ show_Z (self_pid w2));
                    EProcessKill (self_pid w2) "SIGINT";
                    ELogger LDebug ("Shut down took " +:+ show_Z (now w2 - now w)
                                      +:+ "ms")] w2,
             Fin undefined, []))
    /\ exists w1 rs fs,
         run (MuxUI.die pf muxConfig) w = (w1, Await rs k, fs)
         /\ length rs = length (procs w)
         /\ ui_stopped w1 = true
         /\ self_signals (trace w1) = self_signals (trace w)
         /\ all_always calm fs.
Proof.
  intros w0. eexists. split; [|split].
  - unfold MuxUI.die, run.
    cbv beta iota zeta delta [bind lift ret gets modify logger await_all].
    reflexivity.
  - intros vs w2. unfold fin. destruct_world w2. unfold emits, emit. cbn.
    by rewrite <- !app_assoc.
  - unfold MuxUI.die, run.
    cbv beta iota zeta delta [bind lift ret gets modify logger].
    fold w0.
    destruct (map_m_calls calm calm_promises (MuxProcess.stop pf muxConfig)
                (MuxUI.processes_of w0) calm_stop w0)
      as (rs & w1 & fs & Hl & Hc & Ha & E).
    rewrite E. unfold await_all. cbn [fst snd].
    exists w1, rs, (fs ++ []). split; [reflexivity|].
    pose proof (f_equal (fun x => x.1.2) Hc) as H2.
    pose proof (f_equal snd Hc) as H3. cbn [look fst snd] in H2, H3.
    split; [|split; [|split]].
    + rewrite Hl. unfold MuxUI.processes_of. by rewrite length_seq.
    + by rewrite H2.
    + rewrite H3. subst w0. cbn [trace emit with_ui_stopped].
      by apply self_signals_snoc.
    + by rewrite app_nil_r.
Qed.

(** [initialize] calls, for every process in the order of the
    configuration, the function that opens a tail on the log, installs the
    process and unwatches the tail; it suspends on the promises of these
    calls, one for each process.  Up to there, and whenever one of the calls
    is resumed, no process is started.  When it is resumed, it logs how long
    it took and starts the processes, in the order of the configuration. *)
Theorem initialize_installs_first w :
  exists k,
    run (MuxUI.initialize pf muxConfig) w
      = map_m (fun i => call (
            n <- gets (fun w => name (this i w));;
            logger LInfo (n +:+ ": installing");;;
            stream <- MuxProcess.getLogStream pf muxConfig i 100;;
            on_line stream (ToProcessLog i);;;
            p <- call (MuxProcess.install pf muxConfig i);;
            await p;;;
            unwatch stream;;;
            ret undefined))
          (seq 0 (length (procs w)))
          (fun rs w1 => (w1, Await rs k, [])) w
    /\ (forall vs w2,
          k vs w2 =
            run (forEach (seq 0 (length (procs w2))) (fun i =>
                   n <- gets (fun w => name (this i w));;
                   logger LInfo (n +:+ ": Starting");;;
                   call (MuxProcess.start pf muxConfig i);;;
                   ret tt);;;
                 ret undefined)
              (emit (ELogger LDebug ("Start up took " +:+ show_Z (now w2 - now w)
                                       +:+ "ms")) w2))
    /\ exists w1 rs fs,
         run (MuxUI.initialize pf muxConfig) w = (w1, Await rs k, fs)
         /\ length rs = length (procs w)
         /\ run_promises w1 = run_promises w
         /\ all_always calm fs.
Proof.
  eexists. split; [|split].
  - unfold MuxUI.initialize, run.
    unfold bind at 1 2 3. unfold lift at 1 2, gets at 1 2. cbv beta iota zeta.
    unfold await_all. reflexivity.
  - intros vs w2. reflexivity.
  - unfold MuxUI.initialize, run.
    unfold bind at 1 2 3. unfold lift at 1 2, gets at 1 2. cbv beta iota zeta.
    match goal with |- context [map_m (fun i => call (@?b i))] =>
      destruct (map_m_calls calm calm_promises b (MuxUI.processes_of w)) with (w := w)
        as (rs & w1 & fs & Hl & Hc & Ha & E)
    end.
    { intros i. pose proof calm_getLogStream. pose proof calm_install. calm_tac. }
    rewrite E. unfold await_all. cbn [fst snd].
    exists w1, rs, (fs ++ []). split; [reflexivity|].
    split; [|split].
    + rewrite Hl. unfold MuxUI.processes_of. by rewrite length_seq.
    + exact (f_equal (fun x => x.1.1) Hc).
    + by rewrite app_nil_r.
Qed.

End Calm.



(** ** The closures of an action *)

Section TailAction.
Context (pf : Platform) (muxConfig : MuxConfig).

(** The action of a tail node.  Its [start] opens a tail on the log file of
    the process, with the last 100 lines, hands every line to the logger
    and never returns; its [stop] unwatches this tail and no other.  A
    [stop] before [start] does nothing. *)
Theorem tail_action_unwatches i w P :
  procs w !! i = Some P ->
  let r := MuxUI.get_action pf muxConfig (TailAction i) w in
  let line watching :=
    {| t_path := log_file pf muxConfig P; t_lines := 100;
       t_handler := Some ToLogger; t_watching := watching |} in
  run (act_stop r.1) r.2 = (r.2, Fin undefined, [])
  /\ exists w2 p k,
       run (act_start r.1) r.2 = (w2, Await [p] k, [])
       /\ promises w2 !! p = Some Pending
       /\ tails w2 = tails w ++ [line true]
       /\ exists w3,
            run (act_stop r.1) w2 = (w3, Fin undefined, [])
            /\ tails w3 = tails w ++ [line false]
            /\ files w3 = files w2.
Proof.
  intros H r line. subst r line.
  cbv beta iota zeta delta [MuxUI.get_action sbind new_cell sret fst snd
                            act_start act_stop].
  split.
  - unfold run, lift, unwatch_cell, sbind, gets, sret, fin.
    cbn [cells with_cells]. rewrite lookup_app_r by lia.
    by rewrite Nat.sub_diag.
  - unfold run, never, MuxProcess.getLogStream.
    cbv beta iota zeta delta [bind lift ret gets modify logger sbind await].
    change (this i (emit ?e (with_cells ?f w))) with (this i w).
    rewrite (getLogPath_eq pf muxConfig i _ P) by exact H.
    destruct_world w. wsimpl. unfold set_cell, modify. wsimpl.
    do 3 eexists. split; [reflexivity|]. wsimpl.
    split; [|split].
    + rewrite lookup_app_r by lia. by rewrite Nat.sub_diag.
    + rewrite alter_last. reflexivity.
    + unfold unwatch_cell, fin. wsimpl.
      rewrite list_lookup_insert_eq by (rewrite length_app; cbn; lia).
      wsimpl. eexists. split; [reflexivity|]. wsimpl.
      split; [|reflexivity]. by rewrite !alter_last.
Qed.

End TailAction.

Section RestartRebuild.

Context (pf : Platform) (muxConfig : MuxConfig).

Lemma before_stop_calm i msg c w : calm w (before_stop pf muxConfig i msg c w).
Proof.
  unfold before_stop. cbv zeta.
  destruct (calm_logger LInfo msg w) as [C1 _].
  change (logger LInfo msg w).2 with (emit (ELogger LInfo msg) w) in C1.
  destruct (calm_getLogStream pf muxConfig i 0 (emit (ELogger LInfo msg) w))
    as [C2 _].
  destruct (MuxProcess.getLogStream _ _ _ _ _) as [t w2]. cbn [fst snd] in *.
  destruct (calm_set_cell c t w2) as [C3 _].
  destruct (calm_on_line t ToLogger (set_cell c t w2).2) as [C4 _].
  etrans; [exact C1|]. etrans; [exact C2|]. etrans; [exact C3|]. exact C4.
Qed.

(** A call whose promise is awaited at once. *)
Lemma call_then body k w :
  safe calm any body ->
  exists w1 fs,
    call body (fun p w1 => (w1, Await [p] k, [])) w
      = (w1, Await [length (promises w)] k, fs)
    /\ calm w w1
    /\ all_always calm fs.
Proof.
  intros Hb.
  destruct (call_steps calm calm_promises body Hb w) as (w1 & fs & C & A & E).
  rewrite E. cbn [fst snd]. exists w1, (fs ++ []).
  split; [reflexivity|]. split; [exact C|]. by rewrite app_nil_r.
Qed.

(** The action of a restart node.  Its [start] logs, opens a tail on the
    log, calls [stop] on the process and suspends on the promise of that
    call; up to there, and whenever the call of [stop] is resumed, no process
    is started.  When resumed, it calls [start] on the process, does not
    await it, and returns: nothing is installed, and the action is complete
    while the process runs. *)
Theorem restart_stops_first i w :
  let r := MuxUI.get_action pf muxConfig (RestartAction i) w in
  let w0 := before_stop pf muxConfig i ("Restarting " +:+ name (this i w) +:+ "...")
              (length (cells w)) r.2 in
  let k := fun (_ : list Value) =>
             run (call (MuxProcess.start pf muxConfig i);;; ret undefined) in
  run (act_start r.1) r.2
    = call (MuxProcess.stop pf muxConfig i) (fun p w1 => (w1, Await [p] k, [])) w0
  /\ exists w1 fs,
       run (act_start r.1) r.2 = (w1, Await [length (promises w0)] k, fs)
       /\ look w1 = look w
       /\ all_always calm fs.
Proof.
  intros r w0 k.
  assert (H1 : run (act_start r.1) r.2
               = call (MuxProcess.stop pf muxConfig i)
                   (fun p w1 => (w1, Await [p] k, [])) w0).
  { subst r w0 k. unfold before_stop.
    cbv beta iota zeta delta
        [MuxUI.get_action sbind new_cell sret fst snd act_start run bind lift
         gets logger modify await set_cell on_line].
    destruct (MuxProcess.getLogStream _ _ _ _ _) as [t w2]. reflexivity. }
  split; [exact H1|]. rewrite H1.
  destruct (call_then (MuxProcess.stop pf muxConfig i) k w0 (calm_stop pf muxConfig i))
    as (w1 & fs & E & C & A).
  exists w1, fs. split; [exact E|]. split; [|exact A].
  change (calm w w1). etrans; [|exact C]. etrans; [|apply before_stop_calm].
  reflexivity.
Qed.

(** The action of a rebuild node.  Its [start] logs, opens a tail on the
    log, calls [stop] on the process and suspends on the promise of that
    call; up to there, and whenever the call of [stop] is resumed, no process
    is started.  When resumed, it calls [install], awaits it, and then calls
    [start] without awaiting it. *)
Theorem rebuild_stops_first i w :
  let r := MuxUI.get_action pf muxConfig (RebuildAction i) w in
  let w0 := before_stop pf muxConfig i ("Rebuilding " +:+ name (this i w) +:+ "...")
              (length (cells w)) r.2 in
  let k := fun (_ : list Value) =>
             run (p <- call (MuxProcess.install pf muxConfig i);;
                  await p;;;
                  call (MuxProcess.start pf muxConfig i);;;
                  ret undefined) in
  run (act_start r.1) r.2
    = call (MuxProcess.stop pf muxConfig i) (fun p w1 => (w1, Await [p] k, [])) w0
  /\ exists w1 fs,
       run (act_start r.1) r.2 = (w1, Await [length (promises w0)] k, fs)
       /\ look w1 = look w
       /\ all_always calm fs.
Proof.
  intros r w0 k.
  assert (H1 : run (act_start r.1) r.2
               = call (MuxProcess.stop pf muxConfig i)
                   (fun p w1 => (w1, Await [p] k, [])) w0).
  { subst r w0 k. unfold before_stop.
    cbv beta iota zeta delta
        [MuxUI.get_action sbind new_cell sret fst snd act_start run bind lift
         gets logger modify await set_cell on_line].
    destruct (MuxProcess.getLogStream _ _ _ _ _) as [t w2]. reflexivity. }
  split; [exact H1|]. rewrite H1.
  destruct (call_then (MuxProcess.stop pf muxConfig i) k w0 (calm_stop pf muxConfig i))
    as (w1 & fs & E & C & A).
  exists w1, fs. split; [exact E|]. split; [|exact A].
  change (calm w w1). etrans; [|exact C]. etrans; [|apply before_stop_calm].
  reflexivity.
Qed.

End RestartRebuild.

(** ** State invariants *)

Section KeepingFacts.

Context (Inv : World -> Prop).
Hypothesis Inv_promises : forall f w, Inv w -> Inv (with_promises f w).

Local Abbreviation keeps := (keeps Inv).
Local Abbreviation all_keep := (all_keep Inv).
Local Abbreviation kept := (kept Inv).
Local Abbreviation sound := (sound Inv).
Local Abbreviation ssound := (ssound Inv).

Lemma keeps_Await ps k :
  keeps (Await ps k) <-> forall vs w, Inv w -> kept (k vs w).
Proof.
  cbn [keeps]. unfold kept, all_keep.
  assert (E : forall fs : list (nat * Task),
    (fix all (l : list (nat * Task)) : Prop :=
       match l with
       | [] => True
       | (_, t'') :: l' => keeps t'' /\ all l'
       end) fs <-> Forall (fun f => keeps f.2) fs).
  { induction fs as [|[r t] fs IH]; [by split|].
    rewrite Forall_cons, IH. reflexivity. }
  split; intros H vs w Hw; specialize (H vs w Hw);
    destruct (k vs w) as [[w' t'] fs]; cbn [fst snd] in *;
    by rewrite E in *.
Qed.

Lemma kept_forks w1 t fs fs' :
  all_keep fs' -> kept (w1, t, fs) -> kept (w1, t, fs' ++ fs).
Proof.
  intros H (H1 & H2 & H3). split; [done|]. split; [done|].
  by apply Forall_app.
Qed.

(** Synchronous code. *)

Lemma ssound_ret {A} (Q : A -> Prop) a : Q a -> ssound Q (sret a).
Proof. intros H w Hw. by split. Qed.

Lemma ssound_bind {A B} (P : A -> Prop) (Q : B -> Prop) (m : Sync A) (f : A -> Sync B) :
  ssound P m -> (forall a, P a -> ssound Q (f a)) -> ssound Q (sbind m f).
Proof.
  intros Hm Hf w Hw. unfold sbind. destruct (Hm w Hw) as [H1 H2].
  destruct (m w) as [a w1]. cbn [fst snd] in *. by apply Hf.
Qed.

Lemma ssound_gets {A} (Q : A -> Prop) (f : World -> A) :
  (forall w, Inv w -> Q (f w)) -> ssound Q (gets f).
Proof. intros H w Hw. split; [done|by apply H]. Qed.

Lemma ssound_modify f : (forall w, Inv w -> Inv (f w)) -> ssound any (modify f).
Proof. intros H w Hw. split; [by apply H|done]. Qed.

Lemma ssound_any {A} (Q : A -> Prop) (m : Sync A) : ssound Q m -> ssound any m.
Proof. intros H w Hw. split; [by apply H|done]. Qed.

Lemma ssound_new_promise : ssound any new_promise.
Proof. intros w Hw. split; [by apply Inv_promises|done]. Qed.

Lemma ssound_Promise_resolve v : ssound any (Promise_resolve v).
Proof. intros w Hw. split; [by apply Inv_promises|done]. Qed.

Lemma settle_Inv p s w : Inv w -> Inv (settle p s w).
Proof.
  intros Hw. unfold settle. destruct (promise_state p w) as [[]|]; try done.
  by apply Inv_promises.
Qed.

Lemma finish_Inv r t w : Inv w -> Inv (finish r t w).
Proof. intros Hw. destruct t; cbn; try by apply settle_Inv. done. Qed.

(** Asynchronous code. *)

Lemma sound_ret {A} (Q : A -> Prop) a : Q a -> sound Q (ret a).
Proof. intros H k Hk w Hw. by apply Hk. Qed.

Lemma sound_bind {A B} (P : A -> Prop) (Q : B -> Prop) (m : Async A) (f : A -> Async B) :
  sound P m -> (forall a, P a -> sound Q (f a)) -> sound Q (bind m f).
Proof.
  intros Hm Hf k Hk w Hw. unfold bind. apply Hm; [|done].
  intros a w1 Hw1 Ha. by apply Hf.
Qed.

Lemma sound_lift {A} (Q : A -> Prop) (m : Sync A) : ssound Q m -> sound Q (lift m).
Proof.
  intros Hm k Hk w Hw. unfold lift. destruct (Hm w Hw) as [H1 H2].
  destruct (m w) as [a w1]. cbn [fst snd] in *. by apply Hk.
Qed.

Lemma sound_any {A} (Q : A -> Prop) (m : Async A) : sound Q m -> sound any m.
Proof. intros H k Hk w Hw. apply H; [|done]. intros a w1 Hw1 _. by apply Hk. Qed.

Lemma sound_throw {A} (Q : A -> Prop) e : sound Q (throw e).
Proof. intros k Hk w Hw. split; [done|]. split; [done|constructor]. Qed.

Lemma sound_await p : sound any (await p).
Proof.
  intros k Hk w Hw. split; [done|]. split; [|constructor].
  apply keeps_Await. intros vs w' Hw'. by apply Hk.
Qed.

Lemma sound_await_value x : sound any (await_value x).
Proof.
  destruct x as [p|]; [apply sound_await|].
  intros k Hk w Hw. split; [done|]. split; [|constructor].
  apply keeps_Await. intros vs w' Hw'. by apply Hk.
Qed.

Lemma sound_await_all ps : sound any (await_all ps).
Proof.
  intros k Hk w Hw. split; [done|]. split; [|constructor].
  apply keeps_Await. intros vs w' Hw'. by apply Hk.
Qed.

Lemma fin_kept v w : Inv w -> kept (fin v w).
Proof. intros Hw. split; [done|]. split; [done|constructor]. Qed.

Lemma suspended_keeps r t : keeps t -> all_keep (suspended r t).
Proof. intros H. destruct t; cbn; by repeat constructor. Qed.

Lemma sound_call body : sound any body -> sound any (call body).
Proof.
  intros Hb k Hk w Hw. unfold call, run.
  pose proof (Hb fin (fun v w' Hw' _ => fin_kept v w' Hw')
                (with_promises (fun ps => ps ++ [Pending]) w)
                (Inv_promises _ _ Hw)) as Hr.
  destruct (body fin _) as [[w1 t] fs]. destruct Hr as (H1 & H2 & H3).
  cbn [fst snd] in *.
  pose proof (Hk (length (promises w)) (finish (length (promises w)) t w1)
                (finish_Inv _ _ _ H1) I) as Hc.
  destruct (k _ _) as [[w2 t2] fs2]. destruct Hc as (H4 & H5 & H6).
  cbn [fst snd] in *. split; [done|]. split; [done|].
  cbn [snd]. apply Forall_app. split; [done|]. apply Forall_app.
  split; [by apply suspended_keeps|done].
Qed.

Lemma sound_map_m {A B} (P : A -> Prop) (f : A -> Async B) l :
  Forall P l -> (forall x, P x -> sound any (f x)) -> sound any (map_m f l).
Proof.
  intros Hl H. induction Hl as [|x l Hx Hl IH]; cbn [map_m].
  - by apply sound_ret.
  - eapply sound_bind; [by apply H|]. intros y _.
    eapply sound_bind; [apply IH|]. intros ys _. by apply sound_ret.
Qed.

Lemma sound_forEach {A} (P : A -> Prop) l (f : A -> Async unit) :
  Forall P l -> (forall x, P x -> sound any (f x)) -> sound any (forEach l f).
Proof.
  intros Hl H. induction Hl as [|x l Hx Hl IH]; cbn [forEach].
  - by apply sound_ret.
  - eapply sound_bind; [by apply H|]. intros _ _. exact IH.
Qed.

(** The event loop. *)

Lemma resume_kept r t w :
  Inv w -> keeps t -> Inv (resume r t w).1 /\ all_keep (resume r t w).2.
Proof.
  intros Hw H. destruct t as [v|e|ps k]; cbn [resume].
  - split; [done|constructor].
  - split; [done|constructor].
  - destruct (readiness w ps) as [|vs|e].
    + split; [done|]. by repeat constructor.
    + pose proof (proj1 (keeps_Await ps k) H vs w Hw) as H'.
      destruct (k vs w) as [[w1 t1] fs]. destruct H' as (H1 & H2 & H3).
      cbn [fst snd] in *. split.
      * by apply finish_Inv.
      * apply Forall_app. split; [by apply suspended_keeps|done].
    + split; [by apply settle_Inv|constructor].
Qed.

Lemma drain_kept fuel : forall rt,
  Inv (world rt) -> all_keep (pool rt) ->
  Inv (world (drain fuel rt)) /\ all_keep (pool (drain fuel rt)).
Proof.
  induction fuel as [|fuel IH]; intros rt Hw H; cbn [drain].
  - by split.
  - destruct (exited (world rt)); [by split|].
    destruct (pick_ready (world rt) [] (pool rt)) as [[[before [r t]] after]|] eqn:E;
      [|by split].
    apply pick_ready_split in E. cbn [app] in E. rewrite E in H.
    apply Forall_app in H as [Hb Ht]. apply Forall_cons in Ht as [Ht Ha].
    pose proof (resume_kept r t (world rt) Hw Ht) as [H1 H2].
    destruct (resume r t (world rt)) as [w1 fs]. cbn [fst snd] in *.
    apply IH; [done|]. cbn. apply Forall_app. split; [done|]. by apply Forall_app.
Qed.

Lemma invoke_kept body rt :
  sound any body -> Inv (world rt) -> all_keep (pool rt) ->
  Inv (world (invoke body rt)) /\ all_keep (pool (invoke body rt)).
Proof.
  intros Hb Hw H. unfold invoke.
  pose proof (sound_call body Hb (fun _ w => (w, Fin undefined, []))
                (fun v w' Hw' _ => fin_kept undefined w' Hw') (world rt) Hw) as Hc.
  destruct (call body _ _) as [[w1 t] fs]. destruct Hc as (H1 & H2 & H3).
  cbn [fst snd world pool] in *. split; [done|]. by apply Forall_app.
Qed.

End KeepingFacts.

(** ** The supervisor keeps its world orderly *)

Create HintDb orderly.

Section OrderlyFacts.

Context (pf : Platform) (muxConfig : MuxConfig).

Local Abbreviation orderly := (orderly pf muxConfig).
Local Abbreviation log_path_of := (log_path_of pf muxConfig).
Local Abbreviation log_paths := (log_paths pf muxConfig).
Local Abbreviation n_procs := (length (processes muxConfig)).

Lemma tree_kills_app tr tr' : tree_kills (tr ++ tr') = tree_kills tr ++ tree_kills tr'.
Proof. unfold tree_kills. apply omap_app. Qed.

Lemma orderly_emits es w :
  tree_kills es = [] -> filter (fun e => is_warning e) es = [] ->
  orderly w -> orderly (emits es w).
Proof.
  intros Hk Hq [A B C D E F G H]. split; cbn [procs spawned files trace emits]; try done.
  - by rewrite tree_kills_app, Hk, app_nil_r.
  - by rewrite filter_app, H, Hq.
Qed.

Lemma orderly_emit e w :
  tree_kills [e] = [] -> is_warning e = false -> orderly w -> orderly (emit e w).
Proof.
  intros Hk Hq. rewrite emit_as_emits. apply orderly_emits; [done|].
  rewrite filter_cons_False; [done|]. rewrite Hq. auto.
Qed.

Lemma orderly_promises f w : orderly w -> orderly (with_promises f w).
Proof. intros [A B C D E F G H]. by split. Qed.
Lemma orderly_tails f w : orderly w -> orderly (with_tails f w).
Proof. intros [A B C D E F G H]. by split. Qed.
Lemma orderly_cells f w : orderly w -> orderly (with_cells f w).
Proof. intros [A B C D E F G H]. by split. Qed.
Lemma orderly_key_waiters f w : orderly w -> orderly (with_key_waiters f w).
Proof. intros [A B C D E F G H]. by split. Qed.
Lemma orderly_choice_waiters f w : orderly w -> orderly (with_choice_waiters f w).
Proof. intros [A B C D E F G H]. by split. Qed.
Lemma orderly_ui_stopped b w : orderly w -> orderly (with_ui_stopped b w).
Proof. intros [A B C D E F G H]. by split. Qed.
Lemma orderly_main_stopped b w : orderly w -> orderly (with_main_stopped b w).
Proof. intros [A B C D E F G H]. by split. Qed.
Lemma orderly_now t w : orderly w -> orderly (with_now t w).
Proof. intros [A B C D E F G H]. by split. Qed.
Lemma orderly_exited b w : orderly w -> orderly (with_exited b w).
Proof. intros [A B C D E F G H]. by split. Qed.

Lemma orderly_valid i w :
  orderly w -> i < n_procs -> exists P, procs w !! i = Some P.
Proof.
  intros [A _ _ _ _ _ _ _] Hi. apply lookup_lt_is_Some_2.
  by rewrite <- (length_fmap processConfig), A.
Qed.

Lemma orderly_log_path i w P :
  orderly w -> procs w !! i = Some P -> log_path_of (name P) ∈ log_paths.
Proof.
  intros [A B _ _ _ _ _ _] H. unfold log_paths. apply list_elem_of_fmap.
  exists (processConfig P). split.
  - f_equal. exact (proj1 (Forall_lookup _ _) B i P H).
  - rewrite <- A. apply list_elem_of_fmap. exists P. split; [done|].
    by eapply list_elem_of_lookup_2.
Qed.

Lemma concat_push (ls : list (list nat)) : forall i l h,
  ls !! i = Some l -> concat (<[i := l ++ [h]]> ls) ≡ₚ h :: concat ls.
Proof.
  induction ls as [|x ls IH]; intros [|i] l h H; try done.
  - cbn in H. injection H as ->. cbn. rewrite <- app_assoc. cbn.
    symmetry. apply Permutation_middle.
  - cbn in H. cbn. rewrite (IH _ _ _ H). symmetry. apply Permutation_middle.
Qed.

Lemma log_file_cached w P :
  Forall (fun P => forall l, logPath P = Some l -> l = log_path_of (name P)) (procs w) ->
  P ∈ procs w -> log_file pf muxConfig P = log_path_of (name P).
Proof.
  intros C H. unfold log_file. destruct (logPath P) as [l|] eqn:E; [|done].
  exact (proj1 (Forall_forall _ _) C P H l E).
Qed.

Lemma touch_events_quiet P :
  tree_kills (touch_events pf muxConfig P) = []
  /\ filter (fun e => is_warning e) (touch_events pf muxConfig P) = [].
Proof. unfold touch_events. by destruct (logPath P). Qed.

(** [getLogPath] on a configured process. *)
Lemma orderly_getLogPath i w :
  i < n_procs -> orderly w ->
  orderly (MuxProcess.getLogPath pf muxConfig i w).2
  /\ (MuxProcess.getLogPath pf muxConfig i w).1 ∈ log_paths.
Proof.
  intros Hi Hw. destruct (orderly_valid i w Hw Hi) as [P HP].
  pose proof (orderly_log_path i w P Hw HP) as Hl.
  assert (HPin : P ∈ procs w) by (by eapply list_elem_of_lookup_2).
  rewrite (getLogPath_eq _ _ _ _ _ HP). cbn [fst snd].
  destruct Hw as [A B C D E F G H].
  rewrite (log_file_cached w P C HPin). split; [|done].
  destruct (touch_events_quiet P) as [T1 T2].
  split; cbn [procs spawned files trace].
  - rewrite list_fmap_insert. cbn. rewrite <- A. apply list_insert_id.
    by rewrite list_lookup_fmap, HP.
  - apply Forall_insert; [done|]. exact (proj1 (Forall_forall _ _) B P HPin).
  - apply Forall_insert; [done|]. cbn. by intros l [= <-].
  - rewrite list_fmap_insert. cbn. rewrite list_insert_id; [done|].
    by rewrite list_lookup_fmap, HP.
  - apply Forall_insert; [done|]. exact (proj1 (Forall_forall _ _) E P HPin).
  - intros path Hp. destruct (logPath P); [by apply F|].
    destruct (decide (log_path_of (name P) = path)) as [<-|Hne]; [done|].
    rewrite lookup_insert_ne in Hp by done. by apply F.
  - by rewrite tree_kills_app, T1, app_nil_r.
  - by rewrite filter_app, H, T2.
Qed.

Lemma command_events_quiet P c h :
  tree_kills (command_events pf muxConfig P c h) = []
  /\ filter (fun e => is_warning e) (command_events pf muxConfig P c h) = [].
Proof.
  unfold command_events. destruct (touch_events_quiet P) as [T1 T2].
  rewrite !tree_kills_app, !filter_app, T1, T2. by split.
Qed.

(** [runCommand] with a command, on a configured process: the child is
    tracked by the process and writes to its log file. *)
Lemma orderly_runCommand i c w :
  i < n_procs -> orderly w ->
  orderly (MuxProcess.runCommand pf muxConfig i (Some c) w).2.
Proof.
  intros Hi Hw. destruct (orderly_valid i w Hw Hi) as [P HP].
  pose proof (orderly_log_path i w P Hw HP) as Hl.
  assert (HPin : P ∈ procs w) by (by eapply list_elem_of_lookup_2).
  rewrite (runCommand_eq _ _ _ _ _ _ HP). cbn [snd].
  destruct Hw as [A B C D E F G H].
  rewrite (log_file_cached w P C HPin).
  destruct (command_events_quiet P c (length (spawned w))) as [T1 T2].
  split; cbn [procs spawned files trace].
  - rewrite list_fmap_insert. cbn. rewrite <- A. apply list_insert_id.
    by rewrite list_lookup_fmap, HP.
  - apply Forall_insert; [done|]. exact (proj1 (Forall_forall _ _) B P HPin).
  - apply Forall_insert; [done|]. cbn. by intros l [= <-].
  - rewrite list_fmap_insert. cbn. rewrite length_app. cbn [length].
    rewrite Nat.add_1_r, seq_S. cbn [Nat.add].
    rewrite concat_push by (by rewrite list_lookup_fmap, HP).
    rewrite D. apply Permutation_cons_append.
  - assert (E' : Forall (fun P0 => Forall (fun h => exists c0,
                 (spawned w ++ [{| pid := next_pid w;
                                   c_data := Some (log_path_of (name P));
                                   c_exit := Some (log_path_of (name P),
                                                   length (promises w));
                                   c_code := None |}]) !! h = Some c0
                 /\ writes_to pf muxConfig P0 c0) (children P0)) (procs w)).
    { eapply Forall_impl; [exact E|]. intros P0 HP0. cbn beta in HP0.
      eapply Forall_impl; [exact HP0|]. intros h (c0 & Hc0 & Hw0).
      exists c0. split; [|done]. by apply lookup_app_l_Some. }
    apply Forall_insert; [exact E'|]. cbn. apply Forall_app. split.
    + exact (proj1 (Forall_forall _ _) E' P HPin).
    + constructor; [|constructor]. eexists. split.
      * rewrite lookup_app_r by lia. by rewrite Nat.sub_diag.
      * split; cbn; [done|]. by eexists.
  - intros path Hp.
    destruct (decide (log_path_of (name P) = path)) as [<-|Hne]; [done|].
    rewrite lookup_insert_ne in Hp by done. by apply F.
  - rewrite tree_kills_app, T1, app_nil_r, fmap_app.
    eapply Forall_impl; [exact G|]. intros p Hp. apply elem_of_app. by left.
  - by rewrite filter_app, H, T2.
Qed.

Lemma kill_events_spawned cs w :
  Forall (fun p => p ∈ pid <$> spawned w) (tree_kills (kill_events cs w))
  /\ filter (fun e => is_warning e) (kill_events cs w) = [].
Proof.
  unfold kill_events. induction cs as [|h cs [IH1 IH2]]; [by split|].
  rewrite fmap_cons, filter_cons.
  destruct (decide (pid (child_at h w) ≠ 0%Z)) as [Hp|Hp]; [|by split].
  rewrite fmap_cons. split.
  - cbn. constructor; [|exact IH1]. unfold child_at in *.
    destruct (spawned w !! h) as [c|] eqn:E; [|done]. cbn.
    apply list_elem_of_fmap. exists c. split; [done|].
    by eapply list_elem_of_lookup_2.
  - rewrite filter_cons_False by (cbn; auto). exact IH2.
Qed.

(** The loop of [stop] signals spawned children only. *)
Lemma orderly_kill_children cs w :
  orderly w -> orderly (MuxProcess.kill_children cs w).2.
Proof.
  intros Hw. rewrite kill_children_eq. cbn [snd].
  destruct (kill_events_spawned cs w) as [K1 K2].
  destruct Hw as [A B C D E F G H].
  split; cbn [procs spawned files trace emits]; try done.
  - rewrite tree_kills_app. by apply Forall_app.
  - by rewrite filter_app, H, K2.
Qed.

Lemma orderly_write path (f : string -> string) w :
  path ∈ log_paths -> orderly w ->
  orderly (with_files (fun fs => <[path := f (default EmptyString (fs !! path))]> fs) w).
Proof.
  intros Hp [A B C D E F G H]. split; cbn [procs spawned files trace with_files]; try done.
  intros q Hq. destruct (decide (path = q)) as [<-|Hne]; [done|].
  rewrite lookup_insert_ne in Hq by done. by apply F.
Qed.

Lemma orderly_truncateSync l w :
  l ∈ log_paths -> orderly w -> orderly (truncateSync l w).2.
Proof.
  intros Hl Hw. unfold truncateSync, modify. cbn [snd].
  apply orderly_emit; [done..|].
  exact (orderly_write l (fun _ => EmptyString) w Hl Hw).
Qed.

(** The file a spawned child writes to is the log file of a configured
    process. *)
Lemma orderly_stream h c w :
  orderly w -> spawned w !! h = Some c ->
  exists P, P ∈ procs w /\ h ∈ children P /\ writes_to pf muxConfig P c.
Proof.
  intros Hw Hc. pose proof (o_tracked _ _ _ Hw) as D.
  assert (Hh : h ∈ concat (children <$> procs w)).
  { rewrite D. apply elem_of_seq. split; [lia|]. cbn.
    by eapply lookup_lt_Some. }
  destruct (proj1 (in_concat _ _) (proj1 (list_elem_of_In _ _) Hh))
    as (l & Hin%list_elem_of_In & Hl%list_elem_of_In).
  apply list_elem_of_fmap in Hin as (P & -> & HP).
  exists P. split; [done|]. split; [done|].
  pose proof (proj1 (Forall_forall _ _) (o_streams _ _ _ Hw) P HP) as S.
  destruct (proj1 (Forall_forall _ _) S h Hl) as (c' & Hc' & W).
  by simplify_eq.
Qed.

Lemma orderly_set_c_code n h w :
  orderly w -> orderly (with_spawned (alter (set_c_code n) h) id w).
Proof.
  intros [A B C D E F G H].
  split; cbn [procs spawned files trace with_spawned]; try done.
  - by rewrite length_alter.
  - eapply Forall_impl; [exact E|]. intros P HP. cbn beta in HP.
    eapply Forall_impl; [exact HP|]. intros h0 (c & Hc & W).
    destruct (decide (h = h0)) as [<-|Hne].
    + exists (set_c_code n c). split; [by rewrite list_lookup_alter_eq, Hc|done].
    + exists c. split; [by rewrite list_lookup_alter_ne|done].
  - rewrite (list_fmap_alter _ _ id) by (by apply Forall_forall).
    by rewrite list_alter_id.
Qed.

Lemma orderly_onData h data w : orderly w -> orderly (MuxProcess.onData h data w).
Proof.
  intros Hw. unfold MuxProcess.onData, child_at.
  destruct (spawned w !! h) as [c|] eqn:Hc; [|done]. cbn.
  destruct (c_code c); [done|]. destruct (c_data c) as [stream|] eqn:Hd; [|done].
  destruct (orderly_stream h c w Hw Hc) as (P & HP & _ & W1 & _).
  rewrite Hd in W1. injection W1 as ->.
  apply (orderly_write _ (fun s => s +:+ data)); [|done].
  destruct (list_elem_of_lookup_1 _ _ HP) as [i Hi].
  by eapply orderly_log_path.
Qed.

Lemma orderly_onExit h n w : orderly w -> orderly (MuxProcess.onExit h n w).
Proof.
  intros Hw. unfold MuxProcess.onExit, child_at.
  destruct (spawned w !! h) as [c|] eqn:Hc; [|by apply orderly_set_c_code].
  cbn [default from_option id].
  destruct (c_code c); [done|].
  destruct (c_exit c) as [[stream r]|] eqn:Hd; [|by apply orderly_set_c_code].
  destruct (orderly_stream h c w Hw Hc) as (P & HP & _ & _ & p & W2).
  rewrite Hd in W2. injection W2 as -> ->.
  apply settle_Inv; [apply orderly_promises|].
  apply (orderly_write _ (fun s => s +:+ _)); [|by apply orderly_set_c_code].
  destruct (list_elem_of_lookup_1 _ _ HP) as [i Hi].
  by eapply orderly_log_path.
Qed.

Local Abbreviation osound := (sound orderly any).
Local Abbreviation ossound := (ssound orderly any).

Lemma ossound_frame (f : World -> World) :
  (forall w, orderly w -> orderly (f w)) -> ossound (modify f).
Proof. intros H. by apply ssound_modify. Qed.

Lemma ossound_logger l msg :
  is_warning (ELogger l msg) = false -> ossound (logger l msg).
Proof. intros H. apply ossound_frame. intros w. by apply orderly_emit. Qed.

Lemma ossound_new_Tail p n : ossound (new_Tail p n).
Proof.
  intros w Hw. split; [|done]. cbn [snd new_Tail].
  apply orderly_emit; [done..|]. by apply orderly_tails.
Qed.

Lemma ossound_on_line t h : ossound (on_line t h).
Proof. apply ossound_frame. intros w. apply orderly_tails. Qed.

Lemma ossound_unwatch t : ossound (unwatch t).
Proof.
  apply ossound_frame. intros w Hw. apply orderly_emit; [done..|].
  by apply orderly_tails.
Qed.

Lemma ossound_new_cell : ossound new_cell.
Proof. intros w Hw. split; [|done]. by apply orderly_cells. Qed.

Lemma ossound_set_cell c t : ossound (set_cell c t).
Proof. apply ossound_frame. intros w. apply orderly_cells. Qed.

Lemma ossound_set_startPromise i p : ossound (update_this i (set_startPromise p)).
Proof.
  apply ossound_frame. intros w [A B C D E F G H].
  split; cbn [procs spawned files trace with_procs]; try done.
  - rewrite (list_fmap_alter _ _ id) by (by apply Forall_forall).
    by rewrite list_alter_id.
  - by apply Forall_alter.
  - by apply Forall_alter.
  - rewrite (list_fmap_alter _ _ id) by (by apply Forall_forall).
    by rewrite list_alter_id.
  - by apply Forall_alter.
Qed.

Lemma ossound_onChoicePrompt p items : ossound (onChoicePrompt p items).
Proof.
  intros w Hw. split; [|done]. cbn.
  apply orderly_choice_waiters, orderly_emit; [done..|]. by apply orderly_promises.
Qed.

Lemma ossound_waitForNextKey : ossound waitForNextKey.
Proof.
  intros w Hw. split; [|done]. cbn.
  apply orderly_key_waiters, orderly_emit; [done..|]. by apply orderly_promises.
Qed.

Lemma ossound_kill_children cs : ossound (MuxProcess.kill_children cs).
Proof. intros w Hw. split; [by apply orderly_kill_children|done]. Qed.

Lemma ossound_getLogPath i :
  i < n_procs ->
  ssound orderly (fun l => l ∈ log_paths) (MuxProcess.getLogPath pf muxConfig i).
Proof. intros Hi w Hw. by apply orderly_getLogPath. Qed.

Lemma ossound_runCommand i c :
  i < n_procs -> ossound (MuxProcess.runCommand pf muxConfig i (Some c)).
Proof. intros Hi w Hw. split; [by apply orderly_runCommand|done]. Qed.

Lemma ossound_truncateSync l : l ∈ log_paths -> ossound (truncateSync l).
Proof. intros Hl w Hw. split; [by apply orderly_truncateSync|done]. Qed.

Lemma ossound_processes_of :
  ssound orderly (Forall (fun i => i < n_procs)) (gets MuxUI.processes_of).
Proof.
  apply ssound_gets. intros w [A _ _ _ _ _ _ _]. unfold MuxUI.processes_of.
  apply Forall_seq. intros j Hj.
  rewrite <- A, length_fmap. lia.
Qed.

#[local] Hint Resolve ossound_new_Tail ossound_on_line ossound_unwatch
  ossound_new_cell ossound_set_cell ossound_set_startPromise
  ossound_onChoicePrompt ossound_waitForNextKey ossound_kill_children
  ossound_runCommand : orderly.

Ltac orderly_step :=
  lazymatch goal with
  | |- ssound _ _ (sret _) => apply (ssound_ret orderly any); exact I
  | |- ssound _ _ (gets _) => apply (ssound_gets orderly any); intros; exact I
  | |- ssound _ _ new_promise => apply (ssound_new_promise orderly orderly_promises)
  | |- ssound _ _ (Promise_resolve _) =>
      apply (ssound_Promise_resolve orderly orderly_promises)
  | |- ssound _ _ (logger _ _) => apply ossound_logger; reflexivity
  | |- ssound _ _ (sbind _ _) => eapply (ssound_bind orderly); [|intros ? _]
  | |- ssound _ _ (match ?x with _ => _ end) => destruct x
  | |- sound _ _ (ret _) => apply (sound_ret orderly any); exact I
  | |- sound _ _ (throw _) =>
      first [apply (sound_throw orderly any) | apply (sound_throw orderly)]
  | |- sound _ _ (bind _ _) => eapply (sound_bind orderly); [|intros ? _]
  | |- sound _ _ (lift _) => apply (sound_lift orderly)
  | |- sound _ _ (await _) => apply (sound_await orderly)
  | |- sound _ _ (await_value _) => apply (sound_await_value orderly)
  | |- sound _ _ (await_all _) => apply (sound_await_all orderly)
  | |- sound _ _ (call _) => apply (sound_call orderly orderly_promises)
  | |- sound _ _ (match ?x with _ => _ end) => destruct x
  | |- _ => solve [eauto with orderly]
  end.

Ltac orderly_tac := cbv zeta; repeat (orderly_step; cbv zeta).

Lemma ossound_getLogStream i n :
  i < n_procs -> ossound (MuxProcess.getLogStream pf muxConfig i n).
Proof.
  intros Hi. unfold MuxProcess.getLogStream.
  eapply (ssound_bind orderly); [by apply ossound_getLogPath|]. intros l _.
  orderly_tac.
Qed.

Lemma sound_stop i : i < n_procs -> osound (MuxProcess.stop pf muxConfig i).
Proof. intros Hi. unfold MuxProcess.stop. orderly_tac. Qed.

Lemma sound_install i : i < n_procs -> osound (MuxProcess.install pf muxConfig i).
Proof.
  intros Hi. unfold MuxProcess.install.
  eapply (sound_bind orderly); [orderly_tac|]. intros n _.
  eapply (sound_bind orderly);
    [apply (sound_lift orderly), (ossound_getLogPath i Hi)|]. intros l _.
  eapply (sound_bind orderly); [orderly_tac|]. intros _ _.
  eapply (sound_bind orderly);
    [apply (sound_lift orderly), (ossound_getLogPath i Hi)|]. intros l' Hl.
  eapply (sound_bind orderly);
    [apply (sound_lift orderly), (ossound_truncateSync l' Hl)|]. intros _ _.
  orderly_tac.
Qed.

Lemma sound_start i : i < n_procs -> osound (MuxProcess.start pf muxConfig i).
Proof. intros Hi. unfold MuxProcess.start. orderly_tac. Qed.

#[local] Hint Resolve ossound_getLogStream sound_stop sound_install sound_start
  : orderly.

Lemma sound_never : osound never.
Proof. unfold never. orderly_tac. Qed.

Lemma sound_stop_all (ps : list nat) :
  Forall (fun i => i < n_procs) ps ->
  osound (map_m (fun i => call (MuxProcess.stop pf muxConfig i)) ps).
Proof.
  intros H. eapply (sound_map_m orderly); [exact H|]. intros i Hi. cbv beta.
  orderly_tac.
Qed.

Lemma sound_die : osound (MuxUI.die pf muxConfig).
Proof.
  unfold MuxUI.die.
  eapply (sound_bind orderly).
  { apply (sound_lift orderly), ossound_frame. intros w. apply orderly_ui_stopped. }
  intros _ _. eapply (sound_bind orderly); [orderly_tac|]. intros t0 _.
  eapply (sound_bind orderly); [orderly_tac|]. intros _ _.
  eapply (sound_bind orderly);
    [apply (sound_lift orderly), ossound_processes_of|]. intros ps Hps.
  eapply (sound_bind orderly); [by apply sound_stop_all|]. intros rs _.
  eapply (sound_bind orderly); [orderly_tac|]. intros _ _.
  eapply (sound_bind orderly); [orderly_tac|]. intros me _.
  eapply (sound_bind orderly); [orderly_tac|]. intros _ _.
  eapply (sound_bind orderly).
  { apply (sound_lift orderly), ossound_frame. intros w. by apply orderly_emit. }
  intros _ _. orderly_tac.
Qed.

Lemma sound_initialize : osound (MuxUI.initialize pf muxConfig).
Proof.
  unfold MuxUI.initialize.
  eapply (sound_bind orderly); [orderly_tac|]. intros t0 _.
  eapply (sound_bind orderly);
    [apply (sound_lift orderly), ossound_processes_of|]. intros ps Hps.
  eapply (sound_bind orderly).
  { eapply (sound_map_m orderly); [exact Hps|]. intros i Hi. cbv beta.
    orderly_tac. }
  intros rs _. eapply (sound_bind orderly); [orderly_tac|]. intros _ _.
  eapply (sound_bind orderly); [orderly_tac|]. intros t1 _.
  eapply (sound_bind orderly); [orderly_tac|]. intros _ _.
  eapply (sound_bind orderly);
    [apply (sound_lift orderly), ossound_processes_of|]. intros ps' Hps'.
  eapply (sound_bind orderly).
  { eapply (sound_forEach orderly); [exact Hps'|]. intros i Hi. cbv beta.
    orderly_tac. }
  intros _ _. orderly_tac.
Qed.

Lemma ossound_unwatch_cell c : ossound (unwatch_cell c).
Proof. unfold unwatch_cell. orderly_tac. Qed.

#[local] Hint Resolve sound_never sound_die sound_initialize sound_stop_all
  ossound_unwatch_cell : orderly.

Lemma ossound_get_action a :
  valid_action muxConfig a ->
  ssound orderly (sound_action pf muxConfig) (MuxUI.get_action pf muxConfig a).
Proof.
  intros Ha. destruct a; cbn [MuxUI.get_action]; cbn in Ha.
  - apply (ssound_ret orderly). split; cbn [act_start act_stop]; orderly_tac.
  - apply (ssound_ret orderly). split; cbn [act_start act_stop].
    + eapply (sound_bind orderly); [orderly_tac|]. intros _ _.
      eapply (sound_bind orderly);
        [apply (sound_lift orderly), ossound_processes_of|]. intros ps Hps.
      eapply (sound_bind orderly); [by apply sound_stop_all|]. intros rs _.
      orderly_tac.
    + orderly_tac.
  - eapply (ssound_bind orderly); [apply ossound_new_cell|]. intros c _.
    apply (ssound_ret orderly). split; cbn [act_start act_stop]; orderly_tac.
  - eapply (ssound_bind orderly); [apply ossound_new_cell|]. intros c _.
    apply (ssound_ret orderly). split; cbn [act_start act_stop]; orderly_tac.
  - eapply (ssound_bind orderly); [apply ossound_new_cell|]. intros c _.
    apply (ssound_ret orderly). split; cbn [act_start act_stop]; orderly_tac.
Qed.

Lemma sound_enter node :
  (forall a, getAction node = Some a -> valid_action muxConfig a) ->
  sound orderly (fun e => osound e.2) (MuxUI.enter pf muxConfig node).
Proof.
  intros Hn. unfold MuxUI.enter. destruct (getAction node) as [a|].
  - eapply (sound_bind orderly);
      [apply (sound_lift orderly), ossound_get_action; by apply Hn|].
    intros act [Hs Hp].
    eapply (sound_bind orderly); [by apply (sound_call orderly orderly_promises)|].
    intros sp _. apply (sound_ret orderly). cbn [snd].
    by apply (sound_call orderly orderly_promises).
  - eapply (sound_bind orderly); [orderly_tac|]. intros sp _.
    apply (sound_ret orderly). cbn [snd]. orderly_tac.
Qed.

Lemma valid_deref g t node :
  valid_graph muxConfig g -> deref g t = Some node ->
  forall a, getAction node = Some a -> valid_action muxConfig a.
Proof.
  intros Hg Hd. destruct t as [n|f]; cbn in Hd.
  - exact (proj1 (Forall_lookup _ _) Hg n node Hd).
  - injection Hd as <-. by intros a [=].
Qed.

Lemma sound_handleNextState fuel : forall g currentState,
  valid_graph muxConfig g ->
  osound (MuxUI.handleNextState pf muxConfig fuel g currentState).
Proof.
  induction fuel as [|fuel IH]; intros g currentState Hg;
    cbn [MuxUI.handleNextState].
  - orderly_tac.
  - eapply (sound_bind orderly); [orderly_tac|]. intros stopped _.
    destruct stopped; [orderly_tac|].
    destruct (currentState ≫= deref g) as [node|] eqn:Hn; [|orderly_tac].
    assert (Hv : forall a, getAction node = Some a -> valid_action muxConfig a).
    { destruct currentState as [t|]; [|done]. by eapply valid_deref. }
    eapply (sound_bind orderly); [orderly_tac|]. intros _ _.
    eapply (sound_bind orderly); [by apply sound_enter|]. intros entered Hstop.
    cbv zeta.
    destruct (onActionComplete node), (onAnyKeypress node), (menu node);
      orderly_tac; solve [exact Hstop | by apply IH].
Qed.

Lemma sound_ui_start fuel g initialState :
  valid_graph muxConfig g ->
  osound (MuxUI.start pf muxConfig fuel g initialState).
Proof.
  intros Hg. unfold MuxUI.start.
  pose proof (fun c => sound_handleNextState fuel g c Hg). orderly_tac.
Qed.

Lemma sound_exit_tail :
  osound (p <- call (MuxUI.die pf muxConfig);;
          await p;;;
          logger LDebug "Exiting my process...";;;
          modify (fun w' => with_exited true (emit EProcessExit w'));;;
          ret undefined).
Proof.
  orderly_tac. apply ossound_frame. intros w Hw.
  apply orderly_exited. by apply orderly_emit.
Qed.

Lemma sound_cleanExit : osound (Main.cleanExit pf muxConfig).
Proof.
  intros k Hk w Hw. rewrite cleanExit_eq. destruct (main_stopped w).
  - by apply Hk.
  - apply sound_exit_tail; [done|].
    apply orderly_emit; [done..|]. by apply orderly_main_stopped.
Qed.

Lemma orderly_resolve_all ps v w : orderly w -> orderly (resolve_all ps v w).
Proof.
  unfold resolve_all. revert w. induction ps as [|p ps IH]; intros w Hw; [done|].
  cbn [foldl]. apply IH. apply settle_Inv; [apply orderly_promises|done].
Qed.

Lemma handle_orderly i rt :
  orderly_rt pf muxConfig rt -> orderly_rt pf muxConfig (Main.handle pf muxConfig i rt).
Proof.
  intros [Hw Hp]. destruct i; cbn [Main.handle].
  - split; [by apply orderly_onData|done].
  - split; [by apply orderly_onExit|done].
  - repeat case_match; try by split.
    + split; [|done]. cbn [world]. unfold perform.
      apply ossound_logger; done.
    + split; [|done]. cbn [world]. unfold perform, MuxUI.handleProcessLog.
      assert (S : ossound (n <~ gets (fun w => name (this i w));;
                           logger LLog (chalk_yellow pf n +:+ ": " +:+ line)))
        by orderly_tac.
      by apply S.
  - set (rt1 := if decide (key = "CTRL_C") then _ else rt).
    assert (H1 : orderly_rt pf muxConfig rt1).
    { subst rt1. destruct (decide (key = "CTRL_C")); [|by split].
      apply (invoke_kept orderly orderly_promises); [apply sound_cleanExit| |done].
      cbn [world]. unfold perform. by apply ossound_logger. }
    destruct H1 as [A B]. split; [|done]. cbn [world].
    apply orderly_key_waiters. by apply orderly_resolve_all.
  - destruct (choice_waiters (world rt)) as [|p rest]; [by split|].
    split; [|done]. cbn [world]. apply orderly_choice_waiters.
    apply settle_Inv; [apply orderly_promises|done].
  - destruct (decide _); [|by split].
    apply (invoke_kept orderly orderly_promises); [apply sound_cleanExit| |done].
    cbn [world]. by apply orderly_emit.
  - split; [|done]. cbn [world]. by apply orderly_now.
Qed.

Lemma deliver_orderly fuel i rt :
  orderly_rt pf muxConfig rt -> orderly_rt pf muxConfig (Main.deliver pf muxConfig fuel i rt).
Proof.
  intros H. unfold Main.deliver. destruct (exited (world rt)); [done|].
  destruct (handle_orderly i rt H) as [A B].
  by apply (drain_kept orderly orderly_promises).
Qed.

Lemma deliver_all_orderly fuel inputs : forall rt,
  orderly_rt pf muxConfig rt ->
  orderly_rt pf muxConfig (Main.deliver_all pf muxConfig fuel inputs rt).
Proof.
  unfold Main.deliver_all.
  induction inputs as [|i inputs IH]; intros rt H; cbn [foldl]; [done|].
  apply IH. by apply deliver_orderly.
Qed.

Lemma graph_valid ps :
  length ps = n_procs -> valid_graph muxConfig (buildStateGraph ps).1.
Proof.
  intros Hn. apply Forall_lookup. intros x node H a Ha.
  destruct (graph_nodes ps x node H)
    as [[-> ->]|[[-> ->]|[[-> ->]|(j & p & Hp & Hc)]]]; try done.
  - by injection Ha as <-.
  - by injection Ha as <-.
  - pose proof (lookup_lt_Some _ _ _ Hp) as Hj. rewrite Hn in Hj.
    destruct Hc as [[-> ->]|[[-> ->]|[[-> ->]|[-> ->]]]];
      cbn in Ha; try done; by injection Ha as <-.
Qed.

Lemma orderly_initial first_pid me :
  orderly (Main.initial_world muxConfig first_pid me).
Proof.
  split; cbn [procs spawned files trace Main.initial_world].
  - rewrite <- list_fmap_compose. by apply list_fmap_id.
  - by apply Forall_fmap, Forall_true.
  - by apply Forall_fmap, Forall_true.
  - cbn. rewrite <- list_fmap_compose.
    induction (processes muxConfig) as [|c cs IH]; [done|]. exact IH.
  - apply Forall_fmap, Forall_true. intros c. constructor.
  - intros path [x Hx]. by rewrite lookup_empty in Hx.
  - constructor.
  - done.
Qed.

Lemma main_orderly fuel first_pid me :
  orderly_rt pf muxConfig (Main.main pf muxConfig fuel first_pid me).
Proof.
  unfold Main.main. cbv zeta.
  pose proof (graph_valid (procs (Main.initial_world muxConfig first_pid me))) as Hg.
  destruct (buildStateGraph _) as [g initialState]. cbn [fst] in Hg.
  apply (drain_kept orderly orderly_promises);
    apply (invoke_kept orderly orderly_promises);
    try (apply sound_ui_start, Hg; cbn; by rewrite length_fmap);
    try apply orderly_initial; constructor.
Qed.

(** Every world that an execution of the supervisor reaches. *)
Lemma reachable_orderly fuel first_pid me fuel' inputs :
  orderly (world (Main.deliver_all pf muxConfig fuel' inputs
                    (Main.main pf muxConfig fuel first_pid me))).
Proof.
  by destruct (deliver_all_orderly fuel' inputs _ (main_orderly fuel first_pid me)).
Qed.

(** Every child that was spawned is tracked, by one process and once: the
    handles of all processes together are the children spawned so far. *)
Theorem children_are_the_spawned fuel first_pid me fuel' inputs :
  let w := world (Main.deliver_all pf muxConfig fuel' inputs
                    (Main.main pf muxConfig fuel first_pid me)) in
  processConfig <$> procs w = processes muxConfig
  /\ concat (handles w) ≡ₚ seq 0 (length (spawned w)).
Proof.
  intros w. destruct (reachable_orderly fuel first_pid me fuel' inputs)
    as [A _ _ D _ _ _ _]. by split.
Qed.

(** The output and the exit marker of a child go to the log file of the
    process that tracks it, and that file is the one derived from the
    configured name of the process. *)
Theorem output_goes_to_own_log fuel first_pid me fuel' inputs :
  let w := world (Main.deliver_all pf muxConfig fuel' inputs
                    (Main.main pf muxConfig fuel first_pid me)) in
  Forall (fun P =>
            name P = cfg_name (processConfig P)
            /\ (forall l, logPath P = Some l -> l = log_path_of (name P))
            /\ Forall (fun h => exists c p,
                          spawned w !! h = Some c
                          /\ c_data c = Some (log_path_of (name P))
                          /\ c_exit c = Some (log_path_of (name P), p))
                  (children P))
         (procs w).
Proof.
  intros w. destruct (reachable_orderly fuel first_pid me fuel' inputs)
    as [_ B C _ E _ _ _]. fold w in B, C, E.
  apply Forall_forall. intros P HP. split; [|split].
  - exact (proj1 (Forall_forall _ _) B P HP).
  - exact (proj1 (Forall_forall _ _) C P HP).
  - eapply Forall_impl; [exact (proj1 (Forall_forall _ _) E P HP)|].
    intros h (c & Hc & Hd & p & He). by exists c, p.
Qed.

(** The supervisor signals nothing but the children it has spawned. *)
Theorem kills_only_spawned fuel first_pid me fuel' inputs :
  let w := world (Main.deliver_all pf muxConfig fuel' inputs
                    (Main.main pf muxConfig fuel first_pid me)) in
  Forall (fun p => p ∈ pid <$> spawned w) (tree_kills (trace w)).
Proof.
  intros w. by destruct (reachable_orderly fuel first_pid me fuel' inputs).
Qed.

(** The supervisor writes no file but the log files of the configured
    processes. *)
Theorem writes_only_logs fuel first_pid me fuel' inputs :
  let w := world (Main.deliver_all pf muxConfig fuel' inputs
                    (Main.main pf muxConfig fuel first_pid me)) in
  map_Forall (fun path _ => path ∈ log_paths) (files w).
Proof.
  intros w. destruct (reachable_orderly fuel first_pid me fuel' inputs)
    as [_ _ _ _ _ F _ _]. intros path x Hx. apply F. by exists x.
Qed.

(** [runCommand] is never called without a command: the branch that warns
    and resolves with 0 is not taken in any execution. *)
Theorem never_without_command fuel first_pid me fuel' inputs :
  let w := world (Main.deliver_all pf muxConfig fuel' inputs
                    (Main.main pf muxConfig fuel first_pid me)) in
  filter (fun e => is_warning e) (trace w) = [].
Proof.
  intros w. by destruct (reachable_orderly fuel first_pid me fuel' inputs).
Qed.

End OrderlyFacts.

(** ** The older MuxProcess *)

Section LegacyFacts.

Context (pf : Platform) (muxConfig : MuxConfig).

Lemma calm_legacy_runCommand i c : scalm (Legacy.runCommand pf muxConfig i c).
Proof.
  unfold Legacy.runCommand. pose proof (calm_getLogPath pf muxConfig). calm_tac.
Qed.

Lemma startPromise_look i w w' :
  calm w w' -> startPromise (this i w') = startPromise (this i w).
Proof.
  intros C. pose proof (f_equal (fun x => x.1.1 !! i) C) as H.
  cbn [look fst snd] in H. unfold run_promises in H.
  rewrite !list_lookup_fmap in H. unfold this.
  destruct (procs w' !! i), (procs w !! i); cbn in *; congruence.
Qed.

(** The older [stop] refuses a process that has no run promise: it throws
    and does nothing else.  Installing is not starting: after [install],
    [stop] still throws. *)
Theorem legacy_stop_not_started i w :
  startPromise (this i w) = None ->
  run (Legacy.stop pf muxConfig i) w = (w, Fail "Error: Not started yet", [])
  /\ let w' := (run (Legacy.install pf muxConfig i) w).1.1 in
     run (Legacy.stop pf muxConfig i) w' = (w', Fail "Error: Not started yet", []).
Proof.
  assert (G : forall w0, startPromise (this i w0) = None ->
            run (Legacy.stop pf muxConfig i) w0
            = (w0, Fail "Error: Not started yet", [])).
  { intros w0 H0. unfold Legacy.stop, run.
    unfold bind at 1, lift at 1, gets at 1. by rewrite H0. }
  intros Hs. split; [by apply G|]. intros w'. apply G. subst w'.
  unfold Legacy.install, run.
  cbv beta iota zeta delta [bind lift gets await].
  destruct (calm_legacy_runCommand i (cfg_install (processConfig (this i w))) w)
    as [C _].
  destruct (Legacy.runCommand _ _ _ _ w) as [p w1]. cbn [fst snd] in *.
  by rewrite (startPromise_look i w w1 C).
Qed.

(** The older [stop], on a process that was started: it runs the stop
    command, or makes a resolved promise when none is configured, and
    suspends on the promise; resumed, it logs, sends tree-kill to every
    tracked handle that has a pid and suspends on the run promise; resumed
    again, it truncates the log file and returns.  The log file is empty
    when it has returned. *)
Theorem legacy_stop_truncates i w :
  let P := this i w in
  let w0 := emit (ELogger LInfo (name P +:+ ": cleaning up")) w in
  let r := Legacy.runCommand pf muxConfig i (cfg_stop (processConfig P)) w0 in
  match startPromise P with
  | None => run (Legacy.stop pf muxConfig i) w = (w, Fail "Error: Not started yet", [])
  | Some _ =>
      exists k1,
        run (Legacy.stop pf muxConfig i) w = (r.2, Await [r.1] k1, [])
        /\ (cfg_stop (processConfig P) = None ->
            r = (length (promises w),
                 with_promises (fun ps => ps ++ [Resolved undefined]) w0))
        /\ forall vs w2, exists k2,
             k1 vs w2
             = (emits ([ELogger LInfo (name (this i w2) +:+ ": shutting down")]
                         ++ kill_events (children (this i w2)) w2) w2,
                Await (match startPromise (this i w2) with
                       | Some p => [p]
                       | None => []
                       end) k2, [])
             /\ forall vs' w4,
                  let g := MuxProcess.getLogPath pf muxConfig i w4 in
                  k2 vs' w4 = (perform (truncateSync g.1) g.2, Fin undefined, [])
                  /\ file_content g.1 (k2 vs' w4).1.1 = EmptyString
  end.
Proof.
  intros P w0 r. subst P w0 r.
  destruct (startPromise (this i w)) as [p|] eqn:Hs;
    unfold Legacy.stop, run; unfold bind at 1, lift at 1, gets at 1;
    rewrite Hs; [|reflexivity].
  cbv beta iota zeta delta [bind lift ret gets modify logger await].
  change (this i (emit ?e w)) with (this i w).
  destruct (Legacy.runCommand pf muxConfig i _ _) as [q w1] eqn:Er.
  eexists. split; [reflexivity|]. split.
  { intros Hc. rewrite Hc in Er. cbn in Er. by rewrite <- Er. }
  intros vs w2. cbv beta.
  change (this i (emit ?e w2)) with (this i w2).
  rewrite kill_children_eq. cbv beta iota.
  change (this i (emits ?es ?w')) with (this i w2).
  rewrite emit_as_emits, emits_emits.
  change (kill_events ?cs (emits ?es w2)) with (kill_events cs w2).
  destruct (startPromise (this i w2)) as [p'|]; cbn [await_value];
    unfold await; (eexists; split; [reflexivity|]);
    intros vs' w4; cbv beta;
    destruct (MuxProcess.getLogPath pf muxConfig i w4) as [l w5];
    (split; [reflexivity|]); cbn [fst snd];
    unfold file_content, perform, truncateSync, modify, fin;
    cbn [fst snd files emit with_files]; by rewrite lookup_insert_eq.
Qed.

End LegacyFacts.

(** ** MuxProcess on sample configurations *)

Section ProcessSamples.

Import Sample.

Local Abbreviation cfg1 := (config [sleeper]).
Local Abbreviation w_boot := (world (boot [sleeper])).

(** The world in which the sleeper has been started: [start] has run up to
    its [await]. *)
Local Abbreviation w_started :=
  ((run (MuxProcess.start platform cfg1 0) w_boot).1.1).

Lemma stop_never_started_witness :
  let cfg := config [service] in
  let w := (run (MuxProcess.install platform cfg 0) (world (boot [service]))).1.1 in
  let w0 := emit (ELogger LInfo "service: cleaning up") w in
  let r := MuxProcess.runCommand platform cfg 0 (Some (command "npm run down")) w0 in
  (startPromise (this 0 w) = None /\ children (this 0 w) = [0])
  /\ exists k,
       run (MuxProcess.stop platform cfg 0) w = (r.2, Await [r.1] k, [])
       /\ children (this 0 r.2) = [0; 1]
       /\ let w2 := MuxProcess.onExit 1 0 r.2 in
          (k [num 0] w2).1.2 = Fin undefined
          /\ tree_kills (trace (k [num 0] w2).1.1) = [100%Z; 101%Z].
Proof.
  intros cfg w w0 r.
  assert (Hs : startPromise (this 0 w) = None) by (vm_compute; reflexivity).
  split; [split; [exact Hs | vm_compute; reflexivity]|].
  pose proof (stop_never_started platform cfg 0 w Hs) as G. cbv zeta in G.
  assert (Hc : cfg_stop (processConfig (this 0 w)) = Some (command "npm run down"))
    by (vm_compute; reflexivity).
  rewrite Hc in G. destruct G as (k & E & _ & K).
  exists k. split; [exact E|]. split; [vm_compute; reflexivity|].
  intros w2.
  assert (Hn : startPromise (this 0 w2) = None) by (vm_compute; reflexivity).
  rewrite (K [num 0] w2 Hn). split; vm_compute; reflexivity.
Defined.

(** C4 fails as stated: a process with a stop command that was never
    started.  [stop] runs the stop command (pid 100) and, once that has
    exited, sends tree-kill to its pid; the call completes without
    throwing. *)
Lemma stop_signals_when_never_started :
  let rt0 := boot [stoppable] in
  let rt1 := invoke (MuxProcess.stop platform (config [stoppable]) 0) rt0 in
  let rt2 := Main.deliver platform (config [stoppable]) 10 (ChildExit 0 0) rt1 in
  startPromise (this 0 (world rt0)) = None
  /\ tree_kills (trace (world rt2)) = [100%Z]
  /\ promises (world rt2) !! 0 = Some (Resolved undefined).
Proof. vm_compute. repeat split; reflexivity. Qed.

Lemma handles_only_added_witness :
  let c := command "npm run lint" in
  let rt0 := Main.main platform cfg1 10 100 1 in
  procs w_started !! 0 = Some (this 0 w_started)
  /\ children (this 0 w_started) = [0]
  /\ children (this 0 (MuxProcess.runCommand platform cfg1 0 (Some c) w_started).2)
       = [0; 1]
  /\ Forall2 prefix
       (handles (world (Main.deliver_all platform cfg1 20 [Signal "SIGINT"] rt0)))
       (handles (world (Main.deliver_all platform cfg1 20
                          ([Signal "SIGINT"] ++ [ChildExit 0 143]) rt0))).
Proof.
  intros c rt0.
  pose proof (handles_only_added platform cfg1 0 c w_started (this 0 w_started)
                0 0%Z 10 100%Z 1%Z 20 [Signal "SIGINT"] [ChildExit 0 143]
                eq_refl) as (G1 & _ & G3).
  split; [reflexivity|]. split; [reflexivity|]. split.
  - rewrite G1. reflexivity.
  - exact G3.
Defined.

(** C5 fails as stated: the supervisor starts the sleeper, is interrupted
    and shuts down; the child exits on the signal.  [die] has completed
    ([process.exit()] is reached after it), the child has exited, and its
    handle is still tracked. *)
Lemma die_leaves_handles :
  let rt0 := Main.main platform cfg1 10 100 1 in
  let rt := Main.deliver_all platform cfg1 20
              [Signal "SIGINT"; ChildExit 0 143] rt0 in
  exited (world rt) = true
  /\ c_code <$> spawned (world rt) = [Some 143%Z]
  /\ children <$> procs (world rt) = [[0]].
Proof. vm_compute. repeat split; reflexivity. Qed.

Lemma stop_keeps_log_witness :
  procs w_started !! 0 = Some (this 0 w_started)
  /\ logPath (this 0 w_started) = Some "./logs/long-sleeper.log"
  /\ forall path,
       file_content path (run (MuxProcess.stop platform cfg1 0) w_started).1.1
         = file_content path w_started.
Proof.
  split; [reflexivity|]. split; [reflexivity|].
  exact (proj1 (stop_keeps_log platform cfg1 0 w_started (this 0 w_started)
                  "./logs/long-sleeper.log" eq_refl eq_refl)).
Defined.

(** C6 fails as stated: the sleeper is started, writes a line, and is
    stopped; when [stop] has completed, the log still holds the line and
    the exit marker. *)
Lemma stop_leaves_log_content :
  let rt0 := {| world := w_boot; pool := [] |} in
  let rt1 := invoke (MuxProcess.start platform cfg1 0) rt0 in
  let rt2 := Main.deliver platform cfg1 10 (ChildData 0 "ready") rt1 in
  let rt3 := invoke (MuxProcess.stop platform cfg1 0) rt2 in
  let rt4 := Main.deliver platform cfg1 10 (ChildExit 0 143) rt3 in
  promises (world rt3) !! 2 = Some Pending
  /\ promises (world rt4) !! 2 = Some (Resolved undefined)
  /\ file_content "./logs/long-sleeper.log" (world rt4)
       = "readyexited with code 143".
Proof. vm_compute. repeat split; reflexivity. Qed.

Lemma runCommand_exit_code_witness :
  let w := world (boot [failing]) in
  let r := MuxProcess.runCommand platform (config [failing]) 0
             (Some (command "exit 3")) w in
  let w3 := MuxProcess.onExit 0 3 r.2 in
  procs w !! 0 = Some (new_MuxProcess failing)
  /\ promises w3 !! r.1 = Some (Resolved (num 3))
  /\ file_content "./logs/c.log" w3 = "exited with code 3".
Proof.
  intros w r w3. split; [reflexivity|].
  destruct (runCommand_exit_code platform (config [failing]) 0
              (command "exit 3") w (new_MuxProcess failing) 3 eq_refl)
    as (Hc & Hp & _ & Hx).
  destruct (Hx _ Hc Hp) as [H1 H2]. split; [exact H1|].
  etransitivity; [exact H2|]. reflexivity.
Defined.

Lemma install_truncates_first_witness :
  let w := world (boot [service]) in
  let l := "./logs/service.log" in
  procs w !! 0 = Some (new_MuxProcess service)
  /\ exists w1 k,
       run (MuxProcess.install platform (config [service]) 0) w
         = (w1, Await [0] k, [])
       /\ trace w1 =
            [EMkdir "./logs"; EAppendFile l EmptyString; ETruncate l;
             ELogger LDebug "service: truncating log file at ./logs/service.log";
             ETruncate l;
             ELogger LInfo "service: installing";
             ELogger LInfo ("service: Executing " +:+ dquote
                              +:+ "sh -c cd ././ && npm ci" +:+ dquote);
             ELogger LDebug "service: Environtment variables: {}";
             ESpawn "sh" ["-c"; "cd ././ && npm ci"] ∅ 0;
             EWriteStream l]
       /\ files w1 !! l = Some EmptyString
       /\ spawned w1 = [{| pid := 100; c_data := Some l; c_exit := Some (l, 0);
                           c_code := None |}]
       /\ forall v w2, k [v] w2 = (w2, Fin v, []).
Proof.
  intros w l. split; [reflexivity|].
  exact (install_truncates_first platform (config [service]) 0 w
           (new_MuxProcess service) eq_refl).
Defined.

Lemma start_awaits_run_witness :
  procs w_boot !! 0 = Some (new_MuxProcess sleeper)
  /\ (exists k, (run (MuxProcess.start platform cfg1 0) w_boot).1.2 = Await [0] k)
  /\ startPromise (this 0 w_started) = Some 0
  /\ promises w_started !! 0 = Some Pending.
Proof.
  split; [reflexivity|].
  destruct (start_awaits_run platform cfg1 0 w_boot (new_MuxProcess sleeper)
              eq_refl) as (k & E & Hs & Hp & _).
  split; [exists k; by rewrite E|]. split.
  - rewrite E. exact Hs.
  - rewrite E. exact Hp.
Defined.

(** C1 fails as stated: [start] is called on the sleeper and the event loop
    runs until nothing is ready.  The child is still running, and the
    promise of [start] (promise 0) is still pending: [start] is suspended
    on the run promise (promise 1), which it has stored. *)
Lemma start_pending_while_running :
  let rt := drain 10 (invoke (MuxProcess.start platform cfg1 0)
                        {| world := w_boot; pool := [] |}) in
  c_code <$> spawned (world rt) = [None]
  /\ startPromise (this 0 (world rt)) = Some 1
  /\ promises (world rt) = [Pending; Pending]
  /\ fst <$> pool rt = [0].
Proof. vm_compute. repeat split; reflexivity. Qed.

Lemma getLogPath_cached_witness :
  let r := MuxProcess.getLogPath platform cfg1 0 w_boot in
  (procs w_boot !! 0 = Some (new_MuxProcess sleeper)
   /\ logPath (new_MuxProcess sleeper) = None)
  /\ r.1 = "./logs/long-sleeper.log"
  /\ files r.2 !! "./logs/long-sleeper.log" = Some EmptyString
  /\ MuxProcess.getLogPath platform cfg1 0 r.2 = ("./logs/long-sleeper.log", r.2).
Proof.
  intros r. split; [split; reflexivity|].
  destruct (getLogPath_cached platform cfg1 0 w_boot (new_MuxProcess sleeper)
              eq_refl eq_refl) as (G1 & _ & G3 & G4).
  split; [exact G1|]. split; [exact G3 | exact G4].
Defined.

(** [stop] on a started process that has a stop command: nothing is
    signalled while the stop command (pid 101) runs; once it has exited,
    the run command (pid 100) and the stop command are sent tree-kill, and
    [stop] (promise 2) stays pending until the run command has exited. *)
Lemma stop_waits_then_signals :
  let cfg := config [stoppable] in
  let rt1 := drain 10 (invoke (MuxProcess.start platform cfg 0) (boot [stoppable])) in
  let rt2 := drain 10 (invoke (MuxProcess.stop platform cfg 0) rt1) in
  let rt3 := Main.deliver platform cfg 10 (ChildExit 1 0) rt2 in
  let rt4 := Main.deliver platform cfg 10 (ChildExit 0 143) rt3 in
  command_lines (trace (world rt2))
    = ["cd ././ && docker compose up"; "cd ././ && docker compose down"]
  /\ tree_kills (trace (world rt2)) = []
  /\ tree_kills (trace (world rt3)) = [100%Z; 101%Z]
  /\ promises (world rt3) !! 2 = Some Pending
  /\ promises (world rt4) !! 2 = Some (Resolved undefined).
Proof. vm_compute. repeat split; reflexivity. Qed.

End ProcessSamples.

(** ** MuxUI and main on sample configurations *)

Section UISamples.

Import Sample.

Local Abbreviation cfg1 := (config [sleeper]).

(** The supervisor of the sleeper after [main]: installed (nothing to do),
    started, and waiting at the main menu. *)
Local Abbreviation rt_menu := (Main.main platform cfg1 10 100 1).
Local Abbreviation graph := ((buildStateGraph (procs (world (boot [sleeper])))).1).

Lemma menu_selection_witness :
  let node := {| n_name := "main menu"; getAction := None; menu := Some [3; 2; 0];
                 onAnyKeypress := None; onActionComplete := None |} in
  let w := world (boot [sleeper]) in
  (graph !! 1 = Some node /\ menu node = Some [3; 2; 0]
   /\ onActionComplete node = None /\ onAnyKeypress node = None
   /\ ui_stopped w = false)
  /\ (exists w1 choice k1 fs1,
        run (MuxUI.handleNextState platform cfg1 2 graph (Some (ToNode 1))) w
          = (w1, Await [choice] k1, fs1)
        /\ last (trace w1)
             = Some (EChoicePrompt "main menu"
                       ["long sleeper:tail"; "rebuild all processes"; "quit"]))
  /\ menu_at [3; 2; 0] (num 0) = Some (ToNode 3)
  /\ menu_at [3; 2; 0] (num 3) = None.
Proof.
  intros node w.
  destruct (menu_selection platform cfg1 1 graph 1 node [3; 2; 0] w
              eq_refl eq_refl eq_refl eq_refl eq_refl)
    as ((w1 & choice & k1 & fs1 & E & _ & T & _) & V & O & _).
  split; [repeat split|]. split; [|split].
  - exists w1, choice, k1, fs1. split; [exact E | exact T].
  - exact (V 0 3 eq_refl).
  - apply (O 3%Z). right. cbn. lia.
Defined.


(** The same through the program's own paths: "quit" is chosen at the main
    menu, the child exits on the signal, [die] finishes and sends SIGINT to
    the supervisor itself, whose handler runs [cleanExit] and with it [die]
    and [stop] a second time; a further signal is stopped by the flag. *)
Lemma quit_then_interrupt :
  let rt := Main.deliver_all platform cfg1 20
              [Choice 2; ChildExit 0 143; Signal "SIGINT"; Signal "SIGINT"]
              rt_menu in
  stop_calls "long sleeper" (trace (world rt)) = 2
  /\ tree_kills (trace (world rt)) = [100%Z; 100%Z]
  /\ exited (world rt) = true.
Proof. vm_compute. repeat split; reflexivity. Qed.

(** Two interrupts in a row, the second while the first is shutting down:
    one stop. *)
Lemma interrupt_twice_stops_once :
  let rt := Main.deliver_all platform cfg1 20
              [Signal "SIGINT"; Signal "SIGTERM"; ChildExit 0 143] rt_menu in
  stop_calls "long sleeper" (trace (world rt)) = 1
  /\ tree_kills (trace (world rt)) = [100%Z]
  /\ exited (world rt) = true.
Proof. vm_compute. repeat split; reflexivity. Qed.

Lemma process_nodes_witness :
  let p := new_MuxProcess sleeper in
  [p] !! 0 = Some p
  /\ graph !! 3 = Some (tail_node 0 p 6)
  /\ graph !! 4 = Some (restart_node 0 p 3)
  /\ graph !! 5 = Some (rebuild_node 0 p 3)
  /\ graph !! 6 = Some (menu_node p 1 3).
Proof.
  intros p. split; [reflexivity|]. exact (process_nodes [p] 0 p eq_refl).
Defined.

Lemma action_node_transition_witness :
  let w := world (boot [sleeper]) in
  let node := restart_node 0 (new_MuxProcess sleeper) 3 in
  let ga := MuxUI.get_action platform cfg1 (RestartAction 0)
              (emit (ELogger LDebug ("Entering " +:+ dquote +:+ "long sleeper:restart"
                                       +:+ dquote)) w) in
  (graph !! 4 = Some node /\ getAction node = Some (RestartAction 0)
   /\ onActionComplete node = Some 3 /\ ui_stopped w = false)
  /\ exists k1 k2,
       (exists w1 fs1,
          run (MuxUI.handleNextState platform cfg1 2 graph (Some (ToNode 4))) w
            = (w1, Await [0] k1, fs1))
       /\ (forall vs w2,
             k1 vs w2 = call (act_stop ga.1) (fun s w3 => (w3, Await [s] k2, [])) w2)
       /\ forall vs' w4,
            k2 vs' w4
            = call (MuxUI.handleNextState platform cfg1 1 graph (Some (ToNode 3)))
                (fun _ => fin undefined)
                (emit (ELogger LDebug "Action complete") w4).
Proof.
  intros w node ga. split; [repeat split|].
  destruct (action_node_transition platform cfg1 1 graph 4 node (RestartAction 0)
              3 w eq_refl eq_refl eq_refl eq_refl)
    as (k1 & k2 & _ & E & K1 & K2).
  exists k1, k2. split; [exact E|]. split; [exact K1 | exact K2].
Defined.

Lemma prompt_node_transition_witness :
  let w := world (boot [sleeper]) in
  let node := tail_node 0 (new_MuxProcess sleeper) 6 in
  let ga := MuxUI.get_action platform cfg1 (TailAction 0)
              (emit (ELogger LDebug ("Entering " +:+ dquote +:+ "long sleeper:tail"
                                       +:+ dquote)) w) in
  (graph !! 3 = Some node /\ getAction node = Some (TailAction 0)
   /\ onActionComplete node = None
   /\ onAnyKeypress node = Some (ToNode 6) /\ ui_stopped w = false)
  /\ exists k1 k2,
       (exists w1 key fs1,
          run (MuxUI.handleNextState platform cfg1 2 graph (Some (ToNode 3))) w
            = (w1, Await [key] k1, fs1)
          /\ last (key_waiters w1) = Some key
          /\ last (trace w1) = Some EWaitKey)
       /\ forall vs w2,
            k1 vs w2 = call (act_stop ga.1) (fun s w3 => (w3, Await [s] k2, [])) w2.
Proof.
  intros w node ga. split; [repeat split|].
  destruct (prompt_node_transition platform cfg1 1 graph 3 node (TailAction 0)
              (ToNode 6) w eq_refl eq_refl eq_refl eq_refl eq_refl)
    as (k1 & k2 & _ & E & K1 & _).
  exists k1, k2. split; [exact E | exact K1].
Defined.

Lemma stopped_ui_is_final_witness :
  let rt1 := Main.deliver_all platform cfg1 20 [Choice 2] rt_menu in
  let rt2 := Main.deliver_all platform cfg1 20
               ([Choice 2] ++ [ChildExit 0 143; Choice 0]) rt_menu in
  ui_stopped (world rt1) = true
  /\ ui_stopped (world rt2) = true
  /\ run (MuxUI.handleNextState platform cfg1 1 graph (Some (ToNode 1))) (world rt2)
     = (world rt2, Fin undefined, []).
Proof.
  intros rt1 rt2. split; [reflexivity|].
  exact (stopped_ui_is_final platform cfg1 10 100%Z 1%Z 20 [Choice 2]
           [ChildExit 0 143; Choice 0] 0 graph (Some (ToNode 1)) eq_refl).
Defined.

(** [initialize] does not wait for the processes it starts: when [main]
    has run, the sleeper is running, [start] is suspended on the run
    promise (promise 5), and the main menu is on the screen. *)
Lemma menu_while_running :
  last (trace (world rt_menu))
    = Some (EChoicePrompt "main menu"
              ["long sleeper:tail"; "rebuild all processes"; "quit"])
  /\ c_code <$> spawned (world rt_menu) = [None]
  /\ startPromise (this 0 (world rt_menu)) = Some 5
  /\ promises (world rt_menu) !! 5 = Some Pending.
Proof. vm_compute. repeat split; reflexivity. Qed.

(** Restart and rebuild from the menu of the process, after the sleeper has
    written a line: the user goes to the tail view, presses a key, chooses
    restart or rebuild, and the child exits on the signal.  After a restart
    the log still holds the line and the exit marker; after a rebuild it is
    empty.  In both cases a second child is running and both handles are
    tracked. *)
Lemma restart_appends_rebuild_truncates :
  let before := [ChildData 0 "one"; Choice 0; Key "a"] in
  let restarted := Main.deliver_all platform cfg1 20
                     (before ++ [Choice 2; ChildExit 0 143]) rt_menu in
  let rebuilt := Main.deliver_all platform cfg1 20
                   (before ++ [Choice 3; ChildExit 0 143]) rt_menu in
  file_content "./logs/long-sleeper.log" (world restarted)
    = "oneexited with code 143"
  /\ file_content "./logs/long-sleeper.log" (world rebuilt) = EmptyString
  /\ c_code <$> spawned (world restarted) = [Some 143%Z; None]
  /\ c_code <$> spawned (world rebuilt) = [Some 143%Z; None]
  /\ handles (world restarted) = [[0; 1]]
  /\ handles (world rebuilt) = [[0; 1]].
Proof. vm_compute. repeat split; reflexivity. Qed.

(** Two processes, the first with an install and a stop command.  [main]
    runs the install command and starts nothing until it has exited; then
    both processes are started, in the order of the configuration, and the
    menu is shown.  On an interrupt the sleeper is signalled at once, the
    service only after its stop command has exited, and then on every
    handle it tracks, that of the install command included; the supervisor
    exits when both run commands have exited. *)
Lemma two_processes :
  let cfg := config [service; sleeper] in
  let rt0 := Main.main platform cfg 10 100 1 in
  let rt1 := Main.deliver platform cfg 10 (ChildExit 0 0) rt0 in
  let rt2 := Main.deliver platform cfg 10 (Signal "SIGINT") rt1 in
  let rt3 := Main.deliver platform cfg 10 (ChildExit 3 0) rt2 in
  let rt4 := Main.deliver_all platform cfg 10 [ChildExit 1 143; ChildExit 2 143] rt3 in
  command_lines (trace (world rt0)) = ["cd ././ && npm ci"]
  /\ command_lines (trace (world rt1))
       = ["cd ././ && npm ci"; "cd ././ && npm start"; "cd ././ && sleep 1000"]
  /\ last (trace (world rt1))
       = Some (EChoicePrompt "main menu"
                 ["long sleeper:tail"; "service:tail"; "rebuild all processes";
                  "quit"])
  /\ tree_kills (trace (world rt2)) = [102%Z]
  /\ last (command_lines (trace (world rt2))) = Some "cd ././ && npm run down"
  /\ tree_kills (trace (world rt3)) = [102%Z; 100%Z; 101%Z; 103%Z]
  /\ exited (world rt3) = false
  /\ exited (world rt4) = true
  /\ handles (world rt4) = [[0; 1; 3]; [2]].
Proof. vm_compute. repeat split; reflexivity. Qed.

End UISamples.

(** ** The older MuxProcess on a sample configuration *)

Section LegacySamples.

Import Sample.

(** The older class on the sleeper: started, it writes a line; [stop] is
    called and signals the child, which exits; [stop] returns after that,
    and the log file is empty. *)
Lemma legacy_stop_empties_log :
  let cfg1 := config [sleeper] in
  let rt0 := boot [sleeper] in
  let rt1 := drain 10 (invoke (Legacy.start platform cfg1 0) rt0) in
  let rt2 := {| world := Legacy.onData 0 "ready" (world rt1); pool := pool rt1 |} in
  let rt3 := drain 10 (invoke (Legacy.stop platform cfg1 0) rt2) in
  let rt4 := drain 10 {| world := Legacy.onClose 0 143 (world rt3);
                         pool := pool rt3 |} in
  file_content "./logs/long-sleeper.log" (world rt3) = "ready"
  /\ promises (world rt3) !! 2 = Some Pending
  /\ tree_kills (trace (world rt3)) = [100%Z]
  /\ promises (world rt4) !! 2 = Some (Resolved undefined)
  /\ file_content "./logs/long-sleeper.log" (world rt4) = EmptyString
  /\ last (trace (world rt4)) = Some (ETruncate "./logs/long-sleeper.log").
Proof. vm_compute. repeat split; reflexivity. Qed.

Lemma legacy_stop_not_started_witness :
  let cfg := config [service] in
  let w := world (boot [service]) in
  let w' := (run (Legacy.install platform cfg 0) w).1.1 in
  startPromise (this 0 w) = None
  /\ children (this 0 w') = [0]
  /\ run (Legacy.stop platform cfg 0) w' = (w', Fail "Error: Not started yet", []).
Proof.
  intros cfg w w'. split; [reflexivity|]. split; [vm_compute; reflexivity|].
  exact (proj2 (legacy_stop_not_started platform cfg 0 w eq_refl)).
Defined.

End LegacySamples.

(** ** Commands and actions on a sample configuration *)

Section MoreSamples.

Import Sample.

Local Abbreviation cfg1 := (config [sleeper]).
Local Abbreviation w_boot := (world (boot [sleeper])).
Local Abbreviation log1 := "./logs/long-sleeper.log".

Lemma start_keeps_log_witness :
  let w := MuxProcess.onData 0 "zzz"
             (run (MuxProcess.start platform cfg1 0) w_boot).1.1 in
  (procs w !! 0 = Some (this 0 w) /\ logPath (this 0 w) = Some log1)
  /\ file_content log1 w = "zzz"
  /\ file_content log1 (run (MuxProcess.start platform cfg1 0) w).1.1
     = file_content log1 w.
Proof.
  intros w. split; [split; reflexivity|]. split; [reflexivity|].
  exact (proj2 (start_keeps_log platform cfg1 0 (command "true") w (this 0 w)
                  log1 log1 eq_refl eq_refl)).
Defined.

Lemma runCommand_spawns_witness :
  let pf := {| path_join := fun a b => a +:+ "/" +:+ b;
               JSON_stringify := fun _ => "{}";
               Object_keys := fun m => (map_to_list m).*1;
               process_env := {[ "PATH" := "/bin"; "NODE_ENV" := "production" ]};
               chalk_yellow := fun s => s;
     toLowerCase := toLowerCase_ascii |} in
  let c := {| exec := "npm start"; dir := Some "web";
              env := Some {[ "NODE_ENV" := "development" ]} |} in
  procs w_boot !! 0 = Some (new_MuxProcess sleeper)
  /\ exists envp,
       spawn_calls (trace (MuxProcess.runCommand pf cfg1 0 (Some c) w_boot).2)
       = [("sh", ["-c"; "cd ./web && npm start"], envp)]
       /\ envp !! "NODE_ENV" = Some "development"
       /\ envp !! "PATH" = Some "/bin".
Proof.
  intros pf c. split; [reflexivity|].
  destruct (runCommand_spawns pf cfg1 0 c w_boot (new_MuxProcess sleeper) eq_refl)
    as (envp & E & L).
  exists envp. split; [exact E|]. split; rewrite L; reflexivity.
Defined.

Lemma tail_action_unwatches_witness :
  let r := MuxUI.get_action platform cfg1 (TailAction 0) w_boot in
  procs w_boot !! 0 = Some (new_MuxProcess sleeper)
  /\ run (act_stop r.1) r.2 = (r.2, Fin undefined, []).
Proof.
  intros r. split; [reflexivity|].
  exact (proj1 (tail_action_unwatches platform cfg1 0 w_boot
                  (new_MuxProcess sleeper) eq_refl)).
Defined.

End MoreSamples.
